(** * vd_agent display backends: KWin (Wayland) and Mutter (DBus)

    A shallow embedding of the display discovery and apply paths of
    [src/vdagent/kwin.c] and [src/vdagent/mutter.c], with the properties
    of the reconciliation layer proved against it.

    Conventions of the embedding.
    - A C [int] (and [gint32]) is a [Z]; where the code adds, counts or
      converts, the two's-complement wrap-around is written out with
      [to_int]. A [guint]/[uint32_t] is a [Z] wrapped with [to_uint].
    - A [gdouble] is a [spec_float] of the Standard Library, compared with
      the IEEE comparison [SFltb].
    - A [GArray]/[GPtrArray]/C array is a [list], in array order.
    - The connector mapping [GHashTable] is a [gmap string Z] whose values
      are the stored [gpointer]s, read back with [GPOINTER_TO_UINT] or
      [GPOINTER_TO_INT].
    - A pointer that may be [NULL] is an [option]. *)

From Stdlib Require Import ZArith Lia.
From Stdlib Require Import Floats.SpecFloat.
From stdpp Require Import base option list gmap strings.

Local Open Scope Z_scope.

(** ** C integers and doubles *)

Module C.

Definition to_uint (z : Z) : Z := z mod 2 ^ 32.

Definition to_int (z : Z) : Z := (z + 2 ^ 31) mod 2 ^ 32 - 2 ^ 31.

(** [a + b] on [int]. *)
Definition int_add (a b : Z) : Z := to_int (a + b).

Definition gdouble : Type := spec_float.

(** [a > b] on [double]. *)
Definition double_gt (a b : gdouble) : bool := SFltb b a.

(** [a == b] on [double]. *)
Definition double_eq (a b : gdouble) : bool := SFeqb a b.

(** The literals [0] and [1.0]. *)
Definition double_0 : gdouble := S754_zero false.
Definition double_1 : gdouble := S754_finite false 4503599627370496 (-52).

End C.

(** ** GLib: pointer conversions and the connector mapping *)

Module GLib.

Definition gpointer : Type := Z.

Definition GPOINTER_TO_UINT (p : gpointer) : Z := C.to_uint p.

Definition GPOINTER_TO_INT (p : gpointer) : Z := C.to_int p.

(** [g_hash_table_lookup_extended (table, key, NULL, &value)]: [Some]
    of the stored value when the key is present. *)
Definition g_hash_table_lookup_extended
    (table : gmap string gpointer) (key : string) : option gpointer :=
  table !! key.

End GLib.

(** ** Protocol structures shared by both backends *)

(** [struct vdagentd_guest_xorg_resolution] of [vdagentd-proto.h]. *)
Record vdagentd_guest_xorg_resolution := {
  res_width : Z;
  res_height : Z;
  res_x : Z;
  res_y : Z;
  res_display_id : Z;
}.

(** [VDAgentMonConfig] of [spice/vd_agent.h]: [height], [width] and
    [depth] are [uint32_t], [x] and [y] are [int32_t]. The entry has no
    identifier of its own: its SPICE display id is its index in
    [VDAgentMonitorsConfig.monitors], whose length is [num_of_monitors]. *)
Record VDAgentMonConfig := {
  mc_height : Z;
  mc_width : Z;
  mc_depth : Z;
  mc_x : Z;
  mc_y : Z;
}.

Definition set_display_id (r : vdagentd_guest_xorg_resolution) (id : Z)
    : vdagentd_guest_xorg_resolution :=
  {| res_width := res_width r; res_height := res_height r;
     res_x := res_x r; res_y := res_y r; res_display_id := id |}.

(** The loop [for (i = 0; i < res_array->len; i++) res[i].display_id = i;]
    that both backends run over the not-found array. *)
Fixpoint assign_monitor_index (i : nat) (res : list vdagentd_guest_xorg_resolution)
    : list vdagentd_guest_xorg_resolution :=
  match res with
  | [] => []
  | r :: rest =>
      set_display_id r (C.to_int (Z.of_nat i)) :: assign_monitor_index (S i) rest
  end.

(** The desktop-size update both backends perform on one record:
    [if (res.x + res.width > *width) *width = res.x + res.width;]. *)
Definition grow_bound (bound origin extent : Z) : Z :=
  if bound <? C.int_add origin extent then C.int_add origin extent else bound.

(** ** The KWin backend, [kwin.c] *)

Module KWin.

(** [struct KWinMode]; [km_mode] is the [kde_output_device_mode_v2]
    handle. *)
Record KWinMode := {
  km_mode : Z;
  km_width : Z;
  km_height : Z;
  km_refresh : Z;
  km_preferred : bool;
  km_current : bool;
}.

(** [struct KWinOutput]; [ko_device] is the [kde_output_device_v2]
    handle, [ko_name] and the two mode pointers may be [NULL]. *)
Record KWinOutput := {
  ko_device : Z;
  ko_name : option string;
  ko_uuid : option string;
  ko_x : Z;
  ko_y : Z;
  ko_width : Z;
  ko_height : Z;
  ko_physical_width : Z;
  ko_physical_height : Z;
  ko_transform : Z;
  ko_scale : C.gdouble;
  ko_enabled : bool;
  ko_modes : list KWinMode;
  ko_current_mode : option KWinMode;
  ko_preferred_mode : option KWinMode;
  ko_done : bool;
}.

(** [struct VDAgentKWin], as it stands after the [wl_display_roundtrip]
    that opens each public call; [output_management] is [None] when the
    protocol was not bound. *)
Record VDAgentKWin := {
  output_management : option Z;
  connector_mapping : gmap string GLib.gpointer;
  outputs : list KWinOutput;
  output_management_version : Z;
}.

(** *** Discovery: [vdagent_kwin_get_resolutions] *)

(** The locals and out-parameters the discovery loop updates. *)
Record scan := {
  res_array : list vdagentd_guest_xorg_resolution;
  not_found_array : list vdagentd_guest_xorg_resolution;
  width : Z;
  height : Z;
  screen_count : Z;
}.

(** The record built for one output, [display_id] still 0. *)
Definition output_resolution (o : KWinOutput) : vdagentd_guest_xorg_resolution :=
  {| res_width := ko_width o; res_height := ko_height o;
     res_x := ko_x o; res_y := ko_y o; res_display_id := 0 |}.

(** The test [output->name && g_hash_table_lookup_extended (...)]. *)
Definition lookup_connector (m : gmap string GLib.gpointer) (o : KWinOutput)
    : option GLib.gpointer :=
  match ko_name o with
  | Some n => GLib.g_hash_table_lookup_extended m n
  | None => None
  end.

(** One iteration of the loop over [kwin->outputs]. *)
Definition scan_output (m : gmap string GLib.gpointer) (st : scan) (o : KWinOutput)
    : scan :=
  if negb (ko_done o) || negb (ko_enabled o) then st
  else
    let res := output_resolution o in
    let w := grow_bound (width st) (res_x res) (res_width res) in
    let h := grow_bound (height st) (res_y res) (res_height res) in
    let n := C.int_add (screen_count st) 1 in
    match lookup_connector m o with
    | Some value =>
        {| res_array :=
             res_array st ++ [set_display_id res (C.to_int (GLib.GPOINTER_TO_UINT value))];
           not_found_array := not_found_array st;
           width := w; height := h; screen_count := n |}
    | None =>
        {| res_array := res_array st;
           not_found_array := not_found_array st ++ [res];
           width := w; height := h; screen_count := n |}
    end.

Definition scan_outputs (m : gmap string GLib.gpointer) (os : list KWinOutput)
    (st : scan) : scan :=
  fold_left (scan_output m) os st.

(** The whole call. [None] is the [NULL] return, which leaves the
    out-parameters untouched; otherwise the array and the three
    out-parameters [*width], [*height], [*screen_count]. *)
Definition vdagent_kwin_get_resolutions (kwin : option VDAgentKWin)
    : option (list vdagentd_guest_xorg_resolution * Z * Z * Z) :=
  match kwin with
  | None => None
  | Some k =>
      match output_management k with
      | None => None
      | Some _ =>
          let st := scan_outputs (connector_mapping k) (outputs k)
                      {| res_array := []; not_found_array := [];
                         width := 0; height := 0; screen_count := 0 |} in
          let result :=
            match res_array st with
            | [] => assign_monitor_index 0 (not_found_array st)
            | _ :: _ => res_array st
            end in
          Some (result, width st, height st, screen_count st)
      end
  end.

(** *** Mode selection: [kwin_find_mode] *)

(** The loop of [kwin_find_mode], with its two locals [best] and
    [best_refresh]. *)
Fixpoint find_mode_loop (modes : list KWinMode) (w h : Z)
    (best : option KWinMode) (best_refresh : Z) : option KWinMode :=
  match modes with
  | [] => best
  | m :: rest =>
      if (km_width m =? w) && (km_height m =? h) then
        if negb (bool_decide (is_Some best)) || (best_refresh <? km_refresh m) then
          find_mode_loop rest w h (Some m) (km_refresh m)
        else find_mode_loop rest w h best best_refresh
      else find_mode_loop rest w h best best_refresh
  end.

Definition kwin_find_mode (output : KWinOutput) (w h : Z) : option KWinMode :=
  find_mode_loop (ko_modes output) w h None 0.

(** *** Apply: [vdagent_kwin_set_monitor_config] *)

(** The requests sent on the [kde_output_configuration_v2] object, in
    the order they are issued. *)
Inductive request :=
| req_enable (device : Z) (on : Z)
| req_mode (device : Z) (mode_handle : Z)
| req_position (device : Z) (x y : Z)
| req_scale (device : Z) (fixed : Z)
| req_transform (device : Z) (t : Z)
| req_apply.

(** The events of [config_listener]. *)
Inductive config_event := ev_applied | ev_failed.

(** The state the apply call reads and writes while it talks to the
    compositor: the two flags of [struct VDAgentKWin], the number of
    round trips the call has made so far and the time it has slept. *)
Record wait_state := {
  config_applied : bool;
  config_failed : bool;
  roundtrips : nat;
  slept_usec : Z;
}.

(** [config_handle_applied] and [config_handle_failed]. *)
Definition config_handle (st : wait_state) (e : config_event) : wait_state :=
  match e with
  | ev_applied =>
      {| config_applied := true; config_failed := config_failed st;
         roundtrips := roundtrips st; slept_usec := slept_usec st |}
  | ev_failed =>
      {| config_applied := config_applied st; config_failed := true;
         roundtrips := roundtrips st; slept_usec := slept_usec st |}
  end.

(** [wl_display_roundtrip] inside the wait loop: the listener is run on
    every configuration event the compositor delivered during this
    round trip. [signals n] is what round trip number [n] of the call
    delivers, the round trip that opens the call being number 0. *)
Definition wl_display_roundtrip (signals : nat → list config_event)
    (st : wait_state) : wait_state :=
  let st' := fold_left config_handle (signals (roundtrips st)) st in
  {| config_applied := config_applied st'; config_failed := config_failed st';
     roundtrips := S (roundtrips st'); slept_usec := slept_usec st' |}.

Definition g_usleep (usec : Z) (st : wait_state) : wait_state :=
  {| config_applied := config_applied st; config_failed := config_failed st;
     roundtrips := roundtrips st; slept_usec := slept_usec st + usec |}.

(** [while (!applied && !failed && max_wait > 0) { roundtrip;
    if (!applied && !failed) { g_usleep (100000); max_wait--; } }].
    When the round trip sets a flag, the loop condition fails at the
    next test and the state is returned as it is. *)
Fixpoint wait_for_result (signals : nat → list config_event) (max_wait : nat)
    (st : wait_state) : wait_state :=
  if config_applied st || config_failed st then st
  else
    match max_wait with
    | O => st
    | S n =>
        let st1 := wl_display_roundtrip signals st in
        if config_applied st1 || config_failed st1 then st1
        else wait_for_result signals n (g_usleep 100000 st1)
    end.

(** The tests after the loop. *)
Definition wait_result (st : wait_state) : Z :=
  if config_failed st then -1
  else if negb (config_applied st) then -1
  else 0.

(** What one call leaves behind: the return value, the requests issued
    and the final wait state. *)
Record apply_outcome := {
  ret : Z;
  requests : list request;
  final : wait_state;
}.

Definition idle : wait_state :=
  {| config_applied := false; config_failed := false;
     roundtrips := 0; slept_usec := 0 |}.

(** [wl_display_roundtrip] as the first statement after the [NULL]
    checks ("refresh output state first"). The configuration object and
    its listener do not exist yet, so no configuration event is
    dispatched; what the round trip does to the outputs is already in
    the instance the call is given. *)
Definition refresh_roundtrip (st : wait_state) : wait_state :=
  {| config_applied := config_applied st; config_failed := config_failed st;
     roundtrips := S (roundtrips st); slept_usec := slept_usec st |}.

(** [kwin->config_applied = FALSE; kwin->config_failed = FALSE;] *)
Definition reset_flags (st : wait_state) : wait_state :=
  {| config_applied := false; config_failed := false;
     roundtrips := roundtrips st; slept_usec := slept_usec st |}.

Section Apply.

(** [wl_fixed_from_double] of libwayland. *)
Variable wl_fixed_from_double : C.gdouble → Z.

(** The inner loop [for (j = 0; j < kwin->outputs->len; j++)] that
    looks for the output mapped to SPICE display [i]. *)
Fixpoint find_mapped_output (m : gmap string GLib.gpointer)
    (os : list KWinOutput) (i : Z) : option KWinOutput :=
  match os with
  | [] => None
  | o :: rest =>
      match ko_name o with
      | None => find_mapped_output m rest i
      | Some n =>
          match GLib.g_hash_table_lookup_extended m n with
          | Some value =>
              if GLib.GPOINTER_TO_UINT value =? i then Some o
              else find_mapped_output m rest i
          | None => find_mapped_output m rest i
          end
      end
  end.

(** The output chosen for entry [i]: the mapped one, else
    [outputs[i]] when [i < outputs->len], else [NULL]. *)
Definition find_output (k : VDAgentKWin) (i : nat) : option KWinOutput :=
  match find_mapped_output (connector_mapping k) (outputs k) (Z.of_nat i) with
  | Some o => Some o
  | None => outputs k !! i
  end.

(** The requests issued for a resolved output. *)
Definition configure_output (output : KWinOutput) (mc : VDAgentMonConfig)
    : list request :=
  [req_enable (ko_device output) 1]
  ++ match kwin_find_mode output (C.to_int (mc_width mc)) (C.to_int (mc_height mc)) with
     | Some m => [req_mode (ko_device output) (km_mode m)]
     | None =>
         match ko_current_mode output with
         | Some cur => [req_mode (ko_device output) (km_mode cur)]
         | None => []
         end
     end
  ++ [req_position (ko_device output) (mc_x mc) (mc_y mc);
      req_scale (ko_device output) (wl_fixed_from_double (ko_scale output));
      req_transform (ko_device output) (ko_transform output)].

(** One iteration of the loop over [mon_config->monitors]. *)
Definition configure_monitor (k : VDAgentKWin) (i : nat) (mc : VDAgentMonConfig)
    : list request :=
  match find_output k i with
  | None => []
  | Some output => configure_output output mc
  end.

(** The loop [for (i = 0; i < mon_config->num_of_monitors; i++)],
    from index [i] on. *)
Fixpoint configure_monitors (k : VDAgentKWin) (i : nat)
    (monitors : list VDAgentMonConfig) : list request :=
  match monitors with
  | [] => []
  | mc :: rest => configure_monitor k i mc ++ configure_monitors k (S i) rest
  end.

(** The whole call. [mon_config] is the [monitors] array ([None] for
    a [NULL] pointer), [config] the result of
    [kde_output_management_v2_create_configuration], [kwin] the
    instance with its outputs as the opening round trip leaves them.
    The call returns before that round trip when one of its pointers
    is [NULL], and right after it when no configuration object could
    be created. *)
Definition vdagent_kwin_set_monitor_config (kwin : option VDAgentKWin)
    (mon_config : option (list VDAgentMonConfig)) (config : option Z)
    (signals : nat → list config_event) : apply_outcome :=
  match kwin, mon_config with
  | Some k, Some monitors =>
      match output_management k with
      | Some _ =>
          let st0 := refresh_roundtrip idle in
          match config with
          | Some _ =>
              let st1 := reset_flags st0 in
              let reqs := configure_monitors k 0 monitors ++ [req_apply] in
              let st := wait_for_result signals 50 st1 in
              {| ret := wait_result st; requests := reqs; final := st |}
          | None => {| ret := -1; requests := []; final := st0 |}
          end
      | None => {| ret := -1; requests := []; final := idle |}
      end
  | _, _ => {| ret := -1; requests := []; final := idle |}
  end.

End Apply.

End KWin.

(** ** The Mutter backend, [mutter.c] *)

Module Mutter.

(** *** The reply of [GetCurrentState]

    [(u a((ssss)a(siiddada{sv})a{sv}) a(iiduba(ssss)a{sv}) a{sv})]. Of
    the mode properties only the two keys the code looks up are kept:
    [None] is an absent key. *)

Record monitor_spec := {
  ms_connector : string;
  ms_vendor : string;
  ms_product : string;
  ms_serial : string;
}.

Record dbus_mode := {
  dm_id : string;
  dm_width : Z;
  dm_height : Z;
  dm_refresh_rate : C.gdouble;
  dm_preferred_scale : C.gdouble;
  dm_supported_scales : list C.gdouble;
  dm_is_current : option bool;
  dm_is_preferred : option bool;
}.

Record dbus_monitor := {
  mon_spec : monitor_spec;
  mon_modes : list dbus_mode;
}.

Record dbus_logical_monitor := {
  lm_x : Z;
  lm_y : Z;
  lm_scale : C.gdouble;
  lm_transform : Z;
  lm_primary : bool;
  lm_monitors : list monitor_spec;
}.

Record current_state := {
  cs_serial : Z;
  cs_monitors : list dbus_monitor;
  cs_logical_monitors : list dbus_logical_monitor;
}.

(** [struct VDAgentMutterDBus]. *)
Record VDAgentMutterDBus := {
  dbus_proxy : option Z;
  connector_mapping : gmap string GLib.gpointer;
}.

(** [if (!g_variant_lookup (properties, key, "b", &flag)) flag = FALSE;] *)
Definition lookup_flag (property : option bool) : bool :=
  match property with
  | Some b => b
  | None => false
  end.

(** The inner loop over the monitor specs of one logical monitor:
    [found] is set when one of them has the connector. *)
Fixpoint has_connector (specs : list monitor_spec) (connector : string) : bool :=
  match specs with
  | [] => false
  | s :: rest =>
      if bool_decide (connector = ms_connector s) then true
      else has_connector rest connector
  end.

(** *** Discovery: [vdagent_mutter_get_resolutions] *)

(** [vdagent_mutter_get_monitor_position]; [x] and [y] are the values
    [*x] and [*y] hold on entry, which the function leaves in place when
    there is no logical monitor at all. *)
Fixpoint vdagent_mutter_get_monitor_position (logical_monitors : list dbus_logical_monitor)
    (connector : string) (x y : Z) : Z * Z :=
  match logical_monitors with
  | [] => (x, y)
  | lm :: rest =>
      if has_connector (lm_monitors lm) connector then (lm_x lm, lm_y lm)
      else vdagent_mutter_get_monitor_position rest connector 0 0
  end.

(** The loop over the modes of one monitor: the first mode whose
    [is-current] property is true is the one used, and the loop breaks
    there. *)
Fixpoint current_mode (modes : list dbus_mode) : option dbus_mode :=
  match modes with
  | [] => None
  | m :: rest => if lookup_flag (dm_is_current m) then Some m else current_mode rest
  end.

Record scan := {
  res_array : list vdagentd_guest_xorg_resolution;
  not_found_array : list vdagentd_guest_xorg_resolution;
  desktop_width : Z;
  desktop_height : Z;
}.

(** The local [curr] once filled in for a monitor with current mode
    [m]. [curr0] is what the uninitialised local holds before. *)
Definition monitor_resolution (logical_monitors : list dbus_logical_monitor)
    (curr0 : vdagentd_guest_xorg_resolution) (connector : string) (m : dbus_mode)
    : vdagentd_guest_xorg_resolution :=
  let '(x, y) := vdagent_mutter_get_monitor_position logical_monitors connector
                   (res_x curr0) (res_y curr0) in
  {| res_width := dm_width m; res_height := dm_height m;
     res_x := x; res_y := y; res_display_id := res_display_id curr0 |}.

(** One iteration of the loop over the monitors. *)
Definition scan_monitor (mapping : gmap string GLib.gpointer)
    (logical_monitors : list dbus_logical_monitor)
    (curr0 : vdagentd_guest_xorg_resolution) (st : scan) (monitor : dbus_monitor)
    : scan :=
  let connector := ms_connector (mon_spec monitor) in
  match current_mode (mon_modes monitor) with
  | None => st
  | Some m =>
      let curr := monitor_resolution logical_monitors curr0 connector m in
      let w := grow_bound (desktop_width st) (res_x curr) (res_width curr) in
      let h := grow_bound (desktop_height st) (res_y curr) (res_height curr) in
      match GLib.g_hash_table_lookup_extended mapping connector with
      | Some value =>
          {| res_array :=
               res_array st
               ++ [set_display_id curr (C.to_int (GLib.GPOINTER_TO_UINT value))];
             not_found_array := not_found_array st;
             desktop_width := w; desktop_height := h |}
      | None =>
          {| res_array := res_array st;
             not_found_array := not_found_array st ++ [curr];
             desktop_width := w; desktop_height := h |}
      end
  end.

(** The loop over the monitors; [curr0 k] is the indeterminate content
    of [curr] at the [k]-th monitor still to be visited. *)
Fixpoint scan_monitors (mapping : gmap string GLib.gpointer)
    (logical_monitors : list dbus_logical_monitor)
    (curr0 : nat → vdagentd_guest_xorg_resolution)
    (monitors : list dbus_monitor) (st : scan) : scan :=
  match monitors with
  | [] => st
  | monitor :: rest =>
      scan_monitors mapping logical_monitors (curr0 ∘ S) rest
        (scan_monitor mapping logical_monitors (curr0 0%nat) st monitor)
  end.

(** The whole call. [values] is the reply of [GetCurrentState] ([None]
    when the call failed); [width0] and [height0] are what
    [*desktop_width] and [*desktop_height] hold on entry: the function
    compares against them without setting them first. [None] is the
    [NULL] return. *)
Definition vdagent_mutter_get_resolutions (mutter : option VDAgentMutterDBus)
    (values : option current_state)
    (curr0 : nat → vdagentd_guest_xorg_resolution) (width0 height0 : Z)
    : option (list vdagentd_guest_xorg_resolution * Z * Z * Z) :=
  match mutter, values with
  | Some mu, Some v =>
      let screen_count := C.to_int (Z.of_nat (length (cs_monitors v))) in
      let st := scan_monitors (connector_mapping mu) (cs_logical_monitors v) curr0
                  (cs_monitors v)
                  {| res_array := []; not_found_array := [];
                     desktop_width := width0; desktop_height := height0 |} in
      let result :=
        match res_array st with
        | [] => assign_monitor_index 0 (not_found_array st)
        | _ :: _ => res_array st
        end in
      Some (result, desktop_width st, desktop_height st, screen_count)
  | _, _ => None
  end.

(** *** The parsed state used by the apply path *)

(** [struct MutterModeInfo]. *)
Record MutterModeInfo := {
  mode_id : string;
  width : Z;
  height : Z;
  refresh_rate : C.gdouble;
  is_current : bool;
  is_preferred : bool;
}.

(** [struct MutterMonitorInfo]; [current_mode_id] may be [NULL]. *)
Record MutterMonitorInfo := {
  connector : string;
  vendor : string;
  product : string;
  serial : string;
  modes : list MutterModeInfo;
  current_x : Z;
  current_y : Z;
  current_scale : C.gdouble;
  current_transform : Z;
  is_primary : bool;
  is_enabled : bool;
  current_mode_id : option string;
  display_id : Z;
}.

(** [parse_monitor_modes]. *)
Definition parse_monitor_mode (m : dbus_mode) : MutterModeInfo :=
  {| mode_id := dm_id m; width := dm_width m; height := dm_height m;
     refresh_rate := dm_refresh_rate m;
     is_current := lookup_flag (dm_is_current m);
     is_preferred := lookup_flag (dm_is_preferred m) |}.

Definition parse_monitor_modes (modes_iter : list dbus_mode) : list MutterModeInfo :=
  map parse_monitor_mode modes_iter.

(** [find_logical_monitor_info]: position, scale, transform and primary
    flag of the first logical monitor holding the connector, and
    [(0, 0, 1.0, 0, FALSE)] when there is none. *)
Fixpoint find_logical_monitor_info (logical_monitors : list dbus_logical_monitor)
    (conn : string) : Z * Z * C.gdouble * Z * bool :=
  match logical_monitors with
  | [] => (0, 0, C.double_1, 0, false)
  | lm :: rest =>
      if has_connector (lm_monitors lm) conn
      then (lm_x lm, lm_y lm, lm_scale lm, lm_transform lm, lm_primary lm)
      else find_logical_monitor_info rest conn
  end.

(** The loop "Find current mode" of [parse_monitors_from_state]. *)
Fixpoint find_current_mode_id (ms : list MutterModeInfo) : option string :=
  match ms with
  | [] => None
  | m :: rest => if is_current m then Some (mode_id m) else find_current_mode_id rest
  end.

(** The body of the loop of [parse_monitors_from_state]. *)
Definition parse_monitor (mapping : gmap string GLib.gpointer)
    (logical_monitors : list dbus_logical_monitor) (monitor : dbus_monitor)
    : MutterMonitorInfo :=
  let spec := mon_spec monitor in
  let ms := parse_monitor_modes (mon_modes monitor) in
  let cur := find_current_mode_id ms in
  let '(x, y, sc, tr, prim) :=
    find_logical_monitor_info logical_monitors (ms_connector spec) in
  {| connector := ms_connector spec; vendor := ms_vendor spec;
     product := ms_product spec; serial := ms_serial spec;
     modes := ms;
     current_x := x; current_y := y; current_scale := sc;
     current_transform := tr; is_primary := prim;
     is_enabled := bool_decide (is_Some cur);
     current_mode_id := cur;
     display_id :=
       match GLib.g_hash_table_lookup_extended mapping (ms_connector spec) with
       | Some value => GLib.GPOINTER_TO_INT value
       | None => -1
       end |}.

Definition parse_monitors_from_state (mutter : VDAgentMutterDBus)
    (values : current_state) : list MutterMonitorInfo :=
  map (parse_monitor (connector_mapping mutter) (cs_logical_monitors values))
      (cs_monitors values).

(** *** Mode selection: [find_mode_for_resolution] *)

(** The first loop of [find_mode_for_resolution], with its two locals
    [best] and [best_refresh]. *)
Fixpoint best_mode_loop (ms : list MutterModeInfo) (w h : Z)
    (best : option MutterModeInfo) (best_refresh : C.gdouble)
    : option MutterModeInfo :=
  match ms with
  | [] => best
  | m :: rest =>
      if (width m =? w) && (height m =? h) then
        if negb (bool_decide (is_Some best)) || C.double_gt (refresh_rate m) best_refresh
        then best_mode_loop rest w h (Some m) (refresh_rate m)
        else best_mode_loop rest w h best best_refresh
      else best_mode_loop rest w h best best_refresh
  end.

(** The mode the first loop settles on. *)
Definition best_mode (info : MutterMonitorInfo) (w h : Z) : option MutterModeInfo :=
  best_mode_loop (modes info) w h None C.double_0.

(** The value returned: [best->mode_id], or [NULL]. *)
Definition find_mode_for_resolution (info : MutterMonitorInfo) (w h : Z)
    : option string :=
  match best_mode info w h with
  | Some best => Some (mode_id best)
  | None => None
  end.

(** *** Apply: [vdagent_mutter_set_monitor_config] *)

(** One [(ssa{sv})] entry and one [(iiduba(ssa{sv}))] entry of the
    argument of [ApplyMonitorsConfig]; the property dictionaries are
    always empty. *)
Record apply_monitor := {
  am_connector : string;
  am_mode_id : string;
}.

Record apply_logical_monitor := {
  alm_x : Z;
  alm_y : Z;
  alm_scale : C.gdouble;
  alm_transform : Z;
  alm_primary : bool;
  alm_monitors : list apply_monitor;
}.

(** The call [ApplyMonitorsConfig (serial, method, logical_monitors, {})]
    together with the timeout handed to [g_dbus_proxy_call_sync]. *)
Record apply_monitors_config := {
  amc_serial : Z;
  amc_method : Z;
  amc_logical_monitors : list apply_logical_monitor;
  amc_timeout_msec : Z;
}.

Definition APPLY_METHOD_TEMPORARY : Z := 1.

(** The inner loop [for (j = 0; j < monitors->len; j++)] that looks for
    the monitor whose [display_id] is [(int) i]. *)
Fixpoint find_mapped_monitor (monitors : list MutterMonitorInfo) (i : Z)
    : option MutterMonitorInfo :=
  match monitors with
  | [] => None
  | info :: rest =>
      if display_id info =? i then Some info else find_mapped_monitor rest i
  end.

(** The target of entry [i]: the mapped monitor, else [monitors[i]]
    when [i < monitors->len], else [NULL]. *)
Definition find_target (monitors : list MutterMonitorInfo) (i : nat)
    : option MutterMonitorInfo :=
  match find_mapped_monitor monitors (C.to_int (Z.of_nat i)) with
  | Some info => Some info
  | None => monitors !! i
  end.

(** The mode id used for a target: the selected one, else the current
    one, else [NULL]. *)
Definition target_mode_id (target : MutterMonitorInfo) (mc : VDAgentMonConfig)
    : option string :=
  match find_mode_for_resolution target (C.to_int (mc_width mc)) (C.to_int (mc_height mc)) with
  | Some id => Some id
  | None => current_mode_id target
  end.

(** One iteration of the loop over [mon_config->monitors]: the logical
    monitor added to the builder, or [None] on either [continue]. *)
Definition configure_monitor (monitors : list MutterMonitorInfo) (i : nat)
    (mc : VDAgentMonConfig) : option apply_logical_monitor :=
  match find_target monitors i with
  | None => None
  | Some target =>
      match target_mode_id target mc with
      | None => None
      | Some id =>
          Some {| alm_x := mc_x mc;
                  alm_y := mc_y mc;
                  alm_scale :=
                    if C.double_gt (current_scale target) C.double_0
                    then current_scale target else C.double_1;
                  alm_transform := current_transform target;
                  alm_primary := bool_decide (i = 0%nat);
                  alm_monitors :=
                    [{| am_connector := connector target; am_mode_id := id |}] |}
      end
  end.

(** The loop [for (i = 0; i < mon_config->num_of_monitors; i++)], from
    index [i] on. *)
Fixpoint configure_monitors (monitors : list MutterMonitorInfo) (i : nat)
    (entries : list VDAgentMonConfig) : list apply_logical_monitor :=
  match entries with
  | [] => []
  | mc :: rest =>
      match configure_monitor monitors i mc with
      | Some lm => lm :: configure_monitors monitors (S i) rest
      | None => configure_monitors monitors (S i) rest
      end
  end.

(** What one call leaves behind: the return value and the
    [ApplyMonitorsConfig] call it made, if it got that far. *)
Record apply_outcome := {
  ret : Z;
  call : option apply_monitors_config;
}.

(** The whole call. [mon_config] is the [monitors] array ([None] for a
    [NULL] pointer), [values] the reply of [GetCurrentState] ([None]
    when that call failed), and [replies c] tells whether
    [g_dbus_proxy_call_sync] returns a result for the call [c] within
    its timeout rather than [NULL] with an error. *)
Definition vdagent_mutter_set_monitor_config (mutter : option VDAgentMutterDBus)
    (mon_config : option (list VDAgentMonConfig)) (values : option current_state)
    (replies : apply_monitors_config → bool) : apply_outcome :=
  match mutter, mon_config with
  | Some mu, Some entries =>
      match dbus_proxy mu, values with
      | Some _, Some v =>
          let monitors := parse_monitors_from_state mu v in
          let c := {| amc_serial := cs_serial v;
                      amc_method := APPLY_METHOD_TEMPORARY;
                      amc_logical_monitors := configure_monitors monitors 0 entries;
                      amc_timeout_msec := 5000 |} in
          {| ret := if replies c then 0 else -1; call := Some c |}
      | _, _ => {| ret := -1; call := None |}
      end
  | _, _ => {| ret := -1; call := None |}
  end.

End Mutter.

(** * Notions used to state the properties *)

(** The records an index-assigning pass yields: the [i]-th record gets
    display id [i]. *)
Definition indexed (res : list vdagentd_guest_xorg_resolution)
    : list vdagentd_guest_xorg_resolution :=
  imap (λ i r, set_display_id r (C.to_int (Z.of_nat i))) res.

(** The largest of [base] and the elements of [l]. *)
Definition max_from (base : Z) (l : list Z) : Z := foldr Z.max base l.

(** [v] is the maximum of the non-empty list [l]. *)
Definition is_max_of (v : Z) (l : list Z) : Prop :=
  v ∈ l ∧ ∀ e, e ∈ l → e ≤ v.

Definition right_edge (r : vdagentd_guest_xorg_resolution) : Z :=
  C.int_add (res_x r) (res_width r).

Definition bottom_edge (r : vdagentd_guest_xorg_resolution) : Z :=
  C.int_add (res_y r) (res_height r).

(** An output of KWin is enabled and ready when it has received its
    [done] event and is enabled. *)
Definition kwin_ready (o : KWin.KWinOutput) : bool :=
  KWin.ko_done o && KWin.ko_enabled o.

Definition kwin_ready_outputs (k : KWin.VDAgentKWin) : list KWin.KWinOutput :=
  List.filter kwin_ready (KWin.outputs k).

(** The record of a mapped output: the identifier is the stored value
    read with [GPOINTER_TO_UINT] and held in an [int]. *)
Definition kwin_mapped_resolution (m : gmap string GLib.gpointer) (o : KWin.KWinOutput)
    : option vdagentd_guest_xorg_resolution :=
  (λ value, set_display_id (KWin.output_resolution o)
              (C.to_int (GLib.GPOINTER_TO_UINT value)))
  <$> KWin.lookup_connector m o.

(** The record of an output the mapping does not know. *)
Definition kwin_unmapped_resolution (m : gmap string GLib.gpointer) (o : KWin.KWinOutput)
    : option vdagentd_guest_xorg_resolution :=
  match KWin.lookup_connector m o with
  | Some _ => None
  | None => Some (KWin.output_resolution o)
  end.

(** A monitor of Mutter is enabled and ready when one of its modes is
    current. The enabled monitors of a state, each with its connector and
    its record before the identifier is resolved. *)
Fixpoint mutter_enabled (logical_monitors : list Mutter.dbus_logical_monitor)
    (curr0 : nat → vdagentd_guest_xorg_resolution)
    (monitors : list Mutter.dbus_monitor)
    : list (string * vdagentd_guest_xorg_resolution) :=
  match monitors with
  | [] => []
  | monitor :: rest =>
      let c := Mutter.ms_connector (Mutter.mon_spec monitor) in
      match Mutter.current_mode (Mutter.mon_modes monitor) with
      | Some m =>
          (c, Mutter.monitor_resolution logical_monitors (curr0 0%nat) c m)
          :: mutter_enabled logical_monitors (curr0 ∘ S) rest
      | None => mutter_enabled logical_monitors (curr0 ∘ S) rest
      end
  end.

Definition mutter_mapped_resolution (m : gmap string GLib.gpointer)
    (cr : string * vdagentd_guest_xorg_resolution)
    : option vdagentd_guest_xorg_resolution :=
  (λ value, set_display_id cr.2 (C.to_int (GLib.GPOINTER_TO_UINT value)))
  <$> GLib.g_hash_table_lookup_extended m cr.1.

(** The record of a monitor whose connector the mapping does not know. *)
Definition mutter_unmapped_resolution (m : gmap string GLib.gpointer)
    (cr : string * vdagentd_guest_xorg_resolution)
    : option vdagentd_guest_xorg_resolution :=
  match GLib.g_hash_table_lookup_extended m cr.1 with
  | Some _ => None
  | None => Some cr.2
  end.

(** ** Identifier resolution, read off the mapping table

    The notions below read the table itself, not through the lookups of
    the two backends. *)

(** The record of an output of KWin under the identifier [id]. *)
Definition kwin_record (o : KWin.KWinOutput) (id : Z) : vdagentd_guest_xorg_resolution :=
  {| res_width := KWin.ko_width o; res_height := KWin.ko_height o;
     res_x := KWin.ko_x o; res_y := KWin.ko_y o; res_display_id := id |}.

(** The identifier the table gives to a connector name: the stored value
    as an unsigned 32-bit number, held in an [int]; none when the table
    does not have the name. *)
Definition mapped_display_id (m : gmap string Z) (name : string) : option Z :=
  match m !! name with
  | Some v => Some (C.to_int (v mod 2 ^ 32))
  | None => None
  end.

(** The record of an output of KWin whose connector name the table has;
    an output without a name has none. *)
Definition kwin_resolved (m : gmap string Z) (o : KWin.KWinOutput)
    : option vdagentd_guest_xorg_resolution :=
  match KWin.ko_name o with
  | Some name => kwin_record o <$> mapped_display_id m name
  | None => None
  end.

(** The same for an enabled monitor of Mutter, given with its connector
    name. *)
Definition mutter_resolved (m : gmap string Z)
    (cr : string * vdagentd_guest_xorg_resolution)
    : option vdagentd_guest_xorg_resolution :=
  set_display_id cr.2 <$> mapped_display_id m cr.1.

(** ** Sample states

    Two outputs side by side, 1920x1080 at (0,0) on "Virtual-1" and
    1280x1024 at (1920,0) on "Virtual-2". *)

Definition sample_mode (handle w h refresh : Z) (cur : bool) : KWin.KWinMode :=
  {| KWin.km_mode := handle; KWin.km_width := w; KWin.km_height := h;
     KWin.km_refresh := refresh; KWin.km_preferred := false;
     KWin.km_current := cur |}.

Definition sample_modes : list KWin.KWinMode :=
  [sample_mode 11 1920 1080 60000 true;
   sample_mode 12 1920 1080 75000 false;
   sample_mode 13 1280 720 60000 false].

Definition sample_output (device : Z) (name : option string) (x y w h : Z)
    (ms : list KWin.KWinMode) (cur : option KWin.KWinMode) (en : bool)
    : KWin.KWinOutput :=
  {| KWin.ko_device := device; KWin.ko_name := name; KWin.ko_uuid := None;
     KWin.ko_x := x; KWin.ko_y := y; KWin.ko_width := w; KWin.ko_height := h;
     KWin.ko_physical_width := 0; KWin.ko_physical_height := 0;
     KWin.ko_transform := 0; KWin.ko_scale := C.double_1;
     KWin.ko_enabled := en; KWin.ko_modes := ms;
     KWin.ko_current_mode := cur; KWin.ko_preferred_mode := None;
     KWin.ko_done := true |}.

Definition sample_outputs : list KWin.KWinOutput :=
  [sample_output 1 (Some "Virtual-1"%string) 0 0 1920 1080 sample_modes
     (Some (sample_mode 11 1920 1080 60000 true)) true;
   sample_output 2 (Some "Virtual-2"%string) 1920 0 1280 1024
     [sample_mode 21 1280 1024 60000 true]
     (Some (sample_mode 21 1280 1024 60000 true)) true].

Definition sample_kwin (m : gmap string GLib.gpointer) (os : list KWin.KWinOutput)
    : KWin.VDAgentKWin :=
  {| KWin.output_management := Some 1; KWin.connector_mapping := m;
     KWin.outputs := os; KWin.output_management_version := 2 |}.

Definition sample_mapping : gmap string GLib.gpointer :=
  <["Virtual-1"%string := 0]> (<["Virtual-2"%string := 1]> ∅).

(** A mapping that numbers the two connectors against their order. *)
Definition crossed_mapping : gmap string GLib.gpointer :=
  <["Virtual-1"%string := 1]> (<["Virtual-2"%string := 0]> ∅).

(** A mapping that knows the second connector only, as display 3. *)
Definition partial_mapping : gmap string GLib.gpointer :=
  <["Virtual-2"%string := 3]> ∅.

(** A mapping that gives both connectors the identifier 0. *)
Definition clashing_mapping : gmap string GLib.gpointer :=
  <["Virtual-1"%string := 0]> (<["Virtual-2"%string := 0]> ∅).

Definition sample_dbus_mode (id : string) (w h : Z) (refresh : C.gdouble)
    (cur : option bool) : Mutter.dbus_mode :=
  {| Mutter.dm_id := id; Mutter.dm_width := w; Mutter.dm_height := h;
     Mutter.dm_refresh_rate := refresh; Mutter.dm_preferred_scale := C.double_1;
     Mutter.dm_supported_scales := [C.double_1];
     Mutter.dm_is_current := cur; Mutter.dm_is_preferred := None |}.

Definition sample_spec (c : string) : Mutter.monitor_spec :=
  {| Mutter.ms_connector := c; Mutter.ms_vendor := "RHT";
     Mutter.ms_product := "QEMU Monitor"; Mutter.ms_serial := "0x00000000" |}.

(** The doubles 60.0 and 75.0. *)
Definition double_60 : C.gdouble := S754_finite false 8444249301319680 (-47).
Definition double_75 : C.gdouble := S754_finite false 5277655813324800 (-46).

Definition sample_dbus_monitor (c : string) (ms : list Mutter.dbus_mode)
    : Mutter.dbus_monitor :=
  {| Mutter.mon_spec := sample_spec c; Mutter.mon_modes := ms |}.

Definition sample_logical (x y : Z) (sc : C.gdouble) (prim : bool) (c : string)
    : Mutter.dbus_logical_monitor :=
  {| Mutter.lm_x := x; Mutter.lm_y := y; Mutter.lm_scale := sc;
     Mutter.lm_transform := 0; Mutter.lm_primary := prim;
     Mutter.lm_monitors := [sample_spec c] |}.

Definition sample_state : Mutter.current_state :=
  {| Mutter.cs_serial := 7;
     Mutter.cs_monitors :=
       [sample_dbus_monitor "Virtual-1"
          [sample_dbus_mode "1920x1080@60" 1920 1080 double_60 (Some true);
           sample_dbus_mode "1920x1080@75" 1920 1080 double_75 None;
           sample_dbus_mode "1280x720@60" 1280 720 double_60 None];
        sample_dbus_monitor "Virtual-2"
          [sample_dbus_mode "1280x1024@60" 1280 1024 double_60 (Some true)]];
     Mutter.cs_logical_monitors :=
       [sample_logical 0 0 C.double_1 false "Virtual-1";
        sample_logical 1920 0 C.double_1 true "Virtual-2"] |}.

Definition sample_mutter (m : gmap string GLib.gpointer) : Mutter.VDAgentMutterDBus :=
  {| Mutter.dbus_proxy := Some 1; Mutter.connector_mapping := m |}.

(** What the uninitialised local [curr] holds in the samples. *)
Definition sample_curr0 (k : nat) : vdagentd_guest_xorg_resolution :=
  {| res_width := 0; res_height := 0; res_x := 0; res_y := 0; res_display_id := 0 |}.

Definition resolution (w h x y id : Z) : vdagentd_guest_xorg_resolution :=
  {| res_width := w; res_height := h; res_x := x; res_y := y; res_display_id := id |}.

(** An output lying wholly to the left of the origin. *)
Definition left_outputs : list KWin.KWinOutput :=
  [sample_output 1 (Some "Virtual-1"%string) (-3000) 0 1920 1080 sample_modes
     (Some (sample_mode 11 1920 1080 60000 true)) true].

(** The sample state with a third, connected monitor that has no current
    mode. *)
Definition state_with_idle_monitor : Mutter.current_state :=
  {| Mutter.cs_serial := 7;
     Mutter.cs_monitors :=
       Mutter.cs_monitors sample_state
       ++ [sample_dbus_monitor "Virtual-3"
             [sample_dbus_mode "1024x768@60" 1024 768 double_60 None]];
     Mutter.cs_logical_monitors := Mutter.cs_logical_monitors sample_state |}.

(** A state whose first monitor is connected but switched off: it has no
    current mode, and lists one mode of 1024x768. The second monitor is
    on and is the primary one. *)
Definition state_with_idle_first : Mutter.current_state :=
  {| Mutter.cs_serial := 7;
     Mutter.cs_monitors :=
       [sample_dbus_monitor "Virtual-1"
          [sample_dbus_mode "1024x768@60" 1024 768 double_60 None];
        sample_dbus_monitor "Virtual-2"
          [sample_dbus_mode "1280x1024@60" 1280 1024 double_60 (Some true)]];
     Mutter.cs_logical_monitors :=
       [sample_logical 0 0 C.double_1 true "Virtual-2"] |}.

(** The connectors and the primary flag of each logical monitor of an
    [ApplyMonitorsConfig] call. *)
Definition call_primaries (c : Mutter.apply_monitors_config)
    : list (list string * bool) :=
  (λ lm, (Mutter.am_connector <$> Mutter.alm_monitors lm, Mutter.alm_primary lm))
  <$> Mutter.amc_logical_monitors c.

(** The identifier, as a [guint], the mapping gives to an output of KWin
    and to an enabled monitor of Mutter. *)
Definition kwin_mapped_id (m : gmap string GLib.gpointer) (o : KWin.KWinOutput)
    : option Z :=
  GLib.GPOINTER_TO_UINT <$> KWin.lookup_connector m o.

Definition mutter_mapped_id (m : gmap string GLib.gpointer)
    (cr : string * vdagentd_guest_xorg_resolution) : option Z :=
  GLib.GPOINTER_TO_UINT <$> GLib.g_hash_table_lookup_extended m cr.1.

(** ** Mode selection *)

(** A mode has exactly the requested size. *)
Definition kwin_mode_matches (w h : Z) (m : KWin.KWinMode) : Prop :=
  KWin.km_width m = w ∧ KWin.km_height m = h.

(** [r], at index [i] of [l], is the mode the selector should return: it
    has the requested size, no mode of that size has a higher refresh
    rate, and every mode of that size before it has a lower one. *)
Definition kwin_best_at (l : list KWin.KWinMode) (w h : Z) (i : nat)
    (r : KWin.KWinMode) : Prop :=
  l !! i = Some r
  ∧ kwin_mode_matches w h r
  ∧ (∀ m, m ∈ l → kwin_mode_matches w h m → KWin.km_refresh m ≤ KWin.km_refresh r)
  ∧ (∀ j m, (j < i)%nat → l !! j = Some m → kwin_mode_matches w h m →
            KWin.km_refresh m < KWin.km_refresh r).

(** What the selector may return for the list [l]. *)
Definition kwin_selected (l : list KWin.KWinMode) (w h : Z)
    (res : option KWin.KWinMode) : Prop :=
  match res with
  | None => ∀ m, m ∈ l → ¬ kwin_mode_matches w h m
  | Some r => ∃ i, kwin_best_at l w h i r
  end.

(** The invariant of the loop of [kwin_find_mode] once the modes [l]
    have been visited. *)
Definition kwin_loop_inv (l : list KWin.KWinMode) (w h : Z)
    (best : option KWin.KWinMode) (best_refresh : Z) : Prop :=
  kwin_selected l w h best
  ∧ ∀ b, best = Some b → best_refresh = KWin.km_refresh b.

Definition mutter_mode_matches (w h : Z) (m : Mutter.MutterModeInfo) : Prop :=
  Mutter.width m = w ∧ Mutter.height m = h.

(** The same for Mutter, whose refresh rates are doubles: no mode of the
    requested size compares greater than [r], and no such mode before
    [r] compares equal to it. *)
Definition mutter_best_at (l : list Mutter.MutterModeInfo) (w h : Z) (i : nat)
    (r : Mutter.MutterModeInfo) : Prop :=
  l !! i = Some r
  ∧ mutter_mode_matches w h r
  ∧ (∀ m, m ∈ l → mutter_mode_matches w h m →
          C.double_gt (Mutter.refresh_rate m) (Mutter.refresh_rate r) = false)
  ∧ (∀ j m, (j < i)%nat → l !! j = Some m → mutter_mode_matches w h m →
            C.double_eq (Mutter.refresh_rate m) (Mutter.refresh_rate r) = false).

Definition mutter_selected (l : list Mutter.MutterModeInfo) (w h : Z)
    (res : option Mutter.MutterModeInfo) : Prop :=
  match res with
  | None => ∀ m, m ∈ l → ¬ mutter_mode_matches w h m
  | Some r => ∃ i, mutter_best_at l w h i r
  end.

Definition mutter_loop_inv (l : list Mutter.MutterModeInfo) (w h : Z)
    (best : option Mutter.MutterModeInfo) (best_refresh : C.gdouble) : Prop :=
  mutter_selected l w h best
  ∧ ∀ b, best = Some b → best_refresh = Mutter.refresh_rate b.

(** The parsed first monitor of the sample state. *)
Definition sample_info : Mutter.MutterMonitorInfo :=
  Mutter.parse_monitor sample_mapping (Mutter.cs_logical_monitors sample_state)
    (sample_dbus_monitor "Virtual-1"
       [sample_dbus_mode "1920x1080@60" 1920 1080 double_60 (Some true);
        sample_dbus_mode "1920x1080@75" 1920 1080 double_75 None;
        sample_dbus_mode "1280x720@60" 1280 720 double_60 None]).

(** ** The bounded wait *)

#[global] Instance config_event_eq_dec : EqDecision KWin.config_event.
Proof. solve_decision. Defined.

(** The first of the round trips [start], ..., [start + n - 1] that
    delivers a configuration event. *)
Fixpoint first_signal (signals : nat → list KWin.config_event) (start n : nat)
    : option nat :=
  match n with
  | O => None
  | S n' =>
      match signals start with
      | [] => first_signal signals (S start) n'
      | _ :: _ => Some start
      end
  end.

(** Round trips are numbered within one apply call: number 0 opens the
    call, numbers 1, 2, ... are those of the wait loop. The compositor
    confirms the configuration at round trip [r] of the wait: the round
    trips of the wait before it deliver nothing, and round trip [r]
    delivers [applied] and not [failed]. Likewise for a rejection, and
    for silence during the first [n] round trips of the wait. *)
Definition confirmed_at (signals : nat → list KWin.config_event) (r : nat) : Prop :=
  (∀ j, (1 ≤ j < r)%nat → signals j = [])
  ∧ KWin.ev_applied ∈ signals r ∧ KWin.ev_failed ∉ signals r.

Definition rejected_at (signals : nat → list KWin.config_event) (r : nat) : Prop :=
  (∀ j, (1 ≤ j < r)%nat → signals j = []) ∧ KWin.ev_failed ∈ signals r.

Definition silent_for (signals : nat → list KWin.config_event) (n : nat) : Prop :=
  ∀ j, (1 ≤ j ≤ n)%nat → signals j = [].

(** Sample compositors: one that confirms at the third round trip of
    the call (the second of the wait), one that rejects at the first
    round trip of the wait, one that never answers. *)
Definition confirms_third (r : nat) : list KWin.config_event :=
  if bool_decide (r = 2%nat) then [KWin.ev_applied] else [].

Definition rejects_first (r : nat) : list KWin.config_event :=
  if bool_decide (r = 1%nat) then [KWin.ev_failed] else [].

(** What an apply call can do between submitting the configuration and
    reading the verdict: a polling iteration is one event-processing
    step followed by a sleep; a blocking call waits inside the call for
    the reply or the timeout. *)
Inductive wait_step :=
| step_poll (sleep_usec : Z)
| step_blocking_call (timeout_msec : Z).

(** The wait of Mutter: it has no loop; the one DBus call it makes blocks
    until the reply or the timeout. *)
Definition mutter_wait_steps (out : Mutter.apply_outcome) : list wait_step :=
  match Mutter.call out with
  | Some c => [step_blocking_call (Mutter.amc_timeout_msec c)]
  | None => []
  end.

(** The number of polling iterations among the steps of a wait. *)
Definition polling_iterations (steps : list wait_step) : nat :=
  length (List.filter (λ s, match s with step_poll _ => true | _ => false end) steps).

Definition never_answers (r : nat) : list KWin.config_event := [].

Definition sample_layout : list VDAgentMonConfig :=
  [{| mc_height := 1080; mc_width := 1920; mc_depth := 32; mc_x := 0; mc_y := 0 |};
   {| mc_height := 720; mc_width := 1280; mc_depth := 32; mc_x := 1920; mc_y := 0 |}].

(** ** Resolving the target of a layout entry *)

(** [o], at index [j] of the outputs, is the first output whose
    connector the mapping sends to the identifier [i]. *)
Definition kwin_first_mapped (k : KWin.VDAgentKWin) (i : nat) (j : nat)
    (o : KWin.KWinOutput) : Prop :=
  KWin.outputs k !! j = Some o
  ∧ kwin_mapped_id (KWin.connector_mapping k) o = Some (Z.of_nat i)
  ∧ ∀ j' o', (j' < j)%nat → KWin.outputs k !! j' = Some o' →
             kwin_mapped_id (KWin.connector_mapping k) o' ≠ Some (Z.of_nat i).

(** The identifier, as an [int], the mapping gives to the connector of a
    parsed monitor of Mutter. *)
Definition mutter_info_mapped_id (m : gmap string GLib.gpointer)
    (info : Mutter.MutterMonitorInfo) : option Z :=
  GLib.GPOINTER_TO_INT <$> GLib.g_hash_table_lookup_extended m (Mutter.connector info).

Definition mutter_first_mapped (m : gmap string GLib.gpointer)
    (monitors : list Mutter.MutterMonitorInfo) (i : nat) (j : nat)
    (info : Mutter.MutterMonitorInfo) : Prop :=
  monitors !! j = Some info
  ∧ mutter_info_mapped_id m info = Some (C.to_int (Z.of_nat i))
  ∧ ∀ j' info', (j' < j)%nat → monitors !! j' = Some info' →
                mutter_info_mapped_id m info' ≠ Some (C.to_int (Z.of_nat i)).

(** A mapping that knows "Virtual-2" only, as display 0. *)
Definition swapped_mapping : gmap string GLib.gpointer :=
  <["Virtual-2"%string := 0]> ∅.

(** ** Sample states for the apply path *)

(** An output that has reported no mode yet. *)
Definition bare_output : KWin.KWinOutput :=
  sample_output 1 (Some "Virtual-1"%string) 0 0 0 0 [] None true.

Definition entry (w h x y : Z) : VDAgentMonConfig :=
  {| mc_height := h; mc_width := w; mc_depth := 32; mc_x := x; mc_y := y |}.

(** A stand-in for [wl_fixed_from_double] in the samples. *)
Definition sample_fixed (d : C.gdouble) : Z := 256.

(** The sample state with a logical monitor that reports scale 0. *)
Definition zero_scale_state : Mutter.current_state :=
  {| Mutter.cs_serial := 7;
     Mutter.cs_monitors := Mutter.cs_monitors sample_state;
     Mutter.cs_logical_monitors :=
       [sample_logical 0 0 C.double_0 false "Virtual-1";
        sample_logical 1920 0 C.double_1 true "Virtual-2"] |}.

(** ** Further notions: the discovery result as a whole *)

(** The size and position of a record, without its identifier. *)
Definition geometry (r : vdagentd_guest_xorg_resolution) : Z * Z * Z * Z :=
  (res_width r, res_height r, res_x r, res_y r).

(** ** Further notions: the apply call of KWin *)

(** [vdagent_kwin_is_available]: [kwin && kwin->output_management != NULL]. *)
Definition vdagent_kwin_is_available (kwin : option KWin.VDAgentKWin) : bool :=
  match kwin with
  | Some k => bool_decide (is_Some (KWin.output_management k))
  | None => false
  end.

(** The output device a request names; [apply] names none. *)
Definition request_device (r : KWin.request) : option Z :=
  match r with
  | KWin.req_enable d _ | KWin.req_mode d _ | KWin.req_position d _ _
  | KWin.req_scale d _ | KWin.req_transform d _ => Some d
  | KWin.req_apply => None
  end.

Definition is_mode_request (r : KWin.request) : bool :=
  match r with
  | KWin.req_mode _ _ => true
  | _ => false
  end.

(** ** Further notions: logical monitors *)

(** The connectors a logical monitor shows. *)
Definition lm_connectors (lm : Mutter.dbus_logical_monitor) : list string :=
  Mutter.ms_connector <$> Mutter.lm_monitors lm.

(** [lm], at index [j], is the first logical monitor showing the
    connector [c]. *)
Definition first_logical_monitor (lms : list Mutter.dbus_logical_monitor)
    (c : string) (j : nat) (lm : Mutter.dbus_logical_monitor) : Prop :=
  lms !! j = Some lm ∧ c ∈ lm_connectors lm
  ∧ ∀ j' lm', (j' < j)%nat → lms !! j' = Some lm' → c ∉ lm_connectors lm'.

(** ** The registry of KWin: [registry_handle_global] and
    [vdagent_kwin_create] *)

(** A [struct wl_interface]: the two fields the code reads. *)
Record wl_interface := {
  if_name : string;
  if_version : Z;
}.

Definition MIN_OUTPUT_DEVICE_VERSION : Z := 2.
Definition MIN_OUTPUT_MANAGEMENT_VERSION : Z := 2.

(** A pointer returned by libwayland, [0] being [NULL]. *)
Definition non_null (p : Z) : option Z := if p =? 0 then None else Some p.

(** The output [g_new0] and the four assignments of
    [registry_handle_global] make: everything zero or [NULL] but the
    device, an empty mode array, scale 1.0 and [enabled]. *)
Definition new_output (device : Z) : KWin.KWinOutput :=
  {| KWin.ko_device := device; KWin.ko_name := None; KWin.ko_uuid := None;
     KWin.ko_x := 0; KWin.ko_y := 0; KWin.ko_width := 0; KWin.ko_height := 0;
     KWin.ko_physical_width := 0; KWin.ko_physical_height := 0;
     KWin.ko_transform := 0; KWin.ko_scale := C.double_1;
     KWin.ko_enabled := true; KWin.ko_modes := [];
     KWin.ko_current_mode := None; KWin.ko_preferred_mode := None;
     KWin.ko_done := false |}.

(** What a round trip dispatches while the instance is created: a global
    announced by the registry, the removal of one, or an event of the
    device of the [j]-th output, whose listener callback changes that
    output only. *)
Inductive wl_event :=
| ev_global (name : Z) (interface : string) (version : Z)
| ev_global_remove (name : Z)
| ev_output (j : nat) (callback : KWin.KWinOutput → KWin.KWinOutput).

Section Registry.

(** [kde_output_device_v2_interface] and [kde_output_management_v2_interface]
    of the generated protocol headers, and [wl_registry_bind] of
    libwayland, from the global's name, the interface and the version
    bound to the proxy it returns. *)
Variable kde_output_device_v2_interface : wl_interface.
Variable kde_output_management_v2_interface : wl_interface.
Variable wl_registry_bind : Z → wl_interface → Z → Z.

(** [registry_handle_global]; [version] is a [uint32_t]. *)
Definition registry_handle_global (k : KWin.VDAgentKWin) (name : Z)
    (interface : string) (version : Z) : KWin.VDAgentKWin :=
  if bool_decide (interface = if_name kde_output_device_v2_interface) then
    if version <? MIN_OUTPUT_DEVICE_VERSION then k
    else
      let device :=
        wl_registry_bind name kde_output_device_v2_interface
          (Z.min version (C.to_uint (if_version kde_output_device_v2_interface))) in
      {| KWin.output_management := KWin.output_management k;
         KWin.connector_mapping := KWin.connector_mapping k;
         KWin.outputs := KWin.outputs k ++ [new_output device];
         KWin.output_management_version := KWin.output_management_version k |}
  else if bool_decide (interface = if_name kde_output_management_v2_interface) then
    if version <? MIN_OUTPUT_MANAGEMENT_VERSION then k
    else
      let bound :=
        Z.min version (C.to_uint (if_version kde_output_management_v2_interface)) in
      {| KWin.output_management :=
           non_null (wl_registry_bind name kde_output_management_v2_interface bound);
         KWin.connector_mapping := KWin.connector_mapping k;
         KWin.outputs := KWin.outputs k;
         KWin.output_management_version := bound |}
  else k.

(** The listener run for one event. [registry_handle_global_remove] does
    nothing. *)
Definition dispatch (k : KWin.VDAgentKWin) (e : wl_event) : KWin.VDAgentKWin :=
  match e with
  | ev_global name interface version => registry_handle_global k name interface version
  | ev_global_remove _ => k
  | ev_output j callback =>
      {| KWin.output_management := KWin.output_management k;
         KWin.connector_mapping := KWin.connector_mapping k;
         KWin.outputs := alter callback j (KWin.outputs k);
         KWin.output_management_version := KWin.output_management_version k |}
  end.

(** [wl_display_roundtrip] while the instance is created. *)
Definition roundtrip (events : list wl_event) (k : KWin.VDAgentKWin)
    : KWin.VDAgentKWin :=
  fold_left dispatch events k.

(** [vdagent_kwin_create]. [display] is the result of
    [wl_display_connect]; [round1] and [round2] are what the two round
    trips dispatch. [None] is the [NULL] return. *)
Definition vdagent_kwin_create (connector_mapping : gmap string GLib.gpointer)
    (display : option Z) (round1 round2 : list wl_event)
    : option KWin.VDAgentKWin :=
  match display with
  | None => None
  | Some _ =>
      let k0 := {| KWin.output_management := None;
                   KWin.connector_mapping := connector_mapping;
                   KWin.outputs := [];
                   KWin.output_management_version := 0 |} in
      let k := roundtrip round2 (roundtrip round1 k0) in
      match KWin.output_management k with
      | None => None
      | Some _ => Some k
      end
  end.

(** A global the handler accepts as an output device, and one it accepts
    as the output management. *)
Definition is_device_global (e : wl_event) : bool :=
  match e with
  | ev_global _ interface version =>
      bool_decide (interface = if_name kde_output_device_v2_interface)
      && negb (version <? MIN_OUTPUT_DEVICE_VERSION)
  | _ => false
  end.

Definition is_management_global (e : wl_event) : bool :=
  match e with
  | ev_global _ interface version =>
      negb (bool_decide (interface = if_name kde_output_device_v2_interface))
      && bool_decide (interface = if_name kde_output_management_v2_interface)
      && negb (version <? MIN_OUTPUT_MANAGEMENT_VERSION)
  | _ => false
  end.

End Registry.

(** Sample interfaces and a bind that returns the global's name as
    proxy. *)
Definition sample_device_interface : wl_interface :=
  {| if_name := "kde_output_device_v2"; if_version := 2 |}.

Definition sample_management_interface : wl_interface :=
  {| if_name := "kde_output_management_v2"; if_version := 2 |}.

Definition sample_bind (name : Z) (i : wl_interface) (version : Z) : Z := name.

(** * Properties *)

(** ** C integers *)

Lemma to_int_id z : - 2 ^ 31 ≤ z < 2 ^ 31 → C.to_int z = z.
Proof.
  intros Hz. unfold C.to_int.
  rewrite Z.mod_small by lia. lia.
Qed.

Lemma to_int_to_int z : C.to_int (C.to_int z) = C.to_int z.
Proof.
  apply to_int_id. unfold C.to_int.
  pose proof (Z.mod_pos_bound (z + 2 ^ 31) (2 ^ 32)). lia.
Qed.

Lemma to_int_succ z : C.int_add (C.to_int z) 1 = C.to_int (z + 1).
Proof.
  unfold C.int_add, C.to_int.
  replace ((z + 2 ^ 31) mod 2 ^ 32 - 2 ^ 31 + 1 + 2 ^ 31)
    with ((z + 2 ^ 31) mod 2 ^ 32 + 1) by lia.
  rewrite Zplus_mod_idemp_l. f_equal. f_equal. lia.
Qed.

Lemma to_int_to_uint_small v : 0 ≤ v < 2 ^ 31 → C.to_int (C.to_uint v) = v.
Proof.
  intros Hv. unfold C.to_uint. rewrite Z.mod_small by lia.
  apply to_int_id. lia.
Qed.

Lemma to_int_inj_uint a b :
  0 ≤ a < 2 ^ 32 → 0 ≤ b < 2 ^ 32 → C.to_int a = C.to_int b → a = b.
Proof.
  unfold C.to_int. intros Ha Hb Heq.
  assert (Hm : (a + 2 ^ 31) mod 2 ^ 32 = (b + 2 ^ 31) mod 2 ^ 32) by lia.
  destruct (Z_lt_le_dec a (2 ^ 31)), (Z_lt_le_dec b (2 ^ 31)).
  - rewrite !Z.mod_small in Hm by lia. lia.
  - rewrite (Z.mod_small (a + _)) in Hm by lia.
    replace (b + 2 ^ 31) with ((b - 2 ^ 31) + 1 * 2 ^ 32) in Hm by lia.
    rewrite Z_mod_plus_full, Z.mod_small in Hm by lia. lia.
  - rewrite (Z.mod_small (b + _)) in Hm by lia.
    replace (a + 2 ^ 31) with ((a - 2 ^ 31) + 1 * 2 ^ 32) in Hm by lia.
    rewrite Z_mod_plus_full, Z.mod_small in Hm by lia. lia.
  - replace (b + 2 ^ 31) with ((b - 2 ^ 31) + 1 * 2 ^ 32) in Hm by lia.
    replace (a + 2 ^ 31) with ((a - 2 ^ 31) + 1 * 2 ^ 32) in Hm by lia.
    rewrite !Z_mod_plus_full, !Z.mod_small in Hm by lia. lia.
Qed.

Lemma to_uint_range z : 0 ≤ C.to_uint z < 2 ^ 32.
Proof. unfold C.to_uint. apply Z.mod_pos_bound. lia. Qed.

(** ** The two passes shared by the backends *)

Lemma assign_monitor_index_imap i res :
  assign_monitor_index i res
  = imap (λ j r, set_display_id r (C.to_int (Z.of_nat (i + j)))) res.
Proof.
  revert i. induction res as [|r res IH]; intros i; simpl; [done|].
  rewrite Nat.add_0_r. f_equal. rewrite IH.
  apply imap_ext. intros j x _. simpl. do 3 f_equal. lia.
Qed.

Lemma assign_monitor_index_indexed res :
  assign_monitor_index 0 res = indexed res.
Proof. apply assign_monitor_index_imap. Qed.

Lemma max_from_absorb b e l :
  max_from (Z.max b e) l = Z.max e (max_from b l).
Proof.
  unfold max_from. induction l as [|x l IH]; simpl; [lia|]. rewrite IH. lia.
Qed.

Lemma grow_bound_max b x w : grow_bound b x w = Z.max b (C.int_add x w).
Proof. unfold grow_bound. case_match; lia. Qed.

Lemma fold_grow_bound (A : Type) (f : A → Z) (l : list A) (b : Z) :
  fold_left (λ acc a, Z.max acc (f a)) l b = max_from b (map f l).
Proof.
  revert b. induction l as [|a l IH]; intros b; simpl; [done|].
  rewrite IH. apply max_from_absorb.
Qed.

Lemma max_from_ge_base b l : b ≤ max_from b l.
Proof. unfold max_from. induction l; simpl; lia. Qed.

Lemma max_from_ge_elem b l e : e ∈ l → e ≤ max_from b l.
Proof.
  unfold max_from. induction 1; simpl; lia.
Qed.

Lemma max_from_attained b l : max_from b l = b ∨ max_from b l ∈ l.
Proof.
  unfold max_from. induction l as [|x l IH]; simpl; [by left|].
  destruct (Z.max_spec x (foldr Z.max b l)) as [[_ ->]|[_ ->]].
  - destruct IH as [->|IH]; [by left|right; by constructor].
  - right. constructor.
Qed.

(** ** Discovery in the KWin backend *)

Lemma iter_shift (A : Type) (f : A → A) (n : nat) (x : A) :
  f (Nat.iter n f x) = Nat.iter n f (f x).
Proof. induction n as [|n IH]; simpl; [done|]. by rewrite IH. Qed.

Lemma kwin_scan_output_skip m st o :
  kwin_ready o = false → KWin.scan_output m st o = st.
Proof.
  unfold kwin_ready, KWin.scan_output. intros H.
  destruct (KWin.ko_done o), (KWin.ko_enabled o); simpl in *; congruence.
Qed.

Lemma kwin_scan_output_ready m st o :
  kwin_ready o = true →
  KWin.scan_output m st o =
  {| KWin.res_array :=
       KWin.res_array st ++ from_option (λ r, [r]) [] (kwin_mapped_resolution m o);
     KWin.not_found_array :=
       KWin.not_found_array st ++ from_option (λ r, [r]) [] (kwin_unmapped_resolution m o);
     KWin.width := Z.max (KWin.width st) (right_edge (KWin.output_resolution o));
     KWin.height := Z.max (KWin.height st) (bottom_edge (KWin.output_resolution o));
     KWin.screen_count := C.int_add (KWin.screen_count st) 1 |}.
Proof.
  unfold kwin_ready, KWin.scan_output, kwin_mapped_resolution, kwin_unmapped_resolution.
  intros H. destruct (KWin.ko_done o), (KWin.ko_enabled o); simpl in *; try congruence.
  rewrite !grow_bound_max.
  destruct (KWin.lookup_connector m o); simpl; rewrite ?app_nil_r; reflexivity.
Qed.

Lemma kwin_scan_outputs_spec m os st :
  KWin.scan_outputs m os st =
  let ready := List.filter kwin_ready os in
  {| KWin.res_array := KWin.res_array st ++ omap (kwin_mapped_resolution m) ready;
     KWin.not_found_array :=
       KWin.not_found_array st ++ omap (kwin_unmapped_resolution m) ready;
     KWin.width :=
       max_from (KWin.width st) (map (right_edge ∘ KWin.output_resolution) ready);
     KWin.height :=
       max_from (KWin.height st) (map (bottom_edge ∘ KWin.output_resolution) ready);
     KWin.screen_count :=
       Nat.iter (length ready) (λ n, C.int_add n 1) (KWin.screen_count st) |}.
Proof.
  unfold KWin.scan_outputs. revert st.
  induction os as [|o os IH]; intros st; simpl.
  - rewrite !app_nil_r. by destruct st.
  - destruct (kwin_ready o) eqn:Hr.
    + rewrite IH, kwin_scan_output_ready by done. simpl.
      rewrite !max_from_absorb. rewrite <- !app_assoc.
      f_equal.
      * f_equal. by destruct (kwin_mapped_resolution m o).
      * f_equal. by destruct (kwin_unmapped_resolution m o).
      * symmetry. apply (iter_shift _ (λ z, C.int_add z 1)).
    + by rewrite kwin_scan_output_skip.
Qed.

Lemma iter_int_succ n c :
  Nat.iter n (λ z, C.int_add z 1) (C.to_int c) = C.to_int (c + Z.of_nat n).
Proof.
  induction n as [|n IH]; simpl.
  - f_equal. lia.
  - rewrite IH, to_int_succ. f_equal. lia.
Qed.

Lemma kwin_no_mapped_all_unmapped m (os : list KWin.KWinOutput) :
  omap (kwin_mapped_resolution m) os = [] →
  omap (kwin_unmapped_resolution m) os = map KWin.output_resolution os.
Proof.
  induction os as [|o os IH]; simpl; [done|].
  unfold kwin_mapped_resolution at 1, kwin_unmapped_resolution at 1.
  destruct (KWin.lookup_connector m o); simpl; [done|].
  intros H. f_equal. by apply IH.
Qed.

(** The result of a discovery call of KWin, in closed form. *)
Lemma kwin_get_resolutions_spec k h :
  KWin.output_management k = Some h →
  KWin.vdagent_kwin_get_resolutions (Some k) =
  let ready := kwin_ready_outputs k in
  let mapped := omap (kwin_mapped_resolution (KWin.connector_mapping k)) ready in
  Some (match mapped with
        | [] => indexed (map KWin.output_resolution ready)
        | _ :: _ => mapped
        end,
        max_from 0 (map (right_edge ∘ KWin.output_resolution) ready),
        max_from 0 (map (bottom_edge ∘ KWin.output_resolution) ready),
        C.to_int (Z.of_nat (length ready))).
Proof.
  intros Hm. unfold KWin.vdagent_kwin_get_resolutions. rewrite Hm.
  rewrite kwin_scan_outputs_spec. cbn [KWin.res_array KWin.not_found_array
    KWin.width KWin.height KWin.screen_count app].
  fold (kwin_ready_outputs k).
  change 0 with (C.to_int 0) at 3. rewrite iter_int_succ. simpl (0 + _).
  destruct (omap _ (kwin_ready_outputs k)) eqn:Hmapped; [|done].
  by rewrite kwin_no_mapped_all_unmapped, assign_monitor_index_indexed.
Qed.

(** ** Discovery in the Mutter backend *)

Lemma right_edge_set_display_id r id : right_edge (set_display_id r id) = right_edge r.
Proof. reflexivity. Qed.

Lemma mutter_scan_monitors_spec mapping lms curr0 mons st :
  Mutter.scan_monitors mapping lms curr0 mons st =
  let en := mutter_enabled lms curr0 mons in
  {| Mutter.res_array :=
       Mutter.res_array st ++ omap (mutter_mapped_resolution mapping) en;
     Mutter.not_found_array :=
       Mutter.not_found_array st ++ omap (mutter_unmapped_resolution mapping) en;
     Mutter.desktop_width := max_from (Mutter.desktop_width st) (map (right_edge ∘ snd) en);
     Mutter.desktop_height := max_from (Mutter.desktop_height st) (map (bottom_edge ∘ snd) en) |}.
Proof.
  revert curr0 st. induction mons as [|mon mons IH]; intros curr0 st; simpl.
  - rewrite !app_nil_r. by destruct st.
  - rewrite IH. unfold Mutter.scan_monitor.
    destruct (Mutter.current_mode (Mutter.mon_modes mon)) as [cm|]; [|done].
    rewrite !grow_bound_max. simpl.
    unfold mutter_mapped_resolution at 2, mutter_unmapped_resolution at 2. simpl.
    destruct (GLib.g_hash_table_lookup_extended mapping _); simpl;
      rewrite !max_from_absorb, <- ?app_assoc; reflexivity.
Qed.

Lemma mutter_no_mapped_all_unmapped m
    (en : list (string * vdagentd_guest_xorg_resolution)) :
  omap (mutter_mapped_resolution m) en = [] →
  omap (mutter_unmapped_resolution m) en = map snd en.
Proof.
  induction en as [|cr en IH]; simpl; [done|].
  unfold mutter_mapped_resolution at 1, mutter_unmapped_resolution at 1.
  destruct (GLib.g_hash_table_lookup_extended m cr.1); simpl; [done|].
  intros H. f_equal. by apply IH.
Qed.

(** The result of a discovery call of Mutter, in closed form. *)
Lemma mutter_get_resolutions_spec mu v curr0 w0 h0 :
  Mutter.vdagent_mutter_get_resolutions (Some mu) (Some v) curr0 w0 h0 =
  let en := mutter_enabled (Mutter.cs_logical_monitors v) curr0 (Mutter.cs_monitors v) in
  let mapped := omap (mutter_mapped_resolution (Mutter.connector_mapping mu)) en in
  Some (match mapped with
        | [] => indexed (map snd en)
        | _ :: _ => mapped
        end,
        max_from w0 (map (right_edge ∘ snd) en),
        max_from h0 (map (bottom_edge ∘ snd) en),
        C.to_int (Z.of_nat (length (Mutter.cs_monitors v)))).
Proof.
  unfold Mutter.vdagent_mutter_get_resolutions.
  rewrite mutter_scan_monitors_spec.
  cbn [Mutter.res_array Mutter.not_found_array Mutter.desktop_width
       Mutter.desktop_height app].
  destruct (omap _ (mutter_enabled _ _ _)) eqn:Hmapped; [|done].
  by rewrite mutter_no_mapped_all_unmapped, assign_monitor_index_indexed.
Qed.

(** ** Identifier resolution *)

Lemma omap_nil_iff {A B : Type} (f : A → option B) (l : list A) :
  omap f l = [] ↔ ∀ x, x ∈ l → f x = None.
Proof.
  induction l as [|a l IH]; simpl.
  - split; [|done]. intros _ x Hx. by apply elem_of_nil in Hx.
  - destruct (f a) eqn:Hfa.
    + split; [done|]. intros H. specialize (H a (list_elem_of_here _ _)). congruence.
    + rewrite IH. split.
      * intros H x Hx. apply elem_of_cons in Hx as [->|Hx]; auto.
      * intros H x Hx. apply H. by apply list_elem_of_further.
Qed.

Lemma omap_cons_of_some {A B : Type} (f : A → option B) (l : list A) :
  (∃ x, x ∈ l ∧ is_Some (f x)) → omap f l ≠ [].
Proof.
  intros (x & Hx & [y Hy]) Hnil.
  rewrite omap_nil_iff in Hnil. specialize (Hnil x Hx). congruence.
Qed.

Lemma kwin_mapped_resolution_resolved m o :
  kwin_mapped_resolution m o = kwin_resolved m o.
Proof.
  unfold kwin_mapped_resolution, kwin_resolved, KWin.lookup_connector,
    mapped_display_id, GLib.g_hash_table_lookup_extended.
  unfold GLib.gpointer, GLib.GPOINTER_TO_UINT, C.to_uint in *.
  destruct (KWin.ko_name o) as [name|]; [|reflexivity].
  destruct (m !! name); reflexivity.
Qed.

Lemma mutter_mapped_resolution_resolved m cr :
  mutter_mapped_resolution m cr = mutter_resolved m cr.
Proof.
  unfold mutter_mapped_resolution, mutter_resolved, mapped_display_id,
    GLib.g_hash_table_lookup_extended.
  unfold GLib.gpointer, GLib.GPOINTER_TO_UINT, C.to_uint in *.
  destruct (m !! cr.1); reflexivity.
Qed.

Lemma omap_ext_all {A B : Type} (f g : A → option B) (l : list A) :
  (∀ x, f x = g x) → omap f l = omap g l.
Proof.
  intros Hfg. induction l as [|a l IH]; simpl; [done|].
  rewrite Hfg. destruct (g a); [f_equal|]; apply IH.
Qed.

Lemma indexed_kwin_records (os : list KWin.KWinOutput) :
  indexed (map KWin.output_resolution os)
  = imap (λ i o, kwin_record o (C.to_int (Z.of_nat i))) os.
Proof. unfold indexed. by rewrite imap_fmap. Qed.

Lemma indexed_mutter_records (en : list (string * vdagentd_guest_xorg_resolution)) :
  indexed (map snd en)
  = imap (λ i cr, set_display_id cr.2 (C.to_int (Z.of_nat i))) en.
Proof. unfold indexed. by rewrite imap_fmap. Qed.

(** C1. A discovery call on an available backend returns, when at least
    one enabled, ready output has a connector name that the mapping table
    has, exactly the outputs with such a name, in discovery order, each
    with its size and position and with the identifier the table stores
    for its name; the others are dropped. When no enabled, ready output
    has a connector name in the table, it returns all enabled, ready
    outputs in discovery order, the [i]-th with identifier [i]. The
    identifier stored for a name is the table's value itself when that
    value is below 2^31. This holds for KWin and for Mutter. *)
Theorem get_resolutions_mapped_or_indexed :
  (∀ k h, KWin.output_management k = Some h →
     let m := KWin.connector_mapping k in
     let ready := kwin_ready_outputs k in
     ∃ res w ht n,
       KWin.vdagent_kwin_get_resolutions (Some k) = Some (res, w, ht, n)
       ∧ ((∃ o name v, o ∈ ready ∧ KWin.ko_name o = Some name ∧ m !! name = Some v) →
          res = omap (kwin_resolved m) ready)
       ∧ ((∀ o name, o ∈ ready → KWin.ko_name o = Some name → m !! name = None) →
          res = imap (λ i o, kwin_record o (C.to_int (Z.of_nat i))) ready))
  ∧
  (∀ mu v curr0 w0 h0,
     let m := Mutter.connector_mapping mu in
     let en := mutter_enabled (Mutter.cs_logical_monitors v) curr0 (Mutter.cs_monitors v) in
     ∃ res w ht n,
       Mutter.vdagent_mutter_get_resolutions (Some mu) (Some v) curr0 w0 h0
       = Some (res, w, ht, n)
       ∧ ((∃ cr id, cr ∈ en ∧ m !! cr.1 = Some id) →
          res = omap (mutter_resolved m) en)
       ∧ ((∀ cr, cr ∈ en → m !! cr.1 = None) →
          res = imap (λ i cr, set_display_id cr.2 (C.to_int (Z.of_nat i))) en))
  ∧
  (∀ (m : gmap string Z) name v,
     m !! name = Some v → 0 ≤ v < 2 ^ 31 → mapped_display_id m name = Some v).
Proof.
  split; [|split].
  - intros k h Hm m ready. rewrite (kwin_get_resolutions_spec k h Hm). cbv zeta.
    rewrite (omap_ext_all _ _ _ (kwin_mapped_resolution_resolved _)).
    rewrite indexed_kwin_records. fold m ready.
    eexists _, _, _, _. split; [reflexivity|]. split.
    + intros (o & name & v & Ho & Hname & Hv).
      assert (Hne : omap (kwin_resolved m) ready ≠ []).
      { apply omap_cons_of_some. exists o. split; [done|].
        unfold kwin_resolved, mapped_display_id. rewrite Hname.
        unfold GLib.gpointer in *. rewrite Hv. by eexists. }
      by destruct (omap _ ready).
    + intros Hnone.
      assert (Hnil : omap (kwin_resolved m) ready = []).
      { apply omap_nil_iff. intros o Ho. unfold kwin_resolved, mapped_display_id.
        destruct (KWin.ko_name o) as [name|] eqn:Hname; [|done].
        pose proof (Hnone o name Ho Hname) as Hno.
        unfold GLib.gpointer in *. by rewrite Hno. }
      by rewrite Hnil.
  - intros mu v curr0 w0 h0 m en. rewrite mutter_get_resolutions_spec. cbv zeta.
    rewrite (omap_ext_all _ _ _ (mutter_mapped_resolution_resolved _)).
    rewrite indexed_mutter_records. fold m en.
    eexists _, _, _, _. split; [reflexivity|]. split.
    + intros (cr & id & Hcr & Hid).
      assert (Hne : omap (mutter_resolved m) en ≠ []).
      { apply omap_cons_of_some. exists cr. split; [done|].
        unfold mutter_resolved, mapped_display_id.
        unfold GLib.gpointer in *. rewrite Hid. by eexists. }
      by destruct (omap _ en).
    + intros Hnone.
      assert (Hnil : omap (mutter_resolved m) en = []).
      { apply omap_nil_iff. intros cr Hcr. unfold mutter_resolved, mapped_display_id.
        pose proof (Hnone cr Hcr) as Hno.
        unfold GLib.gpointer in *. by rewrite Hno. }
      by rewrite Hnil.
  - intros m name v Hv Hrange. unfold mapped_display_id. rewrite Hv. f_equal.
    rewrite Z.mod_small by lia. apply to_int_id. lia.
Qed.

(** The two sample outputs in both backends: under a mapping that numbers
    them against their order, the records carry the identifiers 1 and 0
    of the table; under a mapping that knows the second connector only,
    as display 3, the first output is dropped; under an empty mapping
    the identifiers are the positions 0 and 1. *)
Lemma get_resolutions_mapped_or_indexed_witness :
  KWin.output_management (sample_kwin crossed_mapping sample_outputs) = Some 1
  ∧ (∃ res w ht n,
       KWin.vdagent_kwin_get_resolutions (Some (sample_kwin crossed_mapping sample_outputs))
       = Some (res, w, ht, n)
       ∧ res = [resolution 1920 1080 0 0 1; resolution 1280 1024 1920 0 0])
  ∧ (∃ res w ht n,
       KWin.vdagent_kwin_get_resolutions (Some (sample_kwin partial_mapping sample_outputs))
       = Some (res, w, ht, n)
       ∧ res = [resolution 1280 1024 1920 0 3])
  ∧ (∃ res w ht n,
       KWin.vdagent_kwin_get_resolutions (Some (sample_kwin ∅ sample_outputs))
       = Some (res, w, ht, n)
       ∧ res = [resolution 1920 1080 0 0 0; resolution 1280 1024 1920 0 1])
  ∧ (∃ res w ht n,
       Mutter.vdagent_mutter_get_resolutions (Some (sample_mutter crossed_mapping))
         (Some sample_state) sample_curr0 0 0
       = Some (res, w, ht, n)
       ∧ res = [resolution 1920 1080 0 0 1; resolution 1280 1024 1920 0 0])
  ∧ (∃ res w ht n,
       Mutter.vdagent_mutter_get_resolutions (Some (sample_mutter partial_mapping))
         (Some sample_state) sample_curr0 0 0
       = Some (res, w, ht, n)
       ∧ res = [resolution 1280 1024 1920 0 3])
  ∧ (∃ res w ht n,
       Mutter.vdagent_mutter_get_resolutions (Some (sample_mutter ∅))
         (Some sample_state) sample_curr0 0 0
       = Some (res, w, ht, n)
       ∧ res = [resolution 1920 1080 0 0 0; resolution 1280 1024 1920 0 1])
  ∧ mapped_display_id partial_mapping "Virtual-2" = Some 3.
Proof.
  split; [reflexivity|]. repeat apply conj.
  - destruct (proj1 get_resolutions_mapped_or_indexed
                (sample_kwin crossed_mapping sample_outputs) 1 eq_refl)
      as (res & w & ht & n & Heq & Hmapped & _).
    exists res, w, ht, n. split; [exact Heq|].
    rewrite Hmapped; [vm_compute; reflexivity|].
    eexists _, "Virtual-1"%string, 1. split; [apply list_elem_of_here|].
    split; reflexivity.
  - destruct (proj1 get_resolutions_mapped_or_indexed
                (sample_kwin partial_mapping sample_outputs) 1 eq_refl)
      as (res & w & ht & n & Heq & Hmapped & _).
    exists res, w, ht, n. split; [exact Heq|].
    rewrite Hmapped; [vm_compute; reflexivity|].
    eexists _, "Virtual-2"%string, 3.
    split; [apply list_elem_of_further, list_elem_of_here|]. split; reflexivity.
  - destruct (proj1 get_resolutions_mapped_or_indexed
                (sample_kwin ∅ sample_outputs) 1 eq_refl)
      as (res & w & ht & n & Heq & _ & Hindexed).
    exists res, w, ht, n. split; [exact Heq|].
    rewrite Hindexed; [vm_compute; reflexivity|].
    intros o name _ _. apply lookup_empty.
  - destruct (proj1 (proj2 get_resolutions_mapped_or_indexed)
                (sample_mutter crossed_mapping) sample_state sample_curr0 0 0)
      as (res & w & ht & n & Heq & Hmapped & _).
    exists res, w, ht, n. split; [exact Heq|].
    rewrite Hmapped; [vm_compute; reflexivity|].
    eexists _, 1. split; [apply list_elem_of_here|]. reflexivity.
  - destruct (proj1 (proj2 get_resolutions_mapped_or_indexed)
                (sample_mutter partial_mapping) sample_state sample_curr0 0 0)
      as (res & w & ht & n & Heq & Hmapped & _).
    exists res, w, ht, n. split; [exact Heq|].
    rewrite Hmapped; [vm_compute; reflexivity|].
    eexists _, 3. split; [apply list_elem_of_further, list_elem_of_here|]. reflexivity.
  - destruct (proj1 (proj2 get_resolutions_mapped_or_indexed)
                (sample_mutter ∅) sample_state sample_curr0 0 0)
      as (res & w & ht & n & Heq & _ & Hindexed).
    exists res, w, ht, n. split; [exact Heq|].
    rewrite Hindexed; [vm_compute; reflexivity|].
    intros cr Hcr. apply lookup_empty.
  - apply (proj2 (proj2 get_resolutions_mapped_or_indexed) partial_mapping
             "Virtual-2"%string 3); [reflexivity|lia].
Defined.

(** ** Desktop bounds and screen count *)

(** C2, as stated, fails. In KWin an output wholly left of the origin has
    right edge -1080, yet the width returned is 0, which is the edge of no
    output. *)
Lemma desktop_bounds_counterexample :
  KWin.vdagent_kwin_get_resolutions (Some (sample_kwin ∅ left_outputs))
  = Some ([resolution 1920 1080 (-3000) 0 0], 0, 1080, 1)
  ∧ map (right_edge ∘ KWin.output_resolution)
        (kwin_ready_outputs (sample_kwin ∅ left_outputs)) = [-1080]
  ∧ ¬ is_max_of 0 [-1080].
Proof.
  repeat split; try (vm_compute; reflexivity).
  intros [Hin _]. apply list_elem_of_singleton in Hin. lia.
Qed.

(** C2, amended. The desktop width returned by a successful discovery
    call is the largest of 0 and the right edges [x + width] of all
    enabled, ready outputs, mapped or not, and likewise the height with
    the bottom edges [y + height]: the bounds are never negative, and are
    (0, 0) when no output is enabled and ready. This is what KWin
    returns, and what Mutter returns when it is entered with 0 in the
    width and the height. For the two sample outputs the bounds are
    (3200, 1080). *)
Theorem desktop_bounds_from_start :
  (∀ k h, KWin.output_management k = Some h →
     let ready := map KWin.output_resolution (kwin_ready_outputs k) in
     ∃ res w ht n,
       KWin.vdagent_kwin_get_resolutions (Some k) = Some (res, w, ht, n)
       ∧ w = max_from 0 (map right_edge ready)
       ∧ ht = max_from 0 (map bottom_edge ready)
       ∧ 0 ≤ w ∧ 0 ≤ ht
       ∧ (ready = [] → w = 0 ∧ ht = 0))
  ∧
  (∀ mu v curr0,
     let en := map snd (mutter_enabled (Mutter.cs_logical_monitors v) curr0
                          (Mutter.cs_monitors v)) in
     ∃ res w ht n,
       Mutter.vdagent_mutter_get_resolutions (Some mu) (Some v) curr0 0 0
       = Some (res, w, ht, n)
       ∧ w = max_from 0 (map right_edge en)
       ∧ ht = max_from 0 (map bottom_edge en)
       ∧ 0 ≤ w ∧ 0 ≤ ht
       ∧ (en = [] → w = 0 ∧ ht = 0))
  ∧
  (∀ m, ∃ res n,
     KWin.vdagent_kwin_get_resolutions (Some (sample_kwin m sample_outputs))
     = Some (res, 3200, 1080, n))
  ∧
  (∀ m, ∃ res n,
     Mutter.vdagent_mutter_get_resolutions (Some (sample_mutter m)) (Some sample_state)
       sample_curr0 0 0
     = Some (res, 3200, 1080, n)).
Proof.
  split; [|split; [|split]].
  - intros k h Hm ready. rewrite (kwin_get_resolutions_spec k h Hm). cbv zeta.
    subst ready. rewrite <- !list_fmap_compose.
    eexists _, _, _, _. split; [reflexivity|]. split; [done|]. split; [done|].
    split; [apply max_from_ge_base|]. split; [apply max_from_ge_base|].
    intros Hnil. apply fmap_nil_inv in Hnil. by rewrite Hnil.
  - intros mu v curr0 en. rewrite mutter_get_resolutions_spec. cbv zeta.
    subst en. rewrite <- !list_fmap_compose.
    eexists _, _, _, _. split; [reflexivity|]. split; [done|]. split; [done|].
    split; [apply max_from_ge_base|]. split; [apply max_from_ge_base|].
    intros Hnil. apply fmap_nil_inv in Hnil. by rewrite Hnil.
  - intros m.
    rewrite (kwin_get_resolutions_spec (sample_kwin m sample_outputs) 1 eq_refl).
    cbv zeta.
    eexists _, _. reflexivity.
  - intros m. rewrite mutter_get_resolutions_spec. cbv zeta.
    eexists _, _. reflexivity.
Qed.

(** The bounds of the two sample outputs in KWin, and of an instance of
    KWin with no output at all. *)
Lemma desktop_bounds_from_start_witness :
  KWin.output_management (sample_kwin sample_mapping sample_outputs) = Some 1
  ∧ (∃ res n,
       KWin.vdagent_kwin_get_resolutions (Some (sample_kwin sample_mapping sample_outputs))
       = Some (res, 3200, 1080, n))
  ∧ (∃ res n,
       KWin.vdagent_kwin_get_resolutions (Some (sample_kwin sample_mapping []))
       = Some (res, 0, 0, n)).
Proof.
  split; [reflexivity|]. split.
  - destruct (proj1 desktop_bounds_from_start
                (sample_kwin sample_mapping sample_outputs) 1 eq_refl)
      as (res & w & ht & n & Heq & -> & -> & _).
    exists res, n. rewrite Heq. vm_compute. reflexivity.
  - destruct (proj1 desktop_bounds_from_start
                (sample_kwin sample_mapping []) 1 eq_refl)
      as (res & w & ht & n & Heq & _ & _ & _ & _ & Hempty).
    destruct (Hempty eq_refl) as [-> ->].
    exists res, n. exact Heq.
Defined.

(** What [max_from] denotes: an upper bound of the starting value and of
    every element that is itself the starting value or an element. *)
Lemma max_from_spec b l :
  b ≤ max_from b l ∧ (∀ e, e ∈ l → e ≤ max_from b l)
  ∧ (max_from b l = b ∨ max_from b l ∈ l).
Proof.
  split; [apply max_from_ge_base|]. split; [|apply max_from_attained].
  intros e. apply max_from_ge_elem.
Qed.

(** C8, as stated, fails for Mutter: with a third monitor that is
    connected but has no current mode, the count returned is 3 while two
    monitors are enabled. *)
Lemma screen_count_counterexample :
  Mutter.vdagent_mutter_get_resolutions (Some (sample_mutter sample_mapping))
    (Some state_with_idle_monitor) sample_curr0 0 0
  = Some ([resolution 1920 1080 0 0 0; resolution 1280 1024 1920 0 1], 3200, 1080, 3)
  ∧ length (mutter_enabled (Mutter.cs_logical_monitors state_with_idle_monitor)
              sample_curr0 (Mutter.cs_monitors state_with_idle_monitor)) = 2%nat.
Proof. split; vm_compute; reflexivity. Qed.

(** C8, amended. In KWin the screen count returned by a successful
    discovery call is the number of enabled, ready outputs, counted before
    identifier resolution. In Mutter it is the number of monitors in the
    reply of GetCurrentState, those without a current mode included. *)
Theorem screen_count_value :
  (∀ k h, KWin.output_management k = Some h →
     ∃ res w ht,
       KWin.vdagent_kwin_get_resolutions (Some k)
       = Some (res, w, ht, C.to_int (Z.of_nat (length (kwin_ready_outputs k)))))
  ∧
  (∀ mu v curr0 w0 h0,
     ∃ res w ht,
       Mutter.vdagent_mutter_get_resolutions (Some mu) (Some v) curr0 w0 h0
       = Some (res, w, ht, C.to_int (Z.of_nat (length (Mutter.cs_monitors v))))).
Proof.
  split.
  - intros k h Hm. rewrite (kwin_get_resolutions_spec k h Hm). cbv zeta.
    eexists _, _, _. reflexivity.
  - intros mu v curr0 w0 h0. rewrite mutter_get_resolutions_spec. cbv zeta.
    eexists _, _, _. reflexivity.
Qed.

(** The two sample outputs, unmapped, are counted as two screens. *)
Lemma screen_count_value_witness :
  KWin.output_management (sample_kwin ∅ sample_outputs) = Some 1
  ∧ ∃ res w ht,
      KWin.vdagent_kwin_get_resolutions (Some (sample_kwin ∅ sample_outputs))
      = Some (res, w, ht, 2).
Proof.
  split; [reflexivity|].
  destruct (proj1 screen_count_value (sample_kwin ∅ sample_outputs) 1 eq_refl)
    as (res & w & ht & Heq).
  exists res, w, ht. rewrite Heq. vm_compute. reflexivity.
Defined.

(** ** Uniqueness of the identifiers *)

Lemma indexed_display_ids (l : list vdagentd_guest_xorg_resolution) :
  res_display_id <$> indexed l = (λ i, C.to_int (Z.of_nat i)) <$> seq 0 (length l).
Proof.
  unfold indexed. rewrite fmap_imap. simpl.
  apply (imap_seq_0 l (λ i, C.to_int (Z.of_nat i))).
Qed.

Lemma indexed_NoDup (l : list vdagentd_guest_xorg_resolution) :
  Z.of_nat (length l) ≤ 2 ^ 32 → NoDup (res_display_id <$> indexed l).
Proof.
  intros Hlen. rewrite indexed_display_ids.
  apply NoDup_fmap_2_strong; [|apply NoDup_seq].
  intros i j Hi Hj Heq. apply elem_of_seq in Hi, Hj.
  apply to_int_inj_uint in Heq; lia.
Qed.

Lemma to_int_uint_NoDup (ids : list Z) :
  (∀ x, x ∈ ids → 0 ≤ x < 2 ^ 32) → NoDup (C.to_int <$> ids) ↔ NoDup ids.
Proof.
  intros Hrange. split; [apply NoDup_fmap_1|].
  apply NoDup_fmap_2_strong. intros x y Hx Hy. apply to_int_inj_uint; auto.
Qed.

Lemma kwin_mapped_display_ids m (os : list KWin.KWinOutput) :
  res_display_id <$> omap (kwin_mapped_resolution m) os
  = C.to_int <$> omap (kwin_mapped_id m) os.
Proof.
  induction os as [|o os IH]; [done|].
  cbn [omap list_omap]. unfold kwin_mapped_resolution at 1, kwin_mapped_id at 1.
  destruct (KWin.lookup_connector m o); simpl; [f_equal|]; apply IH.
Qed.

Lemma kwin_mapped_id_range m (os : list KWin.KWinOutput) x :
  x ∈ omap (kwin_mapped_id m) os → 0 ≤ x < 2 ^ 32.
Proof.
  rewrite list_elem_of_omap. intros (o & _ & Hx). unfold kwin_mapped_id in Hx.
  destruct (KWin.lookup_connector m o); simplify_eq/=. apply to_uint_range.
Qed.

Lemma mutter_mapped_display_ids m (en : list (string * vdagentd_guest_xorg_resolution)) :
  res_display_id <$> omap (mutter_mapped_resolution m) en
  = C.to_int <$> omap (mutter_mapped_id m) en.
Proof.
  induction en as [|cr en IH]; [done|].
  cbn [omap list_omap]. unfold mutter_mapped_resolution at 1, mutter_mapped_id at 1.
  destruct (GLib.g_hash_table_lookup_extended m cr.1); simpl; [f_equal|]; apply IH.
Qed.

Lemma mutter_mapped_id_range m (en : list (string * vdagentd_guest_xorg_resolution)) x :
  x ∈ omap (mutter_mapped_id m) en → 0 ≤ x < 2 ^ 32.
Proof.
  rewrite list_elem_of_omap. intros (cr & _ & Hx). unfold mutter_mapped_id in Hx.
  destruct (GLib.g_hash_table_lookup_extended m cr.1); simplify_eq/=.
  apply to_uint_range.
Qed.

Lemma kwin_ready_outputs_length k :
  (length (kwin_ready_outputs k) ≤ length (KWin.outputs k))%nat.
Proof.
  unfold kwin_ready_outputs. induction (KWin.outputs k) as [|o os IH]; simpl; [done|].
  destruct (kwin_ready o); simpl; lia.
Qed.

Lemma mutter_enabled_length lms curr0 mons :
  (length (mutter_enabled lms curr0 mons) ≤ length mons)%nat.
Proof.
  revert curr0. induction mons as [|mon mons IH]; intros curr0; simpl; [done|].
  specialize (IH (curr0 ∘ S)).
  destruct (Mutter.current_mode (Mutter.mon_modes mon)); simpl; lia.
Qed.

(** C9, as stated, fails in the mapped branch: with a mapping that gives
    "Virtual-1" and "Virtual-2" the same identifier 0, both records of
    the result carry display id 0. *)
Lemma display_ids_counterexample :
  KWin.vdagent_kwin_get_resolutions (Some (sample_kwin clashing_mapping sample_outputs))
  = Some ([resolution 1920 1080 0 0 0; resolution 1280 1024 1920 0 0], 3200, 1080, 2)
  ∧ ¬ NoDup (res_display_id <$> [resolution 1920 1080 0 0 0; resolution 1280 1024 1920 0 0]).
Proof.
  split; [vm_compute; reflexivity|].
  intros Hnd. apply NoDup_cons in Hnd as [Hnotin _]. apply Hnotin. constructor.
Qed.

(** C9, amended. In the fallback branch the display ids of a discovery
    result are pairwise distinct. In the mapped branch they are pairwise
    distinct exactly when the mapping gives pairwise distinct identifiers
    to the mapped enabled, ready outputs: the code takes the identifiers
    from the mapping as they are. Both for KWin and for Mutter, whose
    arrays hold fewer than 2^32 elements. *)
Theorem display_ids_distinct :
  (∀ k h res w ht n,
     KWin.output_management k = Some h →
     Z.of_nat (length (KWin.outputs k)) < 2 ^ 32 →
     KWin.vdagent_kwin_get_resolutions (Some k) = Some (res, w, ht, n) →
     ((∀ o, o ∈ kwin_ready_outputs k →
            KWin.lookup_connector (KWin.connector_mapping k) o = None) →
      NoDup (res_display_id <$> res))
     ∧ (NoDup (res_display_id <$> res)
        ↔ NoDup (omap (kwin_mapped_id (KWin.connector_mapping k)) (kwin_ready_outputs k))))
  ∧
  (∀ mu v curr0 w0 h0 res w ht n,
     Z.of_nat (length (Mutter.cs_monitors v)) < 2 ^ 32 →
     Mutter.vdagent_mutter_get_resolutions (Some mu) (Some v) curr0 w0 h0
     = Some (res, w, ht, n) →
     let en := mutter_enabled (Mutter.cs_logical_monitors v) curr0 (Mutter.cs_monitors v) in
     ((∀ cr, cr ∈ en → Mutter.connector_mapping mu !! cr.1 = None) →
      NoDup (res_display_id <$> res))
     ∧ (NoDup (res_display_id <$> res)
        ↔ NoDup (omap (mutter_mapped_id (Mutter.connector_mapping mu)) en))).
Proof.
  split.
  - intros k h res w ht n Hm Hlen Hcall.
    rewrite (kwin_get_resolutions_spec k h Hm) in Hcall. cbv zeta in Hcall.
    pose proof (kwin_ready_outputs_length k) as Hle.
    assert (Hidx : NoDup (res_display_id <$>
                     indexed (map KWin.output_resolution (kwin_ready_outputs k)))).
    { apply indexed_NoDup. rewrite length_map. lia. }
    assert (Hiff : NoDup (res_display_id <$> res)
        ↔ NoDup (omap (kwin_mapped_id (KWin.connector_mapping k)) (kwin_ready_outputs k))).
    { pose proof (kwin_mapped_display_ids (KWin.connector_mapping k)
                    (kwin_ready_outputs k)) as Hids.
      pose proof (to_int_uint_NoDup _
                    (kwin_mapped_id_range (KWin.connector_mapping k)
                       (kwin_ready_outputs k))) as Hnd.
      destruct (omap (kwin_mapped_resolution _) (kwin_ready_outputs k)) as [|r rs] eqn:Hmapped.
      - simplify_eq. symmetry in Hids. apply fmap_nil_inv in Hids. rewrite Hids.
        split; [intros _; constructor|done].
      - simplify_eq. rewrite Hids. exact Hnd. }
    split; [|exact Hiff].
    intros Hnone. apply Hiff.
    replace (omap _ (kwin_ready_outputs k)) with (@nil Z); [constructor|].
    symmetry. apply omap_nil_iff. intros o Ho. unfold kwin_mapped_id.
    by rewrite (Hnone o Ho).
  - intros mu v curr0 w0 h0 res w ht n Hlen Hcall en.
    rewrite mutter_get_resolutions_spec in Hcall. cbv zeta in Hcall. fold en in Hcall.
    pose proof (mutter_enabled_length (Mutter.cs_logical_monitors v) curr0
                  (Mutter.cs_monitors v)) as Hle. fold en in Hle.
    assert (Hidx : NoDup (res_display_id <$> indexed (map snd en))).
    { apply indexed_NoDup. rewrite length_map. lia. }
    assert (Hiff : NoDup (res_display_id <$> res)
        ↔ NoDup (omap (mutter_mapped_id (Mutter.connector_mapping mu)) en)).
    { pose proof (mutter_mapped_display_ids (Mutter.connector_mapping mu) en) as Hids.
      pose proof (to_int_uint_NoDup _
                    (mutter_mapped_id_range (Mutter.connector_mapping mu) en)) as Hnd.
      destruct (omap (mutter_mapped_resolution _) en) as [|r rs] eqn:Hmapped.
      - simplify_eq. symmetry in Hids. apply fmap_nil_inv in Hids. rewrite Hids.
        split; [intros _; constructor|done].
      - simplify_eq. rewrite Hids. exact Hnd. }
    split; [|exact Hiff].
    intros Hnone. apply Hiff.
    replace (omap _ en) with (@nil Z); [constructor|].
    symmetry. apply omap_nil_iff. intros cr Hcr. unfold mutter_mapped_id.
    unfold GLib.g_hash_table_lookup_extended. by rewrite (Hnone cr Hcr).
Qed.

(** The sample mapping gives the identifiers 0 and 1: the result has no
    duplicate. *)
Lemma display_ids_distinct_witness :
  KWin.output_management (sample_kwin sample_mapping sample_outputs) = Some 1
  ∧ Z.of_nat (length (KWin.outputs (sample_kwin sample_mapping sample_outputs))) < 2 ^ 32
  ∧ KWin.vdagent_kwin_get_resolutions (Some (sample_kwin sample_mapping sample_outputs))
    = Some ([resolution 1920 1080 0 0 0; resolution 1280 1024 1920 0 1], 3200, 1080, 2)
  ∧ NoDup (res_display_id <$>
             [resolution 1920 1080 0 0 0; resolution 1280 1024 1920 0 1]).
Proof.
  split; [reflexivity|]. split; [vm_compute; reflexivity|].
  split; [vm_compute; reflexivity|].
  apply (proj1 display_ids_distinct
           (sample_kwin sample_mapping sample_outputs) 1 _ 3200 1080 2 eq_refl).
  - vm_compute. reflexivity.
  - vm_compute. reflexivity.
  - vm_compute. apply NoDup_cons. split.
    + intros Hin. apply list_elem_of_singleton in Hin. discriminate.
    + apply NoDup_singleton.
Defined.

(** ** The comparison of doubles *)

Lemma SFltb_finite s1 m1 e1 s2 m2 e2 :
  SFltb (S754_finite s1 m1 e1) (S754_finite s2 m2 e2) = true ↔
  (s1 = true ∧ s2 = false)
  ∨ (s1 = false ∧ s2 = false ∧ (e1 < e2 ∨ (e1 = e2 ∧ (m1 < m2)%positive)))
  ∨ (s1 = true ∧ s2 = true ∧ (e2 < e1 ∨ (e1 = e2 ∧ (m2 < m1)%positive))).
Proof.
  unfold SFltb, SFcompare.
  change (Pos.compare_cont Eq m1 m2) with (Pos.compare m1 m2).
  destruct s1, s2; simpl;
    destruct (Z.compare_spec e1 e2) as [He|He|He];
    destruct (Pos.compare_spec m1 m2) as [Hm|Hm|Hm]; simpl;
    split; intros H; try discriminate; try reflexivity; try lia;
    destruct H as [[? ?]|[(? & ? & ?)|(? & ? & ?)]]; try discriminate; lia.
Qed.

Lemma SFeqb_finite s1 m1 e1 s2 m2 e2 :
  SFeqb (S754_finite s1 m1 e1) (S754_finite s2 m2 e2) = true ↔
  s1 = s2 ∧ e1 = e2 ∧ m1 = m2.
Proof.
  unfold SFeqb, SFcompare.
  change (Pos.compare_cont Eq m1 m2) with (Pos.compare m1 m2).
  destruct s1, s2; simpl;
    destruct (Z.compare_spec e1 e2) as [He|He|He];
    destruct (Pos.compare_spec m1 m2) as [Hm|Hm|Hm]; simpl;
    split; intros H; try discriminate; try reflexivity;
    try (destruct H as (? & ? & ?); try discriminate; lia);
    repeat split; lia.
Qed.

Ltac float_cases :=
  repeat match goal with
         | s : bool |- _ => destruct s
         end;
  simpl in *; try discriminate; try reflexivity.

Lemma double_gt_irrefl a : C.double_gt a a = false.
Proof.
  unfold C.double_gt. destruct a as [s|s| |s m e]; try reflexivity; try (by destruct s).
  destruct (SFltb _ _) eqn:H; [|done].
  apply SFltb_finite in H. destruct s; lia.
Qed.

Lemma double_gt_trans a b c :
  C.double_gt a b = true → C.double_gt b c = true → C.double_gt a c = true.
Proof.
  unfold C.double_gt.
  destruct a as [sa|sa| |sa ma ea], b as [sb|sb| |sb mb eb], c as [sc|sc| |sc mc ec];
    try (unfold SFltb, SFcompare; float_cases; fail).
  rewrite !SFltb_finite. destruct sa, sb, sc; lia.
Qed.

Lemma double_eq_gt a b c :
  C.double_eq a b = true → C.double_gt b c = true → C.double_gt a c = true.
Proof.
  unfold C.double_gt, C.double_eq.
  destruct a as [sa|sa| |sa ma ea], b as [sb|sb| |sb mb eb], c as [sc|sc| |sc mc ec];
    try (unfold SFltb, SFeqb, SFcompare; float_cases; fail).
  rewrite SFeqb_finite, !SFltb_finite. destruct sa, sb, sc; lia.
Qed.

Lemma double_gt_not_eq a b : C.double_gt a b = true → C.double_eq a b = false.
Proof.
  intros Hgt. destruct (C.double_eq a b) eqn:Heq; [|done].
  assert (Hba : C.double_eq b a = true).
  { revert Heq. unfold C.double_eq.
    destruct a as [sa|sa| |sa ma ea], b as [sb|sb| |sb mb eb];
      try (unfold SFeqb, SFcompare; float_cases; fail).
    rewrite !SFeqb_finite. intuition congruence. }
  pose proof (double_eq_gt _ _ _ Hba Hgt) as Hbb.
  by rewrite double_gt_irrefl in Hbb.
Qed.

(** ** Mode selection *)

Lemma kwin_matches_decide w h m :
  (KWin.km_width m =? w) && (KWin.km_height m =? h) = true ↔ kwin_mode_matches w h m.
Proof. unfold kwin_mode_matches. rewrite andb_true_iff, !Z.eqb_eq. done. Qed.

Lemma lookup_snoc_lt {A : Type} (l : list A) (x y : A) (j : nat) :
  (j < length l)%nat → (l ++ [x]) !! j = Some y → l !! j = Some y.
Proof. intros Hj. by rewrite lookup_app_l. Qed.

Lemma lookup_snoc_last {A : Type} (l : list A) (x : A) :
  (l ++ [x]) !! length l = Some x.
Proof. by rewrite list_lookup_middle. Qed.

Lemma lookup_lt_of_lt {A : Type} (l : list A) (i j : nat) (x : A) :
  l !! i = Some x → (j < i)%nat → (j < length l)%nat.
Proof. intros Hi Hj. apply lookup_lt_Some in Hi. lia. Qed.

(** One more mode visited: the invariant is kept. *)
Lemma kwin_loop_inv_step l w h best br m :
  kwin_loop_inv l w h best br →
  kwin_loop_inv (l ++ [m]) w h
    (if (KWin.km_width m =? w) && (KWin.km_height m =? h) then
       if negb (bool_decide (is_Some best)) || (br <? KWin.km_refresh m)
       then Some m else best
     else best)
    (if (KWin.km_width m =? w) && (KWin.km_height m =? h) then
       if negb (bool_decide (is_Some best)) || (br <? KWin.km_refresh m)
       then KWin.km_refresh m else br
     else br).
Proof.
  intros [Hsel Hbr].
  destruct ((KWin.km_width m =? w) && (KWin.km_height m =? h)) eqn:Hm.
  - apply kwin_matches_decide in Hm.
    destruct best as [b|]; simpl.
    + specialize (Hbr b eq_refl). subst br.
      destruct Hsel as (i & Hi & Hb & Hmax & Hfirst).
      destruct (KWin.km_refresh b <? KWin.km_refresh m) eqn:Hlt.
      * apply Z.ltb_lt in Hlt. split; [|by intros ? [= <-]].
        exists (length l). split; [apply lookup_snoc_last|]. split; [done|]. split.
        -- intros x Hx Hxm. apply elem_of_app in Hx as [Hx|Hx].
           ++ specialize (Hmax x Hx Hxm). lia.
           ++ apply list_elem_of_singleton in Hx as ->. lia.
        -- intros j x Hj Hjx Hxm. apply lookup_snoc_lt in Hjx; [|done].
           apply list_elem_of_lookup_2 in Hjx. specialize (Hmax x Hjx Hxm). lia.
      * apply Z.ltb_ge in Hlt. split; [|by intros ? [= <-]].
        exists i. split; [by apply lookup_app_l_Some|]. split; [done|]. split.
        -- intros x Hx Hxm. apply elem_of_app in Hx as [Hx|Hx]; [by apply Hmax|].
           by apply list_elem_of_singleton in Hx as ->.
        -- intros j x Hj Hjx Hxm. apply (Hfirst j x); [done| |done].
           eapply lookup_snoc_lt; [|done]. by eapply lookup_lt_of_lt.
    + split; [|by intros ? [= <-]].
      exists (length l). split; [apply lookup_snoc_last|]. split; [done|]. split.
      * intros x Hx Hxm. apply elem_of_app in Hx as [Hx|Hx].
        -- by destruct (Hsel x Hx).
        -- apply list_elem_of_singleton in Hx as ->. lia.
      * intros j x Hj Hjx Hxm. apply lookup_snoc_lt in Hjx; [|done].
        apply list_elem_of_lookup_2 in Hjx. by destruct (Hsel x Hjx).
  - assert (Hnm : ¬ kwin_mode_matches w h m).
    { rewrite <- kwin_matches_decide. by rewrite Hm. }
    split; [|done]. destruct best as [b|]; simpl in *.
    + destruct Hsel as (i & Hi & Hb & Hmax & Hfirst).
      exists i. split; [by apply lookup_app_l_Some|]. split; [done|]. split.
      * intros x Hx Hxm. apply elem_of_app in Hx as [Hx|Hx]; [by apply Hmax|].
        by apply list_elem_of_singleton in Hx as ->.
      * intros j x Hj Hjx Hxm. apply (Hfirst j x); [done| |done].
        eapply lookup_snoc_lt; [|done]. by eapply lookup_lt_of_lt.
    + intros x Hx. apply elem_of_app in Hx as [Hx|Hx]; [by apply Hsel|].
      by apply list_elem_of_singleton in Hx as ->.
Qed.

Lemma kwin_find_mode_loop_selected modes w h :
  ∀ l best br,
    kwin_loop_inv l w h best br →
    kwin_selected (l ++ modes) w h (KWin.find_mode_loop modes w h best br).
Proof.
  induction modes as [|m modes IH]; intros l best br Hinv.
  - rewrite app_nil_r. apply Hinv.
  - replace (l ++ m :: modes) with ((l ++ [m]) ++ modes) by by rewrite <- app_assoc.
    pose proof (kwin_loop_inv_step l w h best br m Hinv) as Hstep.
    simpl. destruct ((KWin.km_width m =? w) && (KWin.km_height m =? h));
      [destruct (negb (bool_decide (is_Some best)) || (br <? KWin.km_refresh m))|];
      by apply IH.
Qed.

Lemma kwin_find_mode_selected o w h :
  kwin_selected (KWin.ko_modes o) w h (KWin.kwin_find_mode o w h).
Proof.
  apply (kwin_find_mode_loop_selected (KWin.ko_modes o) w h [] None 0).
  split; [|done]. intros m Hm. by apply elem_of_nil in Hm.
Qed.

Lemma mutter_matches_decide w h m :
  (Mutter.width m =? w) && (Mutter.height m =? h) = true ↔ mutter_mode_matches w h m.
Proof. unfold mutter_mode_matches. rewrite andb_true_iff, !Z.eqb_eq. done. Qed.

Lemma double_not_gt_above a b c :
  C.double_gt a b = false → C.double_gt c b = true → C.double_gt a c = false.
Proof.
  intros Hab Hcb. destruct (C.double_gt a c) eqn:Hac; [|done].
  by rewrite (double_gt_trans _ _ _ Hac Hcb) in Hab.
Qed.

Lemma double_not_eq_above a b c :
  C.double_gt a b = false → C.double_gt c b = true → C.double_eq a c = false.
Proof.
  intros Hab Hcb. destruct (C.double_eq a c) eqn:Hac; [|done].
  by rewrite (double_eq_gt _ _ _ Hac Hcb) in Hab.
Qed.

(** One more mode visited: the invariant is kept. *)
Lemma mutter_loop_inv_step l w h best br m :
  mutter_loop_inv l w h best br →
  mutter_loop_inv (l ++ [m]) w h
    (if (Mutter.width m =? w) && (Mutter.height m =? h) then
       if negb (bool_decide (is_Some best)) || C.double_gt (Mutter.refresh_rate m) br
       then Some m else best
     else best)
    (if (Mutter.width m =? w) && (Mutter.height m =? h) then
       if negb (bool_decide (is_Some best)) || C.double_gt (Mutter.refresh_rate m) br
       then Mutter.refresh_rate m else br
     else br).
Proof.
  intros [Hsel Hbr].
  destruct ((Mutter.width m =? w) && (Mutter.height m =? h)) eqn:Hm.
  - apply mutter_matches_decide in Hm.
    destruct best as [b|]; simpl.
    + specialize (Hbr b eq_refl). subst br.
      destruct Hsel as (i & Hi & Hb & Hmax & Hfirst).
      destruct (C.double_gt (Mutter.refresh_rate m) (Mutter.refresh_rate b)) eqn:Hgt.
      * split; [|by intros ? [= <-]].
        exists (length l). split; [apply lookup_snoc_last|]. split; [done|]. split.
        -- intros x Hx Hxm. apply elem_of_app in Hx as [Hx|Hx].
           ++ eapply double_not_gt_above; [by apply Hmax|done].
           ++ apply list_elem_of_singleton in Hx as ->. apply double_gt_irrefl.
        -- intros j x Hj Hjx Hxm. apply lookup_snoc_lt in Hjx; [|done].
           apply list_elem_of_lookup_2 in Hjx.
           eapply double_not_eq_above; [by apply Hmax|done].
      * split; [|by intros ? [= <-]].
        exists i. split; [by apply lookup_app_l_Some|]. split; [done|]. split.
        -- intros x Hx Hxm. apply elem_of_app in Hx as [Hx|Hx]; [by apply Hmax|].
           by apply list_elem_of_singleton in Hx as ->.
        -- intros j x Hj Hjx Hxm. apply (Hfirst j x); [done| |done].
           eapply lookup_snoc_lt; [|done]. by eapply lookup_lt_of_lt.
    + split; [|by intros ? [= <-]].
      exists (length l). split; [apply lookup_snoc_last|]. split; [done|]. split.
      * intros x Hx Hxm. apply elem_of_app in Hx as [Hx|Hx].
        -- by destruct (Hsel x Hx).
        -- apply list_elem_of_singleton in Hx as ->. apply double_gt_irrefl.
      * intros j x Hj Hjx Hxm. apply lookup_snoc_lt in Hjx; [|done].
        apply list_elem_of_lookup_2 in Hjx. by destruct (Hsel x Hjx).
  - assert (Hnm : ¬ mutter_mode_matches w h m).
    { rewrite <- mutter_matches_decide. by rewrite Hm. }
    split; [|done]. destruct best as [b|]; simpl in *.
    + destruct Hsel as (i & Hi & Hb & Hmax & Hfirst).
      exists i. split; [by apply lookup_app_l_Some|]. split; [done|]. split.
      * intros x Hx Hxm. apply elem_of_app in Hx as [Hx|Hx]; [by apply Hmax|].
        by apply list_elem_of_singleton in Hx as ->.
      * intros j x Hj Hjx Hxm. apply (Hfirst j x); [done| |done].
        eapply lookup_snoc_lt; [|done]. by eapply lookup_lt_of_lt.
    + intros x Hx. apply elem_of_app in Hx as [Hx|Hx]; [by apply Hsel|].
      by apply list_elem_of_singleton in Hx as ->.
Qed.

Lemma mutter_best_mode_loop_selected ms w h :
  ∀ l best br,
    mutter_loop_inv l w h best br →
    mutter_selected (l ++ ms) w h (Mutter.best_mode_loop ms w h best br).
Proof.
  induction ms as [|m ms IH]; intros l best br Hinv.
  - rewrite app_nil_r. apply Hinv.
  - replace (l ++ m :: ms) with ((l ++ [m]) ++ ms) by by rewrite <- app_assoc.
    pose proof (mutter_loop_inv_step l w h best br m Hinv) as Hstep.
    simpl. destruct ((Mutter.width m =? w) && (Mutter.height m =? h));
      [destruct (negb (bool_decide (is_Some best))
                 || C.double_gt (Mutter.refresh_rate m) br)|];
      by apply IH.
Qed.

Lemma mutter_best_mode_selected info w h :
  mutter_selected (Mutter.modes info) w h (Mutter.best_mode info w h).
Proof.
  apply (mutter_best_mode_loop_selected (Mutter.modes info) w h [] None C.double_0).
  split; [|done]. intros m Hm. by apply elem_of_nil in Hm.
Qed.

(** C3. The mode selector returns a mode of exactly the requested width
    and height whose refresh rate is maximal among the modes of that size,
    the first such mode in the order of the mode list; it returns no mode
    exactly when no mode of the list has the requested size. KWin returns
    the mode, Mutter its mode id. For the modes (1920,1080,60000),
    (1920,1080,75000), (1280,720,60000), selecting 1920x1080 returns the
    75000 mHz mode. *)
Theorem mode_selector_best_match :
  (∀ o w h,
     (KWin.kwin_find_mode o w h = None
      ↔ ∀ m, m ∈ KWin.ko_modes o → ¬ kwin_mode_matches w h m)
     ∧ (∀ r, KWin.kwin_find_mode o w h = Some r →
             ∃ i, kwin_best_at (KWin.ko_modes o) w h i r))
  ∧
  (∀ info w h,
     (Mutter.find_mode_for_resolution info w h = None
      ↔ ∀ m, m ∈ Mutter.modes info → ¬ mutter_mode_matches w h m)
     ∧ (∀ id, Mutter.find_mode_for_resolution info w h = Some id →
              ∃ i r, Mutter.mode_id r = id
                     ∧ mutter_best_at (Mutter.modes info) w h i r))
  ∧ KWin.kwin_find_mode
      (sample_output 1 (Some "Virtual-1"%string) 0 0 1920 1080 sample_modes None true)
      1920 1080
    = Some (sample_mode 12 1920 1080 75000 false)
  ∧ Mutter.find_mode_for_resolution sample_info 1920 1080 = Some "1920x1080@75"%string.
Proof.
  split; [|split; [|split; vm_compute; reflexivity]].
  - intros o w h. pose proof (kwin_find_mode_selected o w h) as Hsel.
    destruct (KWin.kwin_find_mode o w h) as [r|] eqn:Hfind; simpl in Hsel.
    + split.
      * split; [done|]. intros Hnone. destruct Hsel as (i & Hi & Hr & _).
        apply list_elem_of_lookup_2 in Hi. by destruct (Hnone r Hi).
      * intros r' [= <-]. exact Hsel.
    + split; [done|]. intros r [=].
  - intros info w h. unfold Mutter.find_mode_for_resolution.
    pose proof (mutter_best_mode_selected info w h) as Hsel.
    destruct (Mutter.best_mode info w h) as [r|] eqn:Hfind; simpl in Hsel.
    + split.
      * split; [done|]. intros Hnone. destruct Hsel as (i & Hi & Hr & _).
        apply list_elem_of_lookup_2 in Hi. by destruct (Hnone r Hi).
      * intros id [= <-]. destruct Hsel as (i & Hsel). by exists i, r.
    + split; [done|]. intros r [=].
Qed.

(** The 75000 mHz mode is the best 1920x1080 mode of the sample list. *)
Lemma mode_selector_best_match_witness :
  KWin.kwin_find_mode
    (sample_output 1 (Some "Virtual-1"%string) 0 0 1920 1080 sample_modes None true)
    1920 1080
  = Some (sample_mode 12 1920 1080 75000 false)
  ∧ ∃ i, kwin_best_at sample_modes 1920 1080 i (sample_mode 12 1920 1080 75000 false).
Proof.
  split; [vm_compute; reflexivity|].
  apply (proj2 (proj1 mode_selector_best_match
                  (sample_output 1 (Some "Virtual-1"%string) 0 0 1920 1080
                     sample_modes None true) 1920 1080)).
  vm_compute. reflexivity.
Defined.

(** ** The bounded wait of the apply call *)

Lemma bool_decide_elem_of_cons (x y : KWin.config_event) (l : list KWin.config_event) :
  bool_decide (x ∈ y :: l) = bool_decide (x = y) || bool_decide (x ∈ l).
Proof.
  rewrite <- bool_decide_or. apply bool_decide_ext. apply elem_of_cons.
Qed.

Lemma config_handle_fold evs st :
  fold_left KWin.config_handle evs st =
  {| KWin.config_applied := KWin.config_applied st || bool_decide (KWin.ev_applied ∈ evs);
     KWin.config_failed := KWin.config_failed st || bool_decide (KWin.ev_failed ∈ evs);
     KWin.roundtrips := KWin.roundtrips st;
     KWin.slept_usec := KWin.slept_usec st |}.
Proof.
  revert st. induction evs as [|e evs IH]; intros st.
  - cbn [fold_left].
    rewrite !bool_decide_eq_false_2 by (intros H; by apply elem_of_nil in H).
    rewrite !orb_false_r. by destruct st.
  - cbn [fold_left]. rewrite IH, !bool_decide_elem_of_cons.
    destruct e; cbn [KWin.config_handle KWin.config_applied KWin.config_failed
                     KWin.roundtrips KWin.slept_usec];
      rewrite ?(bool_decide_eq_true_2 (KWin.ev_applied = KWin.ev_applied)) by done;
      rewrite ?(bool_decide_eq_true_2 (KWin.ev_failed = KWin.ev_failed)) by done;
      rewrite ?(bool_decide_eq_false_2 (KWin.ev_applied = KWin.ev_failed)) by done;
      rewrite ?(bool_decide_eq_false_2 (KWin.ev_failed = KWin.ev_applied)) by done;
      cbn [orb]; rewrite ?orb_true_r; reflexivity.
Qed.

(** A round trip from a state with no flag set. *)
Lemma roundtrip_unsignalled signals r s :
  KWin.wl_display_roundtrip signals
    {| KWin.config_applied := false; KWin.config_failed := false;
       KWin.roundtrips := r; KWin.slept_usec := s |} =
  {| KWin.config_applied := bool_decide (KWin.ev_applied ∈ signals r);
     KWin.config_failed := bool_decide (KWin.ev_failed ∈ signals r);
     KWin.roundtrips := S r; KWin.slept_usec := s |}.
Proof. unfold KWin.wl_display_roundtrip. simpl. by rewrite config_handle_fold. Qed.

Lemma some_event_sets_a_flag (evs : list KWin.config_event) :
  evs ≠ [] →
  bool_decide (KWin.ev_applied ∈ evs) || bool_decide (KWin.ev_failed ∈ evs) = true.
Proof.
  destruct evs as [|[] evs]; [done| |]; intros _.
  - rewrite bool_decide_eq_true_2 by constructor. done.
  - rewrite (bool_decide_eq_true_2 (KWin.ev_failed ∈ _)) by constructor.
    apply orb_true_r.
Qed.

(** The wait loop, started with no flag set after [r] round trips and
    [s] microseconds of sleep: if the next [n] round trips deliver
    nothing, it gives up after [n] more round trips and [n] sleeps of
    100 ms. *)
Lemma wait_for_result_silent signals n :
  ∀ r s,
    (∀ j, (j < n)%nat → signals (r + j)%nat = []) →
    KWin.wait_for_result signals n
      {| KWin.config_applied := false; KWin.config_failed := false;
         KWin.roundtrips := r; KWin.slept_usec := s |} =
    {| KWin.config_applied := false; KWin.config_failed := false;
       KWin.roundtrips := (r + n)%nat; KWin.slept_usec := s + Z.of_nat n * 100000 |}.
Proof.
  induction n as [|n IH]; intros r s Hsilent.
  - simpl. f_equal; lia.
  - cbn [KWin.wait_for_result KWin.config_applied KWin.config_failed orb].
    rewrite roundtrip_unsignalled.
    cbn [KWin.config_applied KWin.config_failed].
    pose proof (Hsilent 0%nat ltac:(lia)) as H0. rewrite Nat.add_0_r in H0. rewrite H0.
    rewrite !bool_decide_eq_false_2 by (intros H; by apply elem_of_nil in H).
    cbn [orb]. unfold KWin.g_usleep. cbn [KWin.config_applied KWin.config_failed
      KWin.roundtrips KWin.slept_usec].
    rewrite IH.
    + f_equal; lia.
    + intros j Hj. replace (S r + j)%nat with (r + S j)%nat by lia. apply Hsilent. lia.
Qed.

(** If the [k]-th of the next [n] round trips is the first to deliver
    something, the loop stops right after it, having slept [k] times. *)
Lemma wait_for_result_signalled signals n :
  ∀ r s k,
    (k < n)%nat →
    (∀ j, (j < k)%nat → signals (r + j)%nat = []) →
    signals (r + k)%nat ≠ [] →
    KWin.wait_for_result signals n
      {| KWin.config_applied := false; KWin.config_failed := false;
         KWin.roundtrips := r; KWin.slept_usec := s |} =
    {| KWin.config_applied := bool_decide (KWin.ev_applied ∈ signals (r + k)%nat);
       KWin.config_failed := bool_decide (KWin.ev_failed ∈ signals (r + k)%nat);
       KWin.roundtrips := S (r + k); KWin.slept_usec := s + Z.of_nat k * 100000 |}.
Proof.
  induction n as [|n IH]; intros r s k Hk Hsilent Hsig; [lia|].
  cbn [KWin.wait_for_result KWin.config_applied KWin.config_failed orb].
  rewrite roundtrip_unsignalled.
  cbn [KWin.config_applied KWin.config_failed].
  destruct k as [|k].
  - rewrite Nat.add_0_r in *. rewrite (some_event_sets_a_flag _ Hsig).
    f_equal. lia.
  - pose proof (Hsilent 0%nat ltac:(lia)) as H0. rewrite Nat.add_0_r in H0. rewrite H0.
    rewrite !bool_decide_eq_false_2 by (intros H; by apply elem_of_nil in H).
    cbn [orb]. unfold KWin.g_usleep. cbn [KWin.config_applied KWin.config_failed
      KWin.roundtrips KWin.slept_usec].
    rewrite (IH (S r) (s + 100000) k).
    + replace (S r + k)%nat with (r + S k)%nat by lia. f_equal. lia.
    + lia.
    + intros j Hj. replace (S r + j)%nat with (r + S j)%nat by lia. apply Hsilent. lia.
    + by replace (S r + k)%nat with (r + S k)%nat by lia.
Qed.

Lemma first_signal_spec signals n :
  ∀ start,
    match first_signal signals start n with
    | None => ∀ j, (j < n)%nat → signals (start + j)%nat = []
    | Some r => ∃ k, r = (start + k)%nat ∧ (k < n)%nat
                     ∧ (∀ j, (j < k)%nat → signals (start + j)%nat = [])
                     ∧ signals r ≠ []
    end.
Proof.
  induction n as [|n IH]; intros start; simpl; [lia|].
  destruct (signals start) as [|e evs] eqn:Hs.
  - specialize (IH (S start)). destruct (first_signal signals (S start) n) as [r|].
    + destruct IH as (k & -> & Hk & Hsilent & Hsig).
      exists (S k). split; [lia|]. split; [lia|]. split; [|done].
      intros [|j] Hj; [by rewrite Nat.add_0_r|].
      replace (start + S j)%nat with (S start + j)%nat by lia. apply Hsilent. lia.
    + intros [|j] Hj; [by rewrite Nat.add_0_r|].
      replace (start + S j)%nat with (S start + j)%nat by lia. apply IH. lia.
  - exists 0%nat. rewrite Nat.add_0_r. split; [done|]. split; [lia|].
    split; [lia|]. by rewrite Hs.
Qed.

(** The wait of the apply call of KWin, in closed form: it starts after
    the opening round trip, with both flags cleared. *)
Lemma kwin_wait_closed signals :
  KWin.wait_for_result signals 50 (KWin.reset_flags (KWin.refresh_roundtrip KWin.idle)) =
  match first_signal signals 1 50 with
  | None =>
      {| KWin.config_applied := false; KWin.config_failed := false;
         KWin.roundtrips := 51; KWin.slept_usec := 5000000 |}
  | Some r =>
      {| KWin.config_applied := bool_decide (KWin.ev_applied ∈ signals r);
         KWin.config_failed := bool_decide (KWin.ev_failed ∈ signals r);
         KWin.roundtrips := S r; KWin.slept_usec := (Z.of_nat r - 1) * 100000 |}
  end.
Proof.
  pose proof (first_signal_spec signals 50 1) as Hspec.
  unfold KWin.reset_flags, KWin.refresh_roundtrip, KWin.idle.
  cbn [KWin.roundtrips KWin.slept_usec].
  destruct (first_signal signals 1 50) as [r|].
  - destruct Hspec as (k & -> & Hk & Hsilent & Hsig).
    rewrite (wait_for_result_signalled signals 50 1 0 k Hk Hsilent Hsig).
    f_equal. lia.
  - by rewrite (wait_for_result_silent signals 50 1 0 Hspec).
Qed.

Lemma first_signal_unique (signals : nat → list KWin.config_event) (r r' : nat) :
  (1 ≤ r)%nat → (1 ≤ r')%nat →
  (∀ j, (1 ≤ j < r)%nat → signals j = []) → signals r ≠ [] →
  (∀ j, (1 ≤ j < r')%nat → signals j = []) → signals r' ≠ [] →
  r = r'.
Proof.
  intros H1 H1' Hs Hr Hs' Hr'.
  destruct (Nat.lt_trichotomy r r') as [Hlt|[Heq|Hgt]]; [|done|].
  - destruct Hr. apply Hs'. lia.
  - destruct Hr'. apply Hs. lia.
Qed.

Lemma elem_of_not_nil {A : Type} (x : A) (l : list A) : x ∈ l → l ≠ [].
Proof. intros Hx ->. by apply elem_of_nil in Hx. Qed.

(** C4, as stated, fails in Mutter. A peer that does not answer makes the
    apply call fail, but not after 50 polling iterations of 100 ms: the
    call has made no polling iteration at all. Its whole wait is the one
    blocking ApplyMonitorsConfig call, made with a timeout of 5000 ms. *)
Lemma apply_wait_counterexample :
  let out := Mutter.vdagent_mutter_set_monitor_config (Some (sample_mutter sample_mapping))
               (Some sample_layout) (Some sample_state) (λ _, false) in
  Mutter.ret out = -1
  ∧ mutter_wait_steps out = [step_blocking_call 5000]
  ∧ polling_iterations (mutter_wait_steps out) = 0%nat
  ∧ polling_iterations (mutter_wait_steps out) ≠ 50%nat.
Proof. vm_compute. repeat split; discriminate. Qed.

(** C4, amended. In KWin an apply call returns success exactly when the
    compositor confirms the configuration within the wait, and failure
    when it rejects it or stays silent for the whole bound. The wait is a
    loop of at most 50 iterations, each of one round trip (the
    event-processing step) followed, if no flag is set, by a 100 ms
    sleep; it comes after the round trip that opens the call. A signal at
    round trip [r] of the wait ends the call after [r + 1] round trips in
    all and [r - 1] sleeps, and silence ends it with failure after 51
    round trips and 50 sleeps, 5 seconds in all. In Mutter there is no
    polling: the wait is the single blocking ApplyMonitorsConfig call with
    a timeout of 5000 ms, and the call returns success exactly when that
    call returns a reply, failure otherwise. *)
Theorem apply_result_follows_signal :
  (∀ wl k h cfg monitors signals,
     KWin.output_management k = Some h →
     let out := KWin.vdagent_kwin_set_monitor_config wl (Some k) (Some monitors)
                  (Some cfg) signals in
     (KWin.ret out = 0 ↔ ∃ r, (1 ≤ r ≤ 50)%nat ∧ confirmed_at signals r)
     ∧ (∀ r, (1 ≤ r ≤ 50)%nat → confirmed_at signals r →
             KWin.roundtrips (KWin.final out) = S r
             ∧ KWin.slept_usec (KWin.final out) = (Z.of_nat r - 1) * 100000)
     ∧ (∀ r, (1 ≤ r ≤ 50)%nat → rejected_at signals r →
             KWin.ret out = -1
             ∧ KWin.roundtrips (KWin.final out) = S r
             ∧ KWin.slept_usec (KWin.final out) = (Z.of_nat r - 1) * 100000)
     ∧ (silent_for signals 50 →
        KWin.ret out = -1
        ∧ KWin.roundtrips (KWin.final out) = 51%nat
        ∧ KWin.slept_usec (KWin.final out) = 50 * 100000
        ∧ KWin.config_applied (KWin.final out) = false
        ∧ KWin.config_failed (KWin.final out) = false))
  ∧
  (∀ mu p entries v replies,
     Mutter.dbus_proxy mu = Some p →
     let out := Mutter.vdagent_mutter_set_monitor_config (Some mu) (Some entries)
                  (Some v) replies in
     ∃ c, Mutter.call out = Some c
          ∧ Mutter.amc_timeout_msec c = 5000
          ∧ mutter_wait_steps out = [step_blocking_call 5000]
          ∧ polling_iterations (mutter_wait_steps out) = 0%nat
          ∧ (Mutter.ret out = 0 ↔ replies c = true)
          ∧ (replies c = false → Mutter.ret out = -1)).
Proof.
  split.
  - intros wl k h cfg monitors signals Hm out. subst out.
    unfold KWin.vdagent_kwin_set_monitor_config. rewrite Hm.
    cbn [KWin.ret KWin.final]. rewrite kwin_wait_closed.
    pose proof (first_signal_spec signals 50 1) as Hspec.
    destruct (first_signal signals 1 50) as [r0|].
    + destruct Hspec as (k0 & -> & Hk0 & Hsilent & Hsig).
      assert (Hsame : ∀ r, (1 ≤ r)%nat → (∀ j, (1 ≤ j < r)%nat → signals j = []) →
                           signals r ≠ [] → r = (1 + k0)%nat).
      { intros r H1 Hs Hr. apply (first_signal_unique signals r (1 + k0)); try done; [lia|].
        intros j Hj. replace j with (1 + (j - 1))%nat by lia. apply Hsilent. lia. }
      unfold KWin.wait_result.
      cbn [KWin.config_applied KWin.config_failed KWin.roundtrips KWin.slept_usec].
      split; [|split; [|split]].
      * split.
        -- intros Hret. exists (1 + k0)%nat. split; [lia|]. split.
           { intros j Hj. replace j with (1 + (j - 1))%nat by lia. apply Hsilent. lia. }
           destruct (bool_decide (KWin.ev_failed ∈ signals (1 + k0)%nat)) eqn:Hf; [done|].
           destruct (bool_decide (KWin.ev_applied ∈ signals (1 + k0)%nat)) eqn:Ha; [|done].
           apply bool_decide_eq_true in Ha. apply bool_decide_eq_false in Hf. done.
        -- intros (r & Hr & Hs & Ha & Hf).
           assert (r = (1 + k0)%nat) as ->
             by (apply Hsame; [lia|done|by eapply elem_of_not_nil]).
           rewrite (bool_decide_eq_false_2 _ Hf), (bool_decide_eq_true_2 _ Ha). done.
      * intros r Hr (Hs & Ha & Hf).
        assert (r = (1 + k0)%nat) as ->
          by (apply Hsame; [lia|done|by eapply elem_of_not_nil]). done.
      * intros r Hr (Hs & Hf).
        assert (r = (1 + k0)%nat) as ->
          by (apply Hsame; [lia|done|by eapply elem_of_not_nil]).
        by rewrite (bool_decide_eq_true_2 _ Hf).
      * intros Hsil. destruct Hsig. apply Hsil. lia.
    + assert (Hnil : ∀ r, (1 ≤ r ≤ 50)%nat → signals r = []).
      { intros r Hr. replace r with (1 + (r - 1))%nat by lia. apply Hspec. lia. }
      unfold KWin.wait_result.
      cbn [KWin.config_applied KWin.config_failed KWin.roundtrips KWin.slept_usec negb].
      split; [|split; [|split]].
      * split; [done|]. intros (r & Hr & _ & Ha & _).
        rewrite (Hnil r Hr) in Ha. by apply elem_of_nil in Ha.
      * intros r Hr (_ & Ha & _). rewrite (Hnil r Hr) in Ha. by apply elem_of_nil in Ha.
      * intros r Hr (_ & Hf). rewrite (Hnil r Hr) in Hf. by apply elem_of_nil in Hf.
      * done.
  - intros mu p entries v replies Hp out. subst out.
    unfold mutter_wait_steps, Mutter.vdagent_mutter_set_monitor_config. rewrite Hp.
    cbn [Mutter.ret Mutter.call]. eexists. split; [reflexivity|].
    cbn [Mutter.amc_timeout_msec]. split; [done|]. split; [done|]. split; [done|].
    destruct (replies _); split; done.
Qed.

(** A compositor that confirms at the second round trip of the wait: the
    call succeeds after three round trips and one sleep. One that rejects
    at the first round trip of the wait: the call fails after two round
    trips, without a sleep. One that never answers: the call fails after
    51 round trips and 5 seconds of sleep. A DBus peer that replies: the
    call succeeds after its one blocking call. *)
Lemma apply_result_follows_signal_witness :
  (KWin.output_management (sample_kwin sample_mapping sample_outputs) = Some 1
   ∧ confirmed_at confirms_third 2
   ∧ rejected_at rejects_first 1
   ∧ silent_for never_answers 50
   ∧ (let out := KWin.vdagent_kwin_set_monitor_config (λ _, 256)
                   (Some (sample_kwin sample_mapping sample_outputs))
                   (Some sample_layout) (Some 1) confirms_third in
      KWin.ret out = 0
      ∧ KWin.roundtrips (KWin.final out) = 3%nat
      ∧ KWin.slept_usec (KWin.final out) = 100000)
   ∧ (let out := KWin.vdagent_kwin_set_monitor_config (λ _, 256)
                   (Some (sample_kwin sample_mapping sample_outputs))
                   (Some sample_layout) (Some 1) rejects_first in
      KWin.ret out = -1
      ∧ KWin.roundtrips (KWin.final out) = 2%nat
      ∧ KWin.slept_usec (KWin.final out) = 0)
   ∧ (let out := KWin.vdagent_kwin_set_monitor_config (λ _, 256)
                   (Some (sample_kwin sample_mapping sample_outputs))
                   (Some sample_layout) (Some 1) never_answers in
      KWin.ret out = -1
      ∧ KWin.roundtrips (KWin.final out) = 51%nat
      ∧ KWin.slept_usec (KWin.final out) = 5000000))
  ∧ (Mutter.dbus_proxy (sample_mutter sample_mapping) = Some 1
     ∧ let out := Mutter.vdagent_mutter_set_monitor_config
                    (Some (sample_mutter sample_mapping)) (Some sample_layout)
                    (Some sample_state) (λ _, true) in
       Mutter.ret out = 0 ∧ mutter_wait_steps out = [step_blocking_call 5000]).
Proof.
  assert (Hc : confirmed_at confirms_third 2).
  { split; [|split].
    - intros j Hj. unfold confirms_third. rewrite bool_decide_eq_false_2; [done|lia].
    - change (KWin.ev_applied ∈ [KWin.ev_applied]). constructor.
    - change (KWin.ev_failed ∉ [KWin.ev_applied]). intros H.
      apply list_elem_of_singleton in H. discriminate. }
  assert (Hr : rejected_at rejects_first 1).
  { split.
    - intros j Hj. lia.
    - change (KWin.ev_failed ∈ [KWin.ev_failed]). constructor. }
  assert (Hs : silent_for never_answers 50) by (intros j Hj; reflexivity).
  split.
  - split; [reflexivity|]. split; [exact Hc|]. split; [exact Hr|]. split; [exact Hs|].
    split; [|split].
    + destruct (proj1 apply_result_follows_signal (λ _, 256)
                  (sample_kwin sample_mapping sample_outputs) 1 1 sample_layout
                  confirms_third eq_refl) as (Hret & Hconf & _).
      split; [|exact (Hconf 2%nat ltac:(lia) Hc)].
      apply (proj2 Hret). exists 2%nat. split; [lia|exact Hc].
    + destruct (proj1 apply_result_follows_signal (λ _, 256)
                  (sample_kwin sample_mapping sample_outputs) 1 1 sample_layout
                  rejects_first eq_refl) as (_ & _ & Hrej & _).
      exact (Hrej 1%nat ltac:(lia) Hr).
    + destruct (proj1 apply_result_follows_signal (λ _, 256)
                  (sample_kwin sample_mapping sample_outputs) 1 1 sample_layout
                  never_answers eq_refl) as (_ & _ & _ & Hsil).
      destruct (Hsil Hs) as (Hret & Hrt & Hsl & _).
      split; [exact Hret|]. split; [exact Hrt|exact Hsl].
  - split; [reflexivity|].
    destruct (proj2 apply_result_follows_signal (sample_mutter sample_mapping) 1
                sample_layout sample_state (λ _, true) eq_refl)
      as (c & Hcall & _ & Hsteps & _ & Hret & _).
    split; [by apply (proj2 Hret)|exact Hsteps].
Defined.

(** ** Resolving the target of a layout entry *)

Lemma kwin_find_mapped_output_spec m os i :
  match KWin.find_mapped_output m os i with
  | Some o =>
      ∃ j, os !! j = Some o ∧ kwin_mapped_id m o = Some i
           ∧ ∀ j' o', (j' < j)%nat → os !! j' = Some o' → kwin_mapped_id m o' ≠ Some i
  | None => ∀ o, o ∈ os → kwin_mapped_id m o ≠ Some i
  end.
Proof.
  induction os as [|o os IH]; simpl.
  - intros o Ho. by apply elem_of_nil in Ho.
  - assert (Hhere : ∀ v, KWin.lookup_connector m o = Some v →
                          (GLib.GPOINTER_TO_UINT v =? i) = true →
                          ∃ j, (o :: os) !! j = Some o ∧ kwin_mapped_id m o = Some i
                               ∧ ∀ j' o', (j' < j)%nat → (o :: os) !! j' = Some o' →
                                          kwin_mapped_id m o' ≠ Some i).
    { intros v Hv Heq. apply Z.eqb_eq in Heq. exists 0%nat. split; [done|]. split.
      - unfold kwin_mapped_id. rewrite Hv. simpl. by rewrite Heq.
      - intros j' o' Hj'. lia. }
    assert (Hskip : kwin_mapped_id m o ≠ Some i →
                    match KWin.find_mapped_output m os i with
                    | Some o0 =>
                        ∃ j, (o :: os) !! j = Some o0 ∧ kwin_mapped_id m o0 = Some i
                             ∧ ∀ j' o', (j' < j)%nat → (o :: os) !! j' = Some o' →
                                        kwin_mapped_id m o' ≠ Some i
                    | None => ∀ o0, o0 ∈ o :: os → kwin_mapped_id m o0 ≠ Some i
                    end).
    { intros Hne. destruct (KWin.find_mapped_output m os i) as [o0|].
      - destruct IH as (j & Hj & Hid & Hfirst). exists (S j). split; [done|].
        split; [done|]. intros [|j'] o' Hlt Hlook; simpl in Hlook.
        + by simplify_eq.
        + apply (Hfirst j' o'); [lia|done].
      - intros o0 Ho0. apply elem_of_cons in Ho0 as [->|Ho0]; [done|by apply IH]. }
    destruct (KWin.ko_name o) as [n|] eqn:Hn.
    + destruct (GLib.g_hash_table_lookup_extended m n) as [v|] eqn:Hv.
      * assert (Hlc : KWin.lookup_connector m o = Some v)
          by (unfold KWin.lookup_connector; by rewrite Hn).
        destruct (GLib.GPOINTER_TO_UINT v =? i) eqn:Heq; [by eapply Hhere|].
        apply Hskip. unfold kwin_mapped_id. rewrite Hlc. simpl.
        apply Z.eqb_neq in Heq. congruence.
      * apply Hskip. unfold kwin_mapped_id, KWin.lookup_connector. by rewrite Hn, Hv.
    + apply Hskip. unfold kwin_mapped_id, KWin.lookup_connector. by rewrite Hn.
Qed.

Lemma kwin_configure_monitors_concat wl k entries :
  ∀ i, KWin.configure_monitors wl k i entries
       = concat (imap (λ j mc, KWin.configure_monitor wl k (i + j) mc) entries).
Proof.
  induction entries as [|mc entries IH]; intros i; simpl; [done|].
  rewrite Nat.add_0_r. f_equal. rewrite IH. f_equal.
  apply imap_ext. intros j x _. simpl. f_equal. lia.
Qed.

Lemma mutter_find_mapped_monitor_spec monitors i :
  match Mutter.find_mapped_monitor monitors i with
  | Some info =>
      ∃ j, monitors !! j = Some info ∧ Mutter.display_id info = i
           ∧ ∀ j' info', (j' < j)%nat → monitors !! j' = Some info' →
                         Mutter.display_id info' ≠ i
  | None => ∀ info, info ∈ monitors → Mutter.display_id info ≠ i
  end.
Proof.
  induction monitors as [|info monitors IH]; simpl.
  - intros o Ho. by apply elem_of_nil in Ho.
  - destruct (Mutter.display_id info =? i) eqn:Heq.
    + apply Z.eqb_eq in Heq. exists 0%nat. split; [done|]. split; [done|].
      intros j' info' Hj'. lia.
    + apply Z.eqb_neq in Heq.
      destruct (Mutter.find_mapped_monitor monitors i) as [info0|].
      * destruct IH as (j & Hj & Hid & Hfirst). exists (S j). split; [done|].
        split; [done|]. intros [|j'] info' Hlt Hlook; simpl in Hlook.
        -- by simplify_eq.
        -- apply (Hfirst j' info'); [lia|done].
      * intros info0 Hin. apply elem_of_cons in Hin as [->|Hin]; [done|by apply IH].
Qed.

Lemma mutter_configure_monitors_omap monitors entries :
  ∀ i, Mutter.configure_monitors monitors i entries
       = omap id (imap (λ j mc, Mutter.configure_monitor monitors (i + j) mc) entries).
Proof.
  induction entries as [|mc entries IH]; intros i; [done|].
  cbn [Mutter.configure_monitors imap omap list_omap]. rewrite Nat.add_0_r.
  rewrite IH.
  replace (imap ((λ j mc0, Mutter.configure_monitor monitors (i + j) mc0) ∘ S) entries)
    with (imap (λ j mc0, Mutter.configure_monitor monitors (S i + j) mc0) entries).
  - by destruct (Mutter.configure_monitor monitors i mc).
  - apply imap_ext. intros j x _. simpl. f_equal. lia.
Qed.

Lemma to_int_not_minus_one z : 0 ≤ z < 2 ^ 32 - 1 → C.to_int z ≠ -1.
Proof.
  intros Hz. unfold C.to_int.
  destruct (Z_lt_le_dec z (2 ^ 31)).
  - rewrite Z.mod_small by lia. lia.
  - replace (z + 2 ^ 31) with ((z - 2 ^ 31) + 1 * 2 ^ 32) by lia.
    rewrite Z_mod_plus_full, Z.mod_small by lia. lia.
Qed.

Lemma parse_monitor_connector m lms mon :
  Mutter.connector (Mutter.parse_monitor m lms mon)
  = Mutter.ms_connector (Mutter.mon_spec mon).
Proof.
  unfold Mutter.parse_monitor.
  by destruct (Mutter.find_logical_monitor_info lms _) as [[[[x y] sc] tr] prim].
Qed.

Lemma parse_monitor_display_id m lms mon :
  Mutter.display_id (Mutter.parse_monitor m lms mon)
  = match GLib.g_hash_table_lookup_extended m (Mutter.ms_connector (Mutter.mon_spec mon)) with
    | Some value => GLib.GPOINTER_TO_INT value
    | None => -1
    end.
Proof.
  unfold Mutter.parse_monitor.
  by destruct (Mutter.find_logical_monitor_info lms _) as [[[[x y] sc] tr] prim].
Qed.

(** For a parsed monitor and an index below [UINT32_MAX], the test
    [info->display_id == (int) i] holds exactly when the mapping sends the
    connector to [i]. *)
Lemma parsed_display_id_mapped mu v info i :
  info ∈ Mutter.parse_monitors_from_state mu v →
  0 ≤ i < 2 ^ 32 - 1 →
  Mutter.display_id info = C.to_int i
  ↔ mutter_info_mapped_id (Mutter.connector_mapping mu) info = Some (C.to_int i).
Proof.
  unfold Mutter.parse_monitors_from_state. intros Hin Hi.
  apply list_elem_of_fmap in Hin as (mon & -> & _).
  unfold mutter_info_mapped_id.
  rewrite parse_monitor_display_id, parse_monitor_connector.
  destruct (GLib.g_hash_table_lookup_extended _ _) as [value|]; simpl.
  - split; congruence.
  - split; [|done]. intros H. symmetry in H. by apply to_int_not_minus_one in H.
Qed.

(** C6. For an apply call and the entry at index [i] of the requested
    layout (the index is the entry's SPICE display id), the target is the
    first output whose connector the mapping sends to [i]; if there is
    none, it is the output at index [i] of the snapshot when [i] is in
    range. The target found is the one the entry configures: in KWin
    every request issued for the entry names the target's device, the
    first switches it on, the last three carry the entry's position and
    the target's scale and transform, and at most a mode request lies
    between; in Mutter the logical monitor built for the entry names the
    target's connector and carries the entry's position, and none is
    built only when the target has neither a mode of the requested size
    nor a current mode. If there is no target, exactly that entry is
    skipped: it contributes nothing, and the call still submits what the
    other entries contribute, in the order of the layout. Both for KWin
    and for Mutter. *)
Theorem target_by_mapping_then_index :
  (∀ wl k i mc,
     ((∃ o, o ∈ KWin.outputs k
            ∧ kwin_mapped_id (KWin.connector_mapping k) o = Some (Z.of_nat i)) →
      ∃ j o, kwin_first_mapped k i j o ∧ KWin.find_output k i = Some o)
     ∧ ((∀ o, o ∈ KWin.outputs k →
              kwin_mapped_id (KWin.connector_mapping k) o ≠ Some (Z.of_nat i)) →
        KWin.find_output k i = KWin.outputs k !! i)
     ∧ (∀ o, KWin.find_output k i = Some o →
          ∃ mode_part,
            KWin.configure_monitor wl k i mc
            = KWin.req_enable (KWin.ko_device o) 1
              :: mode_part
              ++ [KWin.req_position (KWin.ko_device o) (mc_x mc) (mc_y mc);
                  KWin.req_scale (KWin.ko_device o) (wl (KWin.ko_scale o));
                  KWin.req_transform (KWin.ko_device o) (KWin.ko_transform o)]
            ∧ (mode_part = []
               ∨ ∃ handle, mode_part = [KWin.req_mode (KWin.ko_device o) handle]))
     ∧ (KWin.find_output k i = None ↔ KWin.configure_monitor wl k i mc = [])
     ∧ (∀ entries, KWin.configure_monitors wl k 0 entries
                   = concat (imap (KWin.configure_monitor wl k) entries))
     ∧ (∀ h cfg entries signals,
          KWin.output_management k = Some h →
          KWin.requests (KWin.vdagent_kwin_set_monitor_config wl (Some k) (Some entries)
                           (Some cfg) signals)
          = concat (imap (KWin.configure_monitor wl k) entries) ++ [KWin.req_apply]))
  ∧
  (∀ mu v i mc,
     Z.of_nat i < 2 ^ 32 - 1 →
     let monitors := Mutter.parse_monitors_from_state mu v in
     ((∃ info, info ∈ monitors
               ∧ mutter_info_mapped_id (Mutter.connector_mapping mu) info
                 = Some (C.to_int (Z.of_nat i))) →
      ∃ j info, mutter_first_mapped (Mutter.connector_mapping mu) monitors i j info
                ∧ Mutter.find_target monitors i = Some info)
     ∧ ((∀ info, info ∈ monitors →
                 mutter_info_mapped_id (Mutter.connector_mapping mu) info
                 ≠ Some (C.to_int (Z.of_nat i))) →
        Mutter.find_target monitors i = monitors !! i)
     ∧ (∀ target, Mutter.find_target monitors i = Some target →
          match Mutter.configure_monitor monitors i mc with
          | Some lm =>
              (∃ id, Mutter.alm_monitors lm
                     = [{| Mutter.am_connector := Mutter.connector target;
                           Mutter.am_mode_id := id |}])
              ∧ Mutter.alm_x lm = mc_x mc ∧ Mutter.alm_y lm = mc_y mc
          | None =>
              Mutter.find_mode_for_resolution target (C.to_int (mc_width mc))
                (C.to_int (mc_height mc)) = None
              ∧ Mutter.current_mode_id target = None
          end)
     ∧ (Mutter.find_target monitors i = None →
        Mutter.configure_monitor monitors i mc = None)
     ∧ (∀ entries, Mutter.configure_monitors monitors 0 entries
                   = omap id (imap (Mutter.configure_monitor monitors) entries))
     ∧ (∀ p entries replies,
          Mutter.dbus_proxy mu = Some p →
          ∃ c, Mutter.call (Mutter.vdagent_mutter_set_monitor_config (Some mu)
                              (Some entries) (Some v) replies) = Some c
               ∧ Mutter.amc_logical_monitors c
                 = omap id (imap (Mutter.configure_monitor monitors) entries))).
Proof.
  split.
  - intros wl k i mc. unfold kwin_first_mapped.
    pose proof (kwin_find_mapped_output_spec (KWin.connector_mapping k)
                  (KWin.outputs k) (Z.of_nat i)) as Hspec.
    split; [|split; [|split; [|split; [|split]]]].
    + unfold KWin.find_output. intros (o & Ho & Hid).
      destruct (KWin.find_mapped_output _ _ _) as [o0|].
      * destruct Hspec as (j & Hspec). by exists j, o0.
      * by destruct (Hspec o Ho).
    + unfold KWin.find_output. intros Hnone.
      destruct (KWin.find_mapped_output _ _ _) as [o0|]; [|done].
      destruct Hspec as (j & Hj & Hid & _).
      apply list_elem_of_lookup_2 in Hj. by destruct (Hnone o0 Hj).
    + intros o Ho. unfold KWin.configure_monitor. rewrite Ho.
      unfold KWin.configure_output. eexists. split; [reflexivity|].
      destruct (KWin.kwin_find_mode _ _ _) as [m|]; [right; by eexists|].
      destruct (KWin.ko_current_mode o) as [cur|]; [right; by eexists|by left].
    + unfold KWin.configure_monitor.
      destruct (KWin.find_output k i) as [o|]; [|done].
      unfold KWin.configure_output. split; intros H; discriminate H.
    + intros entries. apply (kwin_configure_monitors_concat wl k entries 0).
    + intros h cfg entries signals Hm.
      unfold KWin.vdagent_kwin_set_monitor_config. rewrite Hm. cbn [KWin.requests].
      by rewrite (kwin_configure_monitors_concat wl k entries 0).
  - intros mu v i mc Hi monitors. unfold mutter_first_mapped.
    pose proof (mutter_find_mapped_monitor_spec monitors (C.to_int (Z.of_nat i))) as Hspec.
    assert (Hmapped : ∀ info, info ∈ monitors →
              Mutter.display_id info = C.to_int (Z.of_nat i)
              ↔ mutter_info_mapped_id (Mutter.connector_mapping mu) info
                = Some (C.to_int (Z.of_nat i))).
    { intros info Hin. apply (parsed_display_id_mapped mu v); [done|lia]. }
    split; [|split; [|split; [|split; [|split]]]].
    + unfold Mutter.find_target. intros (info & Hin & Hid).
      destruct (Mutter.find_mapped_monitor _ _) as [info0|].
      * destruct Hspec as (j & Hj & Hid0 & Hfirst). exists j, info0.
        split; [|done]. split; [done|]. split.
        -- apply Hmapped; [by eapply list_elem_of_lookup_2|done].
        -- intros j' info' Hlt Hlook Hid'. apply (Hfirst j' info' Hlt Hlook).
           apply Hmapped; [by eapply list_elem_of_lookup_2|done].
      * destruct (Hspec info Hin). by apply Hmapped.
    + unfold Mutter.find_target. intros Hnone.
      destruct (Mutter.find_mapped_monitor _ _) as [info0|]; [|done].
      destruct Hspec as (j & Hj & Hid & _). apply list_elem_of_lookup_2 in Hj.
      destruct (Hnone info0 Hj). by apply Hmapped.
    + intros target Ht. unfold Mutter.configure_monitor, Mutter.target_mode_id.
      rewrite Ht.
      destruct (Mutter.find_mode_for_resolution target _ _) as [id|].
      { cbn [Mutter.alm_monitors Mutter.alm_x Mutter.alm_y]. split; [by eexists|done]. }
      destruct (Mutter.current_mode_id target) as [id|]; [|done].
      cbn [Mutter.alm_monitors Mutter.alm_x Mutter.alm_y]. split; [by eexists|done].
    + unfold Mutter.configure_monitor. by intros ->.
    + intros entries. apply (mutter_configure_monitors_omap monitors entries 0).
    + intros p entries replies Hp.
      unfold Mutter.vdagent_mutter_set_monitor_config. rewrite Hp.
      cbn [Mutter.call]. eexists. split; [reflexivity|].
      cbn [Mutter.amc_logical_monitors].
      apply (mutter_configure_monitors_omap _ entries 0).
Qed.

(** With "Virtual-2" mapped to display 0, entry 0 targets the second
    output, and the requests issued for it name that output's device 2:
    the first switches it on and one places it at the entry's position.
    In Mutter the logical monitor built for entry 0 names "Virtual-2". *)
Lemma target_by_mapping_then_index_witness :
  ((∃ o, o ∈ KWin.outputs (sample_kwin swapped_mapping sample_outputs)
         ∧ kwin_mapped_id swapped_mapping o = Some (Z.of_nat 0))
   ∧ ∃ j o, kwin_first_mapped (sample_kwin swapped_mapping sample_outputs) 0 j o
            ∧ KWin.find_output (sample_kwin swapped_mapping sample_outputs) 0 = Some o
            ∧ KWin.ko_device o = 2
            ∧ ∃ rest, KWin.configure_monitor (λ _, 256)
                        (sample_kwin swapped_mapping sample_outputs) 0 (entry 1280 1024 5 7)
                      = KWin.req_enable 2 1 :: rest
                      ∧ KWin.req_position 2 5 7 ∈ rest)
  ∧ (Z.of_nat 0 < 2 ^ 32 - 1
     ∧ ∃ target,
         Mutter.find_target
           (Mutter.parse_monitors_from_state (sample_mutter swapped_mapping) sample_state)
           0 = Some target
         ∧ Mutter.connector target = "Virtual-2"%string
         ∧ ∃ lm id,
             Mutter.configure_monitor
               (Mutter.parse_monitors_from_state (sample_mutter swapped_mapping)
                  sample_state) 0 (entry 1280 1024 5 7) = Some lm
             ∧ Mutter.alm_monitors lm
               = [{| Mutter.am_connector := "Virtual-2"; Mutter.am_mode_id := id |}]
             ∧ Mutter.alm_x lm = 5 ∧ Mutter.alm_y lm = 7).
Proof.
  split.
  - assert (Hex : ∃ o, o ∈ KWin.outputs (sample_kwin swapped_mapping sample_outputs)
                       ∧ kwin_mapped_id swapped_mapping o = Some (Z.of_nat 0)).
    { eexists. split; [apply list_elem_of_further, list_elem_of_here|].
      vm_compute. reflexivity. }
    split; [exact Hex|].
    destruct (proj1 target_by_mapping_then_index (λ _, 256)
                (sample_kwin swapped_mapping sample_outputs) 0%nat
                (entry 1280 1024 5 7))
      as (Hmapped & _ & Hconf & _).
    destruct (Hmapped Hex) as (j & o & Hfirst & Hfind).
    destruct (Hconf o Hfind) as (mode_part & Hreqs & _).
    assert (Hdev : KWin.ko_device o = 2).
    { revert Hfind. vm_compute. intros [= <-]. reflexivity. }
    exists j, o. split; [exact Hfirst|]. split; [exact Hfind|]. split; [exact Hdev|].
    rewrite Hdev in Hreqs. eexists. split; [exact Hreqs|].
    apply elem_of_app. right. apply list_elem_of_here.
  - split; [reflexivity|].
    destruct (proj2 target_by_mapping_then_index (sample_mutter swapped_mapping)
                sample_state 0%nat (entry 1280 1024 5 7) eq_refl)
      as (_ & _ & Hconf & _).
    eexists. split; [vm_compute; reflexivity|]. split; [reflexivity|].
    match type of Hconf with
    | ∀ target, ?t = Some target → _ =>
        specialize (Hconf _ ltac:(vm_compute; reflexivity))
    end.
    destruct (Mutter.configure_monitor _ 0 (entry 1280 1024 5 7)) as [lm|] eqn:Hlm.
    + destruct Hconf as ((id & Hmons) & Hx & Hy).
      exists lm, id. split; [reflexivity|]. split; [exact Hmons|]. split; [exact Hx|exact Hy].
    + vm_compute in Hlm. discriminate Hlm.
Defined.

(** ** The operation built for a target *)

(** C5, as stated, fails for KWin: for an output with no mode of the
    requested size and no current mode, the entry is not skipped; the
    enable, position, scale and transform requests are still issued. *)
Lemma mode_fallback_counterexample :
  KWin.kwin_find_mode bare_output 2560 1440 = None
  ∧ KWin.ko_current_mode bare_output = None
  ∧ KWin.configure_monitor sample_fixed (sample_kwin ∅ [bare_output]) 0
      (entry 2560 1440 0 0)
    = [KWin.req_enable 1 1; KWin.req_position 1 0 0; KWin.req_scale 1 256;
       KWin.req_transform 1 0].
Proof. repeat split; vm_compute; reflexivity. Qed.

(** C5, amended. When no mode of a resolved target has the requested
    width and height, the operation uses the target's current mode. When
    the target has no current mode either: Mutter skips the entry (no
    operation is built); KWin issues no mode request for the output but
    still issues its enable, position, scale and transform requests. In
    both backends the entries are handled one by one, so the apply goes on
    with the remaining entries. *)
Theorem mode_fallback_to_current :
  (∀ wl o mc,
     KWin.kwin_find_mode o (C.to_int (mc_width mc)) (C.to_int (mc_height mc)) = None →
     (∀ cur, KWin.ko_current_mode o = Some cur →
        KWin.configure_output wl o mc
        = [KWin.req_enable (KWin.ko_device o) 1;
           KWin.req_mode (KWin.ko_device o) (KWin.km_mode cur);
           KWin.req_position (KWin.ko_device o) (mc_x mc) (mc_y mc);
           KWin.req_scale (KWin.ko_device o) (wl (KWin.ko_scale o));
           KWin.req_transform (KWin.ko_device o) (KWin.ko_transform o)])
     ∧ (KWin.ko_current_mode o = None →
        KWin.configure_output wl o mc
        = [KWin.req_enable (KWin.ko_device o) 1;
           KWin.req_position (KWin.ko_device o) (mc_x mc) (mc_y mc);
           KWin.req_scale (KWin.ko_device o) (wl (KWin.ko_scale o));
           KWin.req_transform (KWin.ko_device o) (KWin.ko_transform o)]))
  ∧ (∀ wl k entries,
       KWin.configure_monitors wl k 0 entries
       = concat (imap (KWin.configure_monitor wl k) entries))
  ∧ (∀ monitors i mc target,
       Mutter.find_target monitors i = Some target →
       Mutter.find_mode_for_resolution target (C.to_int (mc_width mc))
         (C.to_int (mc_height mc)) = None →
       (∀ id, Mutter.current_mode_id target = Some id →
          ∃ lm, Mutter.configure_monitor monitors i mc = Some lm
                ∧ Mutter.alm_monitors lm
                  = [{| Mutter.am_connector := Mutter.connector target;
                        Mutter.am_mode_id := id |}])
       ∧ (Mutter.current_mode_id target = None →
          Mutter.configure_monitor monitors i mc = None))
  ∧ (∀ monitors entries,
       Mutter.configure_monitors monitors 0 entries
       = omap id (imap (Mutter.configure_monitor monitors) entries)).
Proof.
  split; [|split; [|split]].
  - intros wl o mc Hnone. unfold KWin.configure_output. rewrite Hnone.
    split; [intros cur ->|intros ->]; reflexivity.
  - intros wl k entries. apply (kwin_configure_monitors_concat wl k entries 0).
  - intros monitors i mc target Htarget Hnone.
    unfold Mutter.configure_monitor, Mutter.target_mode_id. rewrite Htarget, Hnone.
    split; [intros id ->|intros ->]; [|reflexivity].
    eexists. split; reflexivity.
  - intros monitors entries. apply (mutter_configure_monitors_omap monitors entries 0).
Qed.

(** No 2560x1440 mode on the first sample output: its current mode
    (handle 11) is requested. *)
Lemma mode_fallback_to_current_witness :
  KWin.kwin_find_mode (sample_output 1 (Some "Virtual-1"%string) 0 0 1920 1080
                         sample_modes (Some (sample_mode 11 1920 1080 60000 true)) true)
    (C.to_int 2560) (C.to_int 1440) = None
  ∧ KWin.configure_output sample_fixed
      (sample_output 1 (Some "Virtual-1"%string) 0 0 1920 1080
         sample_modes (Some (sample_mode 11 1920 1080 60000 true)) true)
      (entry 2560 1440 0 0)
    = [KWin.req_enable 1 1; KWin.req_mode 1 11; KWin.req_position 1 0 0;
       KWin.req_scale 1 256; KWin.req_transform 1 0].
Proof.
  split; [vm_compute; reflexivity|].
  apply (proj1 (proj1 mode_fallback_to_current sample_fixed
                  (sample_output 1 (Some "Virtual-1"%string) 0 0 1920 1080
                     sample_modes (Some (sample_mode 11 1920 1080 60000 true)) true)
                  (entry 2560 1440 0 0) ltac:(vm_compute; reflexivity))
               (sample_mode 11 1920 1080 60000 true) eq_refl).
Defined.

(** C7, as stated, fails for Mutter: when the logical monitor of the
    target reports the scale 0, the operation carries the scale 1.0. *)
Lemma scale_carried_counterexample :
  ∃ target lm,
    Mutter.find_target
      (Mutter.parse_monitors_from_state (sample_mutter sample_mapping) zero_scale_state) 0
    = Some target
    ∧ Mutter.current_scale target = C.double_0
    ∧ Mutter.configure_monitor
        (Mutter.parse_monitors_from_state (sample_mutter sample_mapping) zero_scale_state)
        0 (entry 1920 1080 0 0)
      = Some lm
    ∧ Mutter.alm_scale lm = C.double_1
    ∧ C.double_1 ≠ C.double_0.
Proof.
  eexists _, _. split; [vm_compute; reflexivity|]. split; [reflexivity|].
  split; [vm_compute; reflexivity|]. split; [reflexivity|]. discriminate.
Qed.

(** C7, amended. In every operation built for a resolved output the
    transform is the output's current transform and the position is the
    requested one. In KWin the scale sent is the output's current scale
    (as a [wl_fixed_t]). In Mutter the scale sent is the monitor's current
    scale when that is greater than 0, and 1.0 otherwise. *)
Theorem scale_and_transform_carried :
  (∀ wl o mc,
     let reqs := KWin.configure_output wl o mc in
     KWin.req_scale (KWin.ko_device o) (wl (KWin.ko_scale o)) ∈ reqs
     ∧ KWin.req_transform (KWin.ko_device o) (KWin.ko_transform o) ∈ reqs
     ∧ KWin.req_position (KWin.ko_device o) (mc_x mc) (mc_y mc) ∈ reqs
     ∧ (∀ d s, KWin.req_scale d s ∈ reqs →
               d = KWin.ko_device o ∧ s = wl (KWin.ko_scale o))
     ∧ (∀ d t, KWin.req_transform d t ∈ reqs →
               d = KWin.ko_device o ∧ t = KWin.ko_transform o)
     ∧ (∀ d x y, KWin.req_position d x y ∈ reqs →
                 d = KWin.ko_device o ∧ x = mc_x mc ∧ y = mc_y mc))
  ∧
  (∀ monitors i mc target lm,
     Mutter.find_target monitors i = Some target →
     Mutter.configure_monitor monitors i mc = Some lm →
     Mutter.alm_transform lm = Mutter.current_transform target
     ∧ Mutter.alm_x lm = mc_x mc ∧ Mutter.alm_y lm = mc_y mc
     ∧ (C.double_gt (Mutter.current_scale target) C.double_0 = true →
        Mutter.alm_scale lm = Mutter.current_scale target)
     ∧ (C.double_gt (Mutter.current_scale target) C.double_0 = false →
        Mutter.alm_scale lm = C.double_1)).
Proof.
  split.
  - intros wl o mc reqs. subst reqs. unfold KWin.configure_output.
    set (mode_part := match KWin.kwin_find_mode _ _ _ with
                      | Some m => [KWin.req_mode (KWin.ko_device o) (KWin.km_mode m)]
                      | None => match KWin.ko_current_mode o with
                                | Some cur => [KWin.req_mode (KWin.ko_device o) (KWin.km_mode cur)]
                                | None => []
                                end
                      end).
    assert (Hmode : ∀ r, r ∈ mode_part → ∃ d h, r = KWin.req_mode d h).
    { intros r Hr. subst mode_part.
      destruct (KWin.kwin_find_mode _ _ _) as [?|]; [|destruct (KWin.ko_current_mode o)];
        try (apply list_elem_of_singleton in Hr; eauto); by apply elem_of_nil in Hr. }
    assert (Hin : ∀ r, r ∈ [KWin.req_enable (KWin.ko_device o) 1] ++ mode_part ++
                        [KWin.req_position (KWin.ko_device o) (mc_x mc) (mc_y mc);
                         KWin.req_scale (KWin.ko_device o) (wl (KWin.ko_scale o));
                         KWin.req_transform (KWin.ko_device o) (KWin.ko_transform o)] →
                  r = KWin.req_enable (KWin.ko_device o) 1
                  ∨ (∃ d h, r = KWin.req_mode d h)
                  ∨ r = KWin.req_position (KWin.ko_device o) (mc_x mc) (mc_y mc)
                  ∨ r = KWin.req_scale (KWin.ko_device o) (wl (KWin.ko_scale o))
                  ∨ r = KWin.req_transform (KWin.ko_device o) (KWin.ko_transform o)).
    { intros r Hr. apply elem_of_app in Hr as [Hr|Hr].
      { apply list_elem_of_singleton in Hr. by left. }
      apply elem_of_app in Hr as [Hr|Hr].
      { right; left. by apply Hmode. }
      apply elem_of_cons in Hr as [->|Hr]; [by right; right; left|].
      apply elem_of_cons in Hr as [->|Hr]; [by right; right; right; left|].
      apply list_elem_of_singleton in Hr as ->. by right; right; right; right. }
    split; [|split; [|split; [|split; [|split]]]].
    + apply elem_of_app; right. apply elem_of_app; right.
      apply list_elem_of_further, list_elem_of_here.
    + apply elem_of_app; right. apply elem_of_app; right.
      apply list_elem_of_further, list_elem_of_further, list_elem_of_here.
    + apply elem_of_app; right. apply elem_of_app; right. apply list_elem_of_here.
    + intros d s Hr.
      apply Hin in Hr as [Hr|[(d' & h' & Hr)|[Hr|[Hr|Hr]]]]; by simplify_eq.
    + intros d t Hr.
      apply Hin in Hr as [Hr|[(d' & h' & Hr)|[Hr|[Hr|Hr]]]]; by simplify_eq.
    + intros d x y Hr.
      apply Hin in Hr as [Hr|[(d' & h' & Hr)|[Hr|[Hr|Hr]]]]; by simplify_eq.
  - intros monitors i mc target lm Htarget. unfold Mutter.configure_monitor.
    rewrite Htarget. destruct (Mutter.target_mode_id target mc); [|done].
    intros [= <-]. cbn. repeat split; by intros ->.
Qed.

(** The second sample monitor keeps its scale 1.0 and is placed at the
    requested position. *)
Lemma scale_and_transform_carried_witness :
  ∃ target lm,
    Mutter.find_target
      (Mutter.parse_monitors_from_state (sample_mutter sample_mapping) sample_state) 1
    = Some target
    ∧ Mutter.configure_monitor
        (Mutter.parse_monitors_from_state (sample_mutter sample_mapping) sample_state)
        1 (entry 1280 1024 1920 0)
      = Some lm
    ∧ Mutter.alm_transform lm = Mutter.current_transform target
    ∧ Mutter.alm_x lm = 1920 ∧ Mutter.alm_y lm = 0
    ∧ Mutter.alm_scale lm = C.double_1.
Proof.
  eexists _, _.
  assert (Ht : Mutter.find_target
                 (Mutter.parse_monitors_from_state (sample_mutter sample_mapping)
                    sample_state) 1 = Some _) by (vm_compute; reflexivity).
  assert (Hc : Mutter.configure_monitor
                 (Mutter.parse_monitors_from_state (sample_mutter sample_mapping)
                    sample_state) 1 (entry 1280 1024 1920 0) = Some _)
    by (vm_compute; reflexivity).
  split; [exact Ht|]. split; [exact Hc|].
  destruct (proj2 scale_and_transform_carried _ _ _ _ _ Ht Hc)
    as (Htr & Hx & Hy & Hscale & _).
  split; [exact Htr|]. split; [exact Hx|]. split; [exact Hy|].
  rewrite Hscale; [reflexivity|]. vm_compute. reflexivity.
Defined.

(** ** The primary monitor in Mutter *)

Lemma mutter_configure_monitor_primary monitors i mc lm :
  Mutter.configure_monitor monitors i mc = Some lm →
  Mutter.alm_primary lm = bool_decide (i = 0%nat).
Proof.
  unfold Mutter.configure_monitor.
  destruct (Mutter.find_target monitors i) as [target|]; [|done].
  destruct (Mutter.target_mode_id target mc); [|done].
  by intros [= <-].
Qed.

Lemma mutter_later_entries_not_primary monitors entries :
  ∀ i, (0 < i)%nat →
       Forall (λ lm, Mutter.alm_primary lm = false)
              (Mutter.configure_monitors monitors i entries).
Proof.
  induction entries as [|mc entries IH]; intros i Hi; simpl; [constructor|].
  destruct (Mutter.configure_monitor monitors i mc) as [lm|] eqn:Hlm.
  - constructor; [|apply IH; lia].
    rewrite (mutter_configure_monitor_primary _ _ _ _ Hlm).
    apply bool_decide_eq_false_2. lia.
  - apply IH. lia.
Qed.

(** C10, as stated, fails: an apply does not always make the layout's
    first entry the primary monitor. When the monitor of entry 0 is
    switched off and lists no mode of the requested size, entry 0 is
    skipped; the call submitted carries the operation of entry 1 alone,
    marked non-primary, so that it names no primary monitor at all. *)
Lemma first_entry_primary_counterexample :
  let monitors :=
    Mutter.parse_monitors_from_state (sample_mutter sample_mapping) state_with_idle_first in
  let out :=
    Mutter.vdagent_mutter_set_monitor_config (Some (sample_mutter sample_mapping))
      (Some sample_layout) (Some state_with_idle_first) (λ _, true) in
  Mutter.configure_monitor monitors 0 (entry 1920 1080 0 0) = None
  ∧ call_primaries <$> Mutter.call out = Some [(["Virtual-2"%string], false)].
Proof. vm_compute. repeat split. Qed.

(** C10, amended. In Mutter an operation built from the entry at index 0
    of the requested layout is marked primary and every other operation
    is marked non-primary, whatever monitor the backend reports as
    primary. So the list of operations of a call has a primary operation
    exactly when entry 0 is built, and then it is the first, built from
    entry 0; when entry 0 is skipped, or the layout is empty, no
    operation of the call is primary. In the sample state the backend
    reports "Virtual-2" as primary; the call sent for the sample layout
    marks the operation of "Virtual-1" primary and that of "Virtual-2"
    non-primary. *)
Theorem first_entry_is_primary :
  (∀ monitors i mc lm,
     Mutter.configure_monitor monitors i mc = Some lm →
     Mutter.alm_primary lm = bool_decide (i = 0%nat))
  ∧ (∀ monitors mc entries,
       Mutter.configure_monitors monitors 0 (mc :: entries)
       = from_option (λ lm, [lm]) [] (Mutter.configure_monitor monitors 0 mc)
         ++ Mutter.configure_monitors monitors 1 entries
       ∧ Forall (λ lm, Mutter.alm_primary lm = true)
                (from_option (λ lm, [lm]) [] (Mutter.configure_monitor monitors 0 mc))
       ∧ Forall (λ lm, Mutter.alm_primary lm = false)
                (Mutter.configure_monitors monitors 1 entries))
  ∧ (∀ mu p v entries replies,
       Mutter.dbus_proxy mu = Some p →
       let monitors := Mutter.parse_monitors_from_state mu v in
       ∃ c,
         Mutter.call (Mutter.vdagent_mutter_set_monitor_config (Some mu) (Some entries)
                        (Some v) replies) = Some c
         ∧ match entries with
           | [] => Mutter.amc_logical_monitors c = []
           | mc :: rest =>
               match Mutter.configure_monitor monitors 0 mc with
               | Some lm0 =>
                   ∃ others, Mutter.amc_logical_monitors c = lm0 :: others
                             ∧ Mutter.alm_primary lm0 = true
                             ∧ Forall (λ lm, Mutter.alm_primary lm = false) others
               | None =>
                   Forall (λ lm, Mutter.alm_primary lm = false)
                          (Mutter.amc_logical_monitors c)
               end
           end)
  ∧ (Mutter.is_primary <$>
       Mutter.parse_monitors_from_state (sample_mutter sample_mapping) sample_state)
    = [false; true]
  ∧ (∀ replies,
       call_primaries
       <$> Mutter.call
             (Mutter.vdagent_mutter_set_monitor_config
                (Some (sample_mutter sample_mapping)) (Some sample_layout)
                (Some sample_state) replies)
       = Some [(["Virtual-1"%string], true); (["Virtual-2"%string], false)]).
Proof.
  split; [|split; [|split; [|split]]].
  - apply mutter_configure_monitor_primary.
  - intros monitors mc entries. split; [|split].
    + simpl. by destruct (Mutter.configure_monitor monitors 0 mc).
    + destruct (Mutter.configure_monitor monitors 0 mc) as [lm|] eqn:Hlm;
        simpl; [|constructor].
      constructor; [|constructor].
      by rewrite (mutter_configure_monitor_primary _ _ _ _ Hlm).
    + apply mutter_later_entries_not_primary. lia.
  - intros mu p v entries replies Hp monitors.
    unfold Mutter.vdagent_mutter_set_monitor_config. rewrite Hp.
    cbn [Mutter.call]. eexists. split; [reflexivity|].
    cbn [Mutter.amc_logical_monitors]. fold monitors.
    destruct entries as [|mc rest]; [done|].
    cbn [Mutter.configure_monitors].
    destruct (Mutter.configure_monitor monitors 0 mc) as [lm0|] eqn:Hlm.
    + eexists. split; [reflexivity|]. split.
      * by rewrite (mutter_configure_monitor_primary _ _ _ _ Hlm).
      * apply mutter_later_entries_not_primary. lia.
    + apply mutter_later_entries_not_primary. lia.
  - vm_compute. reflexivity.
  - intros replies. vm_compute. reflexivity.
Qed.

(** The operation built from entry 0 of the sample layout is primary.
    With the first monitor switched off, entry 0 is skipped and no
    operation of the call is primary. *)
Lemma first_entry_is_primary_witness :
  (∃ lm,
     Mutter.configure_monitor
       (Mutter.parse_monitors_from_state (sample_mutter sample_mapping) sample_state)
       0 (entry 1920 1080 0 0)
     = Some lm
     ∧ Mutter.alm_primary lm = true)
  ∧ (Mutter.dbus_proxy (sample_mutter sample_mapping) = Some 1
     ∧ ∃ c,
         Mutter.call (Mutter.vdagent_mutter_set_monitor_config
                        (Some (sample_mutter sample_mapping)) (Some sample_layout)
                        (Some state_with_idle_first) (λ _, true)) = Some c
         ∧ Forall (λ lm, Mutter.alm_primary lm = false) (Mutter.amc_logical_monitors c)).
Proof.
  split.
  - eexists.
    assert (Hc : Mutter.configure_monitor
                   (Mutter.parse_monitors_from_state (sample_mutter sample_mapping)
                      sample_state) 0 (entry 1920 1080 0 0) = Some _)
      by (vm_compute; reflexivity).
    split; [exact Hc|].
    rewrite (proj1 first_entry_is_primary _ _ _ _ Hc). reflexivity.
  - split; [reflexivity|].
    destruct (proj1 (proj2 (proj2 first_entry_is_primary))
                (sample_mutter sample_mapping) 1 state_with_idle_first sample_layout
                (λ _, true) eq_refl) as (c & Hcall & Hflags).
    exists c. split; [exact Hcall|]. exact Hflags.
Defined.

(** * Further properties of the two backends *)

(** ** What a discovery result contains *)

Lemma geometry_set_display_id r id : geometry (set_display_id r id) = geometry r.
Proof. reflexivity. Qed.

Lemma geometry_indexed (l : list vdagentd_guest_xorg_resolution) :
  geometry <$> indexed l = geometry <$> l.
Proof.
  unfold indexed. rewrite fmap_imap.
  rewrite (imap_ext _ (λ _, geometry) l) by done. apply imap_const.
Qed.

Lemma elem_of_indexed (l : list vdagentd_guest_xorg_resolution) r :
  r ∈ indexed l → ∃ r0 id, r0 ∈ l ∧ r = set_display_id r0 id.
Proof.
  unfold indexed. intros Hr. apply elem_of_lookup_imap_1 in Hr as (i & r0 & -> & Hi).
  exists r0, (C.to_int (Z.of_nat i)). split; [|done]. by eapply list_elem_of_lookup_2.
Qed.

Lemma omap_geometry_sublist {A : Type} (f : A → option vdagentd_guest_xorg_resolution)
    (g : A → vdagentd_guest_xorg_resolution) (l : list A) :
  (∀ x y, f x = Some y → geometry y = geometry (g x)) →
  (geometry <$> omap f l) `sublist_of` (geometry <$> (g <$> l)).
Proof.
  intros Hfg. induction l as [|x l IH]; [constructor|].
  cbn [omap list_omap fmap list_fmap].
  destruct (f x) as [y|] eqn:Hfx.
  - cbn [fmap list_fmap]. rewrite (Hfg x y Hfx). by apply sublist_skip.
  - by apply sublist_cons.
Qed.

Lemma to_int_range z : - 2 ^ 31 ≤ C.to_int z < 2 ^ 31.
Proof.
  unfold C.to_int. pose proof (Z.mod_pos_bound (z + 2 ^ 31) (2 ^ 32)). lia.
Qed.

Lemma max_from_upper b l u : b ≤ u → (∀ e, e ∈ l → e ≤ u) → max_from b l ≤ u.
Proof.
  intros Hb Hl. destruct (max_from_attained b l) as [->|Hin]; [done|by apply Hl].
Qed.

(** X1. The records of a discovery result are a selection, in discovery
    order, of the enabled, ready outputs: resolving the identifiers
    changes neither size nor position, adds no record and reorders none.
    So a result never has more records than there are enabled, ready
    outputs, and in the fallback branch it has exactly as many. *)
Theorem discovery_records_are_ready_outputs :
  (∀ k res w h n,
     KWin.vdagent_kwin_get_resolutions (Some k) = Some (res, w, h, n) →
     (geometry <$> res)
       `sublist_of` (geometry <$> (KWin.output_resolution <$> kwin_ready_outputs k))
     ∧ (length res ≤ length (kwin_ready_outputs k))%nat
     ∧ ((∀ o, o ∈ kwin_ready_outputs k →
              KWin.lookup_connector (KWin.connector_mapping k) o = None) →
        geometry <$> res = geometry <$> (KWin.output_resolution <$> kwin_ready_outputs k)))
  ∧
  (∀ mu v curr0 w0 h0 res w h n,
     Mutter.vdagent_mutter_get_resolutions (Some mu) (Some v) curr0 w0 h0
     = Some (res, w, h, n) →
     let en := mutter_enabled (Mutter.cs_logical_monitors v) curr0 (Mutter.cs_monitors v) in
     (geometry <$> res) `sublist_of` (geometry <$> (snd <$> en))
     ∧ (length res ≤ length en)%nat
     ∧ ((∀ cr, cr ∈ en → Mutter.connector_mapping mu !! cr.1 = None) →
        geometry <$> res = geometry <$> (snd <$> en))).
Proof.
  split.
  - intros k res w h n Hcall.
    assert (Hm : ∃ hd, KWin.output_management k = Some hd).
    { unfold KWin.vdagent_kwin_get_resolutions in Hcall.
      destruct (KWin.output_management k); [by eexists|done]. }
    destruct Hm as [hd Hm].
    rewrite (kwin_get_resolutions_spec k hd Hm) in Hcall. cbv zeta in Hcall.
    assert (Hsub : (geometry <$> res) `sublist_of`
                   (geometry <$> (KWin.output_resolution <$> kwin_ready_outputs k))).
    { destruct (omap _ (kwin_ready_outputs k)) as [|r rs] eqn:Hmapped; simplify_eq.
      - rewrite geometry_indexed. reflexivity.
      - rewrite <- Hmapped. apply omap_geometry_sublist.
        intros o y. unfold kwin_mapped_resolution.
        destruct (KWin.lookup_connector _ o); [|done]. by intros [= <-]. }
    split; [exact Hsub|]. split.
    + apply sublist_length in Hsub. by rewrite !length_fmap in Hsub.
    + intros Hnone.
      assert (Hnil : omap (kwin_mapped_resolution (KWin.connector_mapping k))
                       (kwin_ready_outputs k) = []).
      { apply omap_nil_iff. intros o Ho. unfold kwin_mapped_resolution.
        by rewrite (Hnone o Ho). }
      rewrite Hnil in Hcall. simplify_eq. apply geometry_indexed.
  - intros mu v curr0 w0 h0 res w h n Hcall en.
    rewrite mutter_get_resolutions_spec in Hcall. cbv zeta in Hcall. fold en in Hcall.
    assert (Hsub : (geometry <$> res) `sublist_of` (geometry <$> (snd <$> en))).
    { destruct (omap _ en) as [|r rs] eqn:Hmapped; simplify_eq.
      - rewrite geometry_indexed. reflexivity.
      - rewrite <- Hmapped. apply omap_geometry_sublist.
        intros cr y. unfold mutter_mapped_resolution.
        destruct (GLib.g_hash_table_lookup_extended _ _); [|done]. by intros [= <-]. }
    split; [exact Hsub|]. split.
    + apply sublist_length in Hsub. by rewrite !length_fmap in Hsub.
    + intros Hnone.
      assert (Hnil : omap (mutter_mapped_resolution (Mutter.connector_mapping mu)) en = []).
      { apply omap_nil_iff. intros cr Hcr. unfold mutter_mapped_resolution.
        unfold GLib.g_hash_table_lookup_extended. by rewrite (Hnone cr Hcr). }
      rewrite Hnil in Hcall. simplify_eq. apply geometry_indexed.
Qed.

(** The sample outputs with only "Virtual-2" mapped: one record, that of
    the second output. *)
Lemma discovery_records_are_ready_outputs_witness :
  KWin.vdagent_kwin_get_resolutions (Some (sample_kwin swapped_mapping sample_outputs))
  = Some ([resolution 1280 1024 1920 0 0], 3200, 1080, 2)
  ∧ (length [resolution 1280 1024 1920 0 0]
     ≤ length (kwin_ready_outputs (sample_kwin swapped_mapping sample_outputs)))%nat.
Proof.
  assert (Hcall : KWin.vdagent_kwin_get_resolutions
                    (Some (sample_kwin swapped_mapping sample_outputs))
                  = Some ([resolution 1280 1024 1920 0 0], 3200, 1080, 2))
    by (vm_compute; reflexivity).
  split; [exact Hcall|].
  exact (proj1 (proj2 (proj1 discovery_records_are_ready_outputs _ _ _ _ _ Hcall))).
Defined.

Lemma bottom_edge_set_display_id r id : bottom_edge (set_display_id r id) = bottom_edge r.
Proof. reflexivity. Qed.

Lemma max_from_int_range l :
  (∀ e, e ∈ l → - 2 ^ 31 ≤ e < 2 ^ 31) → 0 ≤ max_from 0 l < 2 ^ 31.
Proof.
  intros Hl. split; [apply max_from_ge_base|].
  destruct (max_from_attained 0 l) as [->|Hin]; [lia|]. by apply Hl.
Qed.

(** X2. The desktop bounds of a discovery result enclose every record of it:
    no record reaches beyond the returned width or height. The bounds of
    KWin are moreover non-negative [int]s; those of Mutter are never below
    the values the caller passed in. *)
Theorem desktop_bounds_enclose_records :
  (∀ k res w h n,
     KWin.vdagent_kwin_get_resolutions (Some k) = Some (res, w, h, n) →
     0 ≤ w < 2 ^ 31 ∧ 0 ≤ h < 2 ^ 31
     ∧ ∀ r, r ∈ res → right_edge r ≤ w ∧ bottom_edge r ≤ h)
  ∧
  (∀ mu v curr0 w0 h0 res w h n,
     Mutter.vdagent_mutter_get_resolutions (Some mu) (Some v) curr0 w0 h0
     = Some (res, w, h, n) →
     w0 ≤ w ∧ h0 ≤ h
     ∧ ∀ r, r ∈ res → right_edge r ≤ w ∧ bottom_edge r ≤ h).
Proof.
  split.
  - intros k res w h n Hcall.
    assert (Hm : ∃ hd, KWin.output_management k = Some hd).
    { unfold KWin.vdagent_kwin_get_resolutions in Hcall.
      destruct (KWin.output_management k); [by eexists|done]. }
    destruct Hm as [hd Hm].
    rewrite (kwin_get_resolutions_spec k hd Hm) in Hcall. cbv zeta in Hcall.
    assert (Hfrom : ∀ r, r ∈ res →
              ∃ o id, o ∈ kwin_ready_outputs k
                      ∧ r = set_display_id (KWin.output_resolution o) id).
    { intros r Hr.
      destruct (omap _ (kwin_ready_outputs k)) as [|r1 rs] eqn:Hmapped; simplify_eq.
      - apply elem_of_indexed in Hr as (r0 & id & Hr0 & ->).
        apply list_elem_of_fmap in Hr0 as (o & -> & Ho). by exists o, id.
      - rewrite <- Hmapped in Hr. apply list_elem_of_omap in Hr as (o & Ho & Hres).
        unfold kwin_mapped_resolution in Hres.
        destruct (KWin.lookup_connector _ o); simplify_eq/=. by eexists o, _. }
    simplify_eq. split; [|split].
    + apply max_from_int_range. intros e He.
      apply list_elem_of_fmap in He as (o & -> & _). apply to_int_range.
    + apply max_from_int_range. intros e He.
      apply list_elem_of_fmap in He as (o & -> & _). apply to_int_range.
    + intros r Hr. destruct (Hfrom r Hr) as (o & id & Ho & ->).
      rewrite right_edge_set_display_id, bottom_edge_set_display_id.
      split; apply max_from_ge_elem.
      * by apply (list_elem_of_fmap_2 (right_edge ∘ KWin.output_resolution)).
      * by apply (list_elem_of_fmap_2 (bottom_edge ∘ KWin.output_resolution)).
  - intros mu v curr0 w0 h0 res w h n Hcall.
    rewrite mutter_get_resolutions_spec in Hcall. cbv zeta in Hcall.
    set (en := mutter_enabled _ _ _) in Hcall.
    assert (Hfrom : ∀ r, r ∈ res → ∃ cr id, cr ∈ en ∧ r = set_display_id cr.2 id).
    { intros r Hr.
      destruct (omap _ en) as [|r1 rs] eqn:Hmapped; simplify_eq.
      - apply elem_of_indexed in Hr as (r0 & id & Hr0 & ->).
        apply list_elem_of_fmap in Hr0 as (cr & -> & Hcr). by exists cr, id.
      - rewrite <- Hmapped in Hr. apply list_elem_of_omap in Hr as (cr & Hcr & Hres).
        unfold mutter_mapped_resolution in Hres.
        destruct (GLib.g_hash_table_lookup_extended _ _); simplify_eq/=.
        by eexists cr, _. }
    simplify_eq. split; [apply max_from_ge_base|]. split; [apply max_from_ge_base|].
    intros r Hr. destruct (Hfrom r Hr) as (cr & id & Hcr & ->).
    rewrite right_edge_set_display_id, bottom_edge_set_display_id.
    split; apply max_from_ge_elem.
    + by apply (list_elem_of_fmap_2 (right_edge ∘ snd)).
    + by apply (list_elem_of_fmap_2 (bottom_edge ∘ snd)).
Qed.

(** Both sample records lie within the bounds (3200, 1080). *)
Lemma desktop_bounds_enclose_records_witness :
  KWin.vdagent_kwin_get_resolutions (Some (sample_kwin sample_mapping sample_outputs))
  = Some ([resolution 1920 1080 0 0 0; resolution 1280 1024 1920 0 1], 3200, 1080, 2)
  ∧ right_edge (resolution 1280 1024 1920 0 1) ≤ 3200
  ∧ bottom_edge (resolution 1280 1024 1920 0 1) ≤ 1080.
Proof.
  assert (Hcall : KWin.vdagent_kwin_get_resolutions
                    (Some (sample_kwin sample_mapping sample_outputs))
                  = Some ([resolution 1920 1080 0 0 0; resolution 1280 1024 1920 0 1],
                          3200, 1080, 2))
    by (vm_compute; reflexivity).
  split; [exact Hcall|].
  apply (proj2 (proj2 (proj1 desktop_bounds_enclose_records _ _ _ _ _ Hcall))).
  apply list_elem_of_further, list_elem_of_here.
Defined.

(** ** The apply call of KWin *)

(** The three ways an apply call of KWin can go: it returns at once; it
    returns after the opening round trip, for want of a configuration
    object; or it builds the configuration, submits it and waits. *)
Lemma kwin_apply_cases wl kwin mon_config config signals :
  (¬ (vdagent_kwin_is_available kwin = true ∧ is_Some mon_config)
   ∧ KWin.vdagent_kwin_set_monitor_config wl kwin mon_config config signals
     = {| KWin.ret := -1; KWin.requests := []; KWin.final := KWin.idle |})
  ∨ (vdagent_kwin_is_available kwin = true ∧ is_Some mon_config ∧ config = None
     ∧ KWin.vdagent_kwin_set_monitor_config wl kwin mon_config config signals
       = {| KWin.ret := -1; KWin.requests := [];
            KWin.final := KWin.refresh_roundtrip KWin.idle |})
  ∨ (vdagent_kwin_is_available kwin = true ∧ is_Some mon_config ∧ is_Some config
     ∧ ∃ k monitors,
         kwin = Some k ∧ mon_config = Some monitors
         ∧ let st := KWin.wait_for_result signals 50
                       (KWin.reset_flags (KWin.refresh_roundtrip KWin.idle)) in
           KWin.vdagent_kwin_set_monitor_config wl kwin mon_config config signals
           = {| KWin.ret := KWin.wait_result st;
                KWin.requests := KWin.configure_monitors wl k 0 monitors ++ [KWin.req_apply];
                KWin.final := st |}).
Proof.
  unfold KWin.vdagent_kwin_set_monitor_config, vdagent_kwin_is_available.
  destruct kwin as [k|]; [|left; split; [by intros (? & _)|done]].
  destruct mon_config as [monitors|];
    [|left; split; [by intros (_ & [? ?])|done]].
  destruct (KWin.output_management k) as [hd|];
    [|left; split; [intros (Hav & _); by apply bool_decide_eq_true in Hav as [? ?]|done]].
  destruct config as [cfg|].
  - right. right. split; [by apply bool_decide_eq_true_2|]. split; [done|].
    split; [done|]. by exists k, monitors.
  - right. left. split; [by apply bool_decide_eq_true_2|]. done.
Qed.

(** X3. Whatever the compositor sends, and whether or not the call gets as
    far as the wait, an apply call of KWin makes at most 51 round trips:
    the one that opens it and at most 50 in the wait. It makes none
    exactly when it lacks the instance, the management protocol or the
    layout. It sleeps at most 5 seconds in all, in steps of 100 ms: one
    sleep after every round trip of the wait that set no flag, none after
    the opening one. A flag is set only by a round trip of the wait. The
    call returns 0 or -1, and 0 only when it was available, was given a
    layout and a configuration object, and ended with [config_applied]
    set and [config_failed] clear. *)
Theorem kwin_wait_is_bounded wl kwin mon_config config signals :
  let out := KWin.vdagent_kwin_set_monitor_config wl kwin mon_config config signals in
  let st := KWin.final out in
  let in_wait := Z.of_nat (Nat.pred (KWin.roundtrips st)) in
  (KWin.roundtrips st ≤ 51)%nat
  ∧ (KWin.roundtrips st = 0%nat
     ↔ ¬ (vdagent_kwin_is_available kwin = true ∧ is_Some mon_config))
  ∧ (config = None → (KWin.roundtrips st ≤ 1)%nat)
  ∧ 0 ≤ KWin.slept_usec st ≤ 5000000
  ∧ KWin.slept_usec st
    = 100000 * (if KWin.config_applied st || KWin.config_failed st
                then in_wait - 1 else in_wait)
  ∧ (KWin.config_applied st || KWin.config_failed st = true →
     (2 ≤ KWin.roundtrips st)%nat)
  ∧ (KWin.ret out = 0 ∨ KWin.ret out = -1)
  ∧ (KWin.ret out = 0
     ↔ KWin.config_applied st = true ∧ KWin.config_failed st = false
       ∧ vdagent_kwin_is_available kwin = true
       ∧ is_Some mon_config ∧ is_Some config).
Proof.
  intros out st in_wait. subst in_wait st out.
  destruct (kwin_apply_cases wl kwin mon_config config signals)
    as [[Hnot ->]|[(Hav & Hmon & -> & ->)
                  |(Hav & Hmon & Hcfg & k & monitors & -> & -> & ->)]].
  - cbn. split; [lia|]. split; [done|]. split; [lia|]. split; [lia|]. split; [lia|].
    split; [done|]. split; [by right|]. split; [done|]. intros (? & _); done.
  - cbn. split; [lia|]. split; [split; [done|by intros []]|]. split; [lia|].
    split; [lia|]. split; [lia|]. split; [done|]. split; [by right|].
    split; [done|]. intros (? & _); done.
  - cbn [KWin.ret KWin.final]. rewrite kwin_wait_closed.
    pose proof (first_signal_spec signals 50 1) as Hspec.
    destruct (first_signal signals 1 50) as [r0|].
    + destruct Hspec as (k0 & -> & Hk0 & _ & Hsig).
      pose proof (some_event_sets_a_flag _ Hsig) as Hflag.
      unfold KWin.wait_result.
      cbn [KWin.config_applied KWin.config_failed KWin.roundtrips KWin.slept_usec].
      rewrite Hflag. split; [lia|].
      split; [split; [done|by intros []]|].
      split; [by destruct Hcfg as [? ->]|].
      split; [lia|]. split; [cbn [Nat.pred]; lia|]. split; [lia|].
      destruct (bool_decide (KWin.ev_failed ∈ signals (1 + k0)%nat)),
        (bool_decide (KWin.ev_applied ∈ signals (1 + k0)%nat)); cbn [negb];
        (split; [auto|]); (split; [try done; by intros _|try done; by intros (? & ? & _)]).
    + unfold KWin.wait_result.
      cbn [KWin.config_applied KWin.config_failed KWin.roundtrips KWin.slept_usec negb orb].
      split; [lia|]. split; [split; [done|by intros []]|].
      split; [by destruct Hcfg as [? ->]|].
      split; [lia|]. split; [cbn [Nat.pred]; lia|]. split; [done|]. split; [by right|].
      split; [done|]. by intros (? & _).
Qed.

Lemma kwin_find_output_elem k i o :
  KWin.find_output k i = Some o → o ∈ KWin.outputs k.
Proof.
  unfold KWin.find_output.
  pose proof (kwin_find_mapped_output_spec (KWin.connector_mapping k)
                (KWin.outputs k) (Z.of_nat i)) as Hspec.
  destruct (KWin.find_mapped_output _ _ _) as [o0|].
  - intros [= <-]. destruct Hspec as (j & Hj & _). by eapply list_elem_of_lookup_2.
  - apply list_elem_of_lookup_2.
Qed.

Lemma kwin_configure_output_requests wl o mc r :
  r ∈ KWin.configure_output wl o mc →
  request_device r = Some (KWin.ko_device o)
  ∧ (∀ d on, r = KWin.req_enable d on → on = 1).
Proof.
  unfold KWin.configure_output. intros Hr.
  apply elem_of_app in Hr as [Hr|Hr].
  { apply list_elem_of_singleton in Hr as ->. split; [done|]. by intros d on [= _ <-]. }
  apply elem_of_app in Hr as [Hr|Hr].
  { destruct (KWin.kwin_find_mode _ _ _) as [m|]; [|destruct (KWin.ko_current_mode o)];
      try (apply list_elem_of_singleton in Hr as ->; by split);
      by apply elem_of_nil in Hr. }
  apply elem_of_cons in Hr as [->|Hr]; [by split|].
  apply elem_of_cons in Hr as [->|Hr]; [by split|].
  apply list_elem_of_singleton in Hr as ->. by split.
Qed.

Lemma kwin_configure_output_length wl o mc :
  (length (KWin.configure_output wl o mc) ≤ 5)%nat.
Proof.
  unfold KWin.configure_output. rewrite !length_app.
  destruct (KWin.kwin_find_mode _ _ _); [|destruct (KWin.ko_current_mode o)];
    simpl; lia.
Qed.

Lemma kwin_configure_monitors_requests wl k entries :
  ∀ i r, r ∈ KWin.configure_monitors wl k i entries →
         ∃ o, o ∈ KWin.outputs k
              ∧ request_device r = Some (KWin.ko_device o)
              ∧ (∀ d on, r = KWin.req_enable d on → on = 1).
Proof.
  induction entries as [|mc entries IH]; intros i r Hr; simpl in Hr.
  - by apply elem_of_nil in Hr.
  - apply elem_of_app in Hr as [Hr|Hr]; [|by eapply IH].
    unfold KWin.configure_monitor in Hr.
    destruct (KWin.find_output k i) as [o|] eqn:Ho; [|by apply elem_of_nil in Hr].
    exists o. split; [by eapply kwin_find_output_elem|].
    by eapply kwin_configure_output_requests.
Qed.

Lemma kwin_configure_monitors_length wl k entries :
  ∀ i, (length (KWin.configure_monitors wl k i entries) ≤ 5 * length entries)%nat.
Proof.
  induction entries as [|mc entries IH]; intros i; simpl; [lia|].
  rewrite length_app. specialize (IH (S i)).
  assert (length (KWin.configure_monitor wl k i mc) ≤ 5)%nat; [|lia].
  unfold KWin.configure_monitor. destruct (KWin.find_output k i); [|simpl; lia].
  apply kwin_configure_output_length.
Qed.

(** X4. When the apply call of KWin gets to build a configuration, what it
    sends is a list of per-output requests followed by one [apply], the
    last request. Every per-output request names the device of an output
    of the snapshot, every [enable] request switches the output on, and
    an entry gives rise to at most five requests. *)
Theorem kwin_requests_name_snapshot_outputs wl k hd monitors cfg signals :
  KWin.output_management k = Some hd →
  ∃ body,
    KWin.requests (KWin.vdagent_kwin_set_monitor_config wl (Some k) (Some monitors)
                     (Some cfg) signals)
    = body ++ [KWin.req_apply]
    ∧ (KWin.req_apply ∉ body)
    ∧ (length body ≤ 5 * length monitors)%nat
    ∧ ∀ r, r ∈ body →
           ∃ o, o ∈ KWin.outputs k
                ∧ request_device r = Some (KWin.ko_device o)
                ∧ (∀ d on, r = KWin.req_enable d on → on = 1).
Proof.
  intros Hm. unfold KWin.vdagent_kwin_set_monitor_config. rewrite Hm.
  cbn [KWin.requests]. exists (KWin.configure_monitors wl k 0 monitors).
  split; [done|]. split; [|split].
  - intros Hin. apply kwin_configure_monitors_requests in Hin as (o & _ & Hdev & _).
    discriminate.
  - apply kwin_configure_monitors_length.
  - apply kwin_configure_monitors_requests.
Qed.

(** The sample layout on the sample outputs: ten requests and the final
    [apply]. *)
Lemma kwin_requests_name_snapshot_outputs_witness :
  KWin.output_management (sample_kwin sample_mapping sample_outputs) = Some 1
  ∧ ∃ body,
      KWin.requests (KWin.vdagent_kwin_set_monitor_config sample_fixed
                       (Some (sample_kwin sample_mapping sample_outputs))
                       (Some sample_layout) (Some 1) never_answers)
      = body ++ [KWin.req_apply]
      ∧ (length body ≤ 10)%nat.
Proof.
  split; [reflexivity|].
  destruct (kwin_requests_name_snapshot_outputs sample_fixed
              (sample_kwin sample_mapping sample_outputs) 1 sample_layout 1
              never_answers eq_refl) as (body & Hreq & _ & Hlen & _).
  exists body. split; [exact Hreq|exact Hlen].
Defined.

(** X5. An instance of KWin answers discovery exactly when
    [vdagent_kwin_is_available] says it is available. An apply call that
    lacks the instance, the management protocol or the layout returns -1
    at once: it sends no request, makes no round trip and does not sleep.
    An apply call that has them but gets no configuration object returns
    -1 after the round trip that opens the call: it has made exactly that
    one round trip, has sent no request and has not slept. *)
Theorem kwin_unavailable_is_inert :
  (∀ kwin,
     vdagent_kwin_is_available kwin = true
     ↔ is_Some (KWin.vdagent_kwin_get_resolutions kwin))
  ∧ (∀ wl kwin mon_config config signals,
       ¬ (vdagent_kwin_is_available kwin = true ∧ is_Some mon_config) →
       let out := KWin.vdagent_kwin_set_monitor_config wl kwin mon_config config signals in
       KWin.ret out = -1 ∧ KWin.requests out = []
       ∧ KWin.roundtrips (KWin.final out) = 0%nat
       ∧ KWin.slept_usec (KWin.final out) = 0)
  ∧ (∀ wl kwin mon_config signals,
       vdagent_kwin_is_available kwin = true → is_Some mon_config →
       let out := KWin.vdagent_kwin_set_monitor_config wl kwin mon_config None signals in
       KWin.ret out = -1 ∧ KWin.requests out = []
       ∧ KWin.roundtrips (KWin.final out) = 1%nat
       ∧ KWin.slept_usec (KWin.final out) = 0).
Proof.
  split; [|split].
  - intros [k|]; cbn; [|split; [done|by intros [? ?]]].
    destruct (KWin.output_management k) as [hd|]; cbn.
    + split; [by eexists|done].
    + split; [done|by intros [? ?]].
  - intros wl kwin mon_config config signals Hnot out. subst out.
    destruct (kwin_apply_cases wl kwin mon_config config signals)
      as [[_ ->]|[(Hav & Hmon & _)|(Hav & Hmon & _)]]; [done| |]; by destruct Hnot.
  - intros wl kwin mon_config signals Hav Hmon out. subst out.
    destruct (kwin_apply_cases wl kwin mon_config None signals)
      as [[Hnot _]|[(_ & _ & _ & ->)|(_ & _ & [? ?] & _)]]; [by destruct Hnot|done|done].
Qed.

(** An instance without the management protocol: apply does nothing. The
    sample instance without a configuration object: apply makes its
    opening round trip and gives up. *)
Lemma kwin_unavailable_is_inert_witness :
  (let out := KWin.vdagent_kwin_set_monitor_config sample_fixed
                (Some {| KWin.output_management := None;
                         KWin.connector_mapping := sample_mapping;
                         KWin.outputs := sample_outputs;
                         KWin.output_management_version := 0 |})
                (Some sample_layout) (Some 1) confirms_third in
   KWin.ret out = -1 ∧ KWin.requests out = []
   ∧ KWin.roundtrips (KWin.final out) = 0%nat
   ∧ KWin.slept_usec (KWin.final out) = 0)
  ∧ (vdagent_kwin_is_available (Some (sample_kwin sample_mapping sample_outputs)) = true
     ∧ is_Some (Some sample_layout)
     ∧ let out := KWin.vdagent_kwin_set_monitor_config sample_fixed
                    (Some (sample_kwin sample_mapping sample_outputs))
                    (Some sample_layout) None confirms_third in
       KWin.ret out = -1 ∧ KWin.requests out = []
       ∧ KWin.roundtrips (KWin.final out) = 1%nat
       ∧ KWin.slept_usec (KWin.final out) = 0).
Proof.
  split.
  - apply (proj1 (proj2 kwin_unavailable_is_inert)). intros (Hav & _).
    vm_compute in Hav. discriminate.
  - split; [reflexivity|]. split; [by eexists|].
    apply (proj2 (proj2 kwin_unavailable_is_inert)); [reflexivity|by eexists].
Defined.

(** X6. The mode a request of KWin names is one the output itself reported.
    If some mode of the output has the requested size, the mode requested
    is a mode of the mode list with exactly that size; otherwise it is
    the output's current mode. No output gets more than one mode
    request. *)
Theorem kwin_mode_request_is_reported wl o mc :
  let w := C.to_int (mc_width mc) in
  let h := C.to_int (mc_height mc) in
  let reqs := KWin.configure_output wl o mc in
  (length (List.filter is_mode_request reqs) ≤ 1)%nat
  ∧ ∀ d hdl, KWin.req_mode d hdl ∈ reqs →
      d = KWin.ko_device o
      ∧ ((∃ m, m ∈ KWin.ko_modes o ∧ KWin.km_mode m = hdl ∧ kwin_mode_matches w h m)
         ∨ ((∀ m, m ∈ KWin.ko_modes o → ¬ kwin_mode_matches w h m)
            ∧ ∃ cur, KWin.ko_current_mode o = Some cur ∧ KWin.km_mode cur = hdl)).
Proof.
  intros w h reqs. subst reqs. unfold KWin.configure_output. fold w h.
  pose proof (kwin_find_mode_selected o w h) as Hsel.
  destruct (KWin.kwin_find_mode o w h) as [m|]; simpl in Hsel.
  - destruct Hsel as (i & Hi & Hm & _). split; [cbn; lia|].
    intros d hdl Hr. apply elem_of_cons in Hr as [Hr|Hr]; [done|].
    apply elem_of_cons in Hr as [Hr|Hr].
    + simplify_eq. split; [done|]. left. exists m.
      split; [by eapply list_elem_of_lookup_2|done].
    + repeat (apply elem_of_cons in Hr as [Hr|Hr]; [done|]). by apply elem_of_nil in Hr.
  - destruct (KWin.ko_current_mode o) as [cur|].
    + split; [cbn; lia|]. intros d hdl Hr.
      apply elem_of_cons in Hr as [Hr|Hr]; [done|].
      apply elem_of_cons in Hr as [Hr|Hr].
      * simplify_eq. split; [done|]. right. split; [done|]. by exists cur.
      * repeat (apply elem_of_cons in Hr as [Hr|Hr]; [done|]). by apply elem_of_nil in Hr.
    + split; [cbn; lia|]. intros d hdl Hr.
      repeat (apply elem_of_cons in Hr as [Hr|Hr]; [done|]). by apply elem_of_nil in Hr.
Qed.

(** The mode requested for 1920x1080 on the first sample output is the
    listed mode with handle 12. *)
Lemma kwin_mode_request_is_reported_witness :
  KWin.req_mode 1 12
    ∈ KWin.configure_output sample_fixed
        (sample_output 1 (Some "Virtual-1"%string) 0 0 1920 1080 sample_modes
           (Some (sample_mode 11 1920 1080 60000 true)) true)
        (entry 1920 1080 0 0)
  ∧ ∃ m, m ∈ sample_modes ∧ KWin.km_mode m = 12 ∧ kwin_mode_matches 1920 1080 m.
Proof.
  assert (Hin : KWin.req_mode 1 12
                  ∈ KWin.configure_output sample_fixed
                      (sample_output 1 (Some "Virtual-1"%string) 0 0 1920 1080 sample_modes
                         (Some (sample_mode 11 1920 1080 60000 true)) true)
                      (entry 1920 1080 0 0)).
  { apply list_elem_of_further, list_elem_of_here. }
  split; [exact Hin|].
  destruct (proj2 (kwin_mode_request_is_reported _ _ _) 1 12 Hin) as [_ [Hm|[Hnone _]]].
  - exact Hm.
  - exfalso. apply (Hnone (sample_mode 12 1920 1080 75000 false)).
    + apply list_elem_of_further, list_elem_of_here.
    + split; reflexivity.
Defined.

(** ** The apply call of Mutter *)

Lemma mutter_find_target_elem monitors i target :
  Mutter.find_target monitors i = Some target → target ∈ monitors.
Proof.
  unfold Mutter.find_target.
  pose proof (mutter_find_mapped_monitor_spec monitors (C.to_int (Z.of_nat i))) as Hspec.
  destruct (Mutter.find_mapped_monitor _ _) as [info|].
  - intros [= <-]. destruct Hspec as (j & Hj & _). by eapply list_elem_of_lookup_2.
  - apply list_elem_of_lookup_2.
Qed.

Lemma parse_monitor_modes_of m lms mon :
  Mutter.modes (Mutter.parse_monitor m lms mon)
  = Mutter.parse_monitor_modes (Mutter.mon_modes mon).
Proof.
  unfold Mutter.parse_monitor.
  by destruct (Mutter.find_logical_monitor_info lms _) as [[[[x y] sc] tr] prim].
Qed.

Lemma parse_monitor_current_mode_id m lms mon :
  Mutter.current_mode_id (Mutter.parse_monitor m lms mon)
  = Mutter.find_current_mode_id (Mutter.parse_monitor_modes (Mutter.mon_modes mon)).
Proof.
  unfold Mutter.parse_monitor.
  by destruct (Mutter.find_logical_monitor_info lms _) as [[[[x y] sc] tr] prim].
Qed.

Lemma parse_monitor_modes_ids (l : list Mutter.dbus_mode) :
  Mutter.mode_id <$> Mutter.parse_monitor_modes l = Mutter.dm_id <$> l.
Proof.
  unfold Mutter.parse_monitor_modes. induction l as [|m l IH]; [done|].
  cbn. f_equal. exact IH.
Qed.

Lemma find_current_mode_id_elem (ms : list Mutter.MutterModeInfo) id :
  Mutter.find_current_mode_id ms = Some id → id ∈ Mutter.mode_id <$> ms.
Proof.
  induction ms as [|m ms IH]; [done|]. cbn.
  destruct (Mutter.is_current m).
  - intros [= <-]. apply list_elem_of_here.
  - intros H. apply list_elem_of_further. by apply IH.
Qed.

Lemma find_mode_for_resolution_elem info w h id :
  Mutter.find_mode_for_resolution info w h = Some id →
  ∃ m, m ∈ Mutter.modes info ∧ Mutter.mode_id m = id ∧ mutter_mode_matches w h m.
Proof.
  unfold Mutter.find_mode_for_resolution.
  pose proof (mutter_best_mode_selected info w h) as Hsel.
  destruct (Mutter.best_mode info w h) as [m|]; [|done].
  intros [= <-]. destruct Hsel as (i & Hi & Hm & _).
  exists m. split; [by eapply list_elem_of_lookup_2|done].
Qed.

Lemma mutter_target_mode_id_elem target mc id :
  Mutter.target_mode_id target mc = Some id →
  Mutter.find_current_mode_id (Mutter.modes target) = Mutter.current_mode_id target →
  id ∈ Mutter.mode_id <$> Mutter.modes target.
Proof.
  unfold Mutter.target_mode_id. intros Hid Hcur.
  destruct (Mutter.find_mode_for_resolution _ _ _) as [id'|] eqn:Hfind.
  - simplify_eq. apply find_mode_for_resolution_elem in Hfind as (m & Hm & <- & _).
    by apply list_elem_of_fmap_2.
  - rewrite <- Hcur in Hid. by apply find_current_mode_id_elem.
Qed.

Lemma mutter_configure_monitors_elem monitors entries :
  ∀ i lm, lm ∈ Mutter.configure_monitors monitors i entries →
          ∃ j mc, Mutter.configure_monitor monitors j mc = Some lm.
Proof.
  induction entries as [|mc entries IH]; intros i lm Hlm; simpl in Hlm.
  - by apply elem_of_nil in Hlm.
  - destruct (Mutter.configure_monitor monitors i mc) as [lm'|] eqn:Hc.
    + apply elem_of_cons in Hlm as [->|Hlm]; [by exists i, mc|by eapply IH].
    + by eapply IH.
Qed.

Lemma mutter_configure_monitors_length monitors entries :
  ∀ i, (length (Mutter.configure_monitors monitors i entries) ≤ length entries)%nat.
Proof.
  induction entries as [|mc entries IH]; intros i; simpl; [lia|].
  specialize (IH (S i)).
  destruct (Mutter.configure_monitor monitors i mc); simpl; lia.
Qed.

(** X7. The ApplyMonitorsConfig call of Mutter carries the serial of the
    state it has just read, the method "temporary" and a 5000 ms timeout.
    It has at most one logical monitor per layout entry; each logical
    monitor holds exactly one monitor, whose connector is that of a
    monitor of the state and whose mode id is the id of one of that
    monitor's own modes. *)
Theorem mutter_call_names_reported_modes mu p entries v replies :
  Mutter.dbus_proxy mu = Some p →
  ∃ c,
    Mutter.call (Mutter.vdagent_mutter_set_monitor_config (Some mu) (Some entries)
                   (Some v) replies) = Some c
    ∧ Mutter.amc_serial c = Mutter.cs_serial v
    ∧ Mutter.amc_method c = 1
    ∧ Mutter.amc_timeout_msec c = 5000
    ∧ (length (Mutter.amc_logical_monitors c) ≤ length entries)%nat
    ∧ ∀ lm, lm ∈ Mutter.amc_logical_monitors c →
        ∃ mon id,
          mon ∈ Mutter.cs_monitors v
          ∧ Mutter.alm_monitors lm
            = [{| Mutter.am_connector := Mutter.ms_connector (Mutter.mon_spec mon);
                  Mutter.am_mode_id := id |}]
          ∧ id ∈ Mutter.dm_id <$> Mutter.mon_modes mon.
Proof.
  intros Hp. unfold Mutter.vdagent_mutter_set_monitor_config. rewrite Hp.
  cbn [Mutter.call]. eexists. split; [reflexivity|].
  cbn [Mutter.amc_serial Mutter.amc_method Mutter.amc_timeout_msec
       Mutter.amc_logical_monitors].
  split; [done|]. split; [done|]. split; [done|].
  split; [apply mutter_configure_monitors_length|].
  intros lm Hlm. apply mutter_configure_monitors_elem in Hlm as (j & mc & Hc).
  unfold Mutter.configure_monitor in Hc.
  destruct (Mutter.find_target _ j) as [target|] eqn:Ht; [|done].
  destruct (Mutter.target_mode_id target mc) as [id|] eqn:Hid; [|done].
  apply mutter_find_target_elem in Ht.
  unfold Mutter.parse_monitors_from_state in Ht.
  apply list_elem_of_fmap in Ht as (mon & -> & Hmon).
  exists mon, id. split; [done|]. split.
  - simplify_eq. cbn. by rewrite parse_monitor_connector.
  - rewrite <- parse_monitor_modes_ids, <- (parse_monitor_modes_of
      (Mutter.connector_mapping mu) (Mutter.cs_logical_monitors v)).
    eapply mutter_target_mode_id_elem; [done|].
    by rewrite parse_monitor_current_mode_id, parse_monitor_modes_of.
Qed.

(** The call sent for the sample layout names "Virtual-1" and
    "Virtual-2". *)
Lemma mutter_call_names_reported_modes_witness :
  Mutter.dbus_proxy (sample_mutter sample_mapping) = Some 1
  ∧ ∃ c,
      Mutter.call (Mutter.vdagent_mutter_set_monitor_config
                     (Some (sample_mutter sample_mapping)) (Some sample_layout)
                     (Some sample_state) (λ _, true)) = Some c
      ∧ Mutter.amc_serial c = 7
      ∧ (length (Mutter.amc_logical_monitors c) ≤ 2)%nat.
Proof.
  split; [reflexivity|].
  destruct (mutter_call_names_reported_modes (sample_mutter sample_mapping) 1
              sample_layout sample_state (λ _, true) eq_refl)
    as (c & Hc & Hserial & _ & _ & Hlen & _).
  exists c. split; [exact Hc|]. split; [exact Hserial|exact Hlen].
Defined.

(** X8. An apply call of Mutter sends ApplyMonitorsConfig exactly when it has
    an instance with a proxy, a layout and a current state; otherwise it
    returns -1 without calling. It returns 0 exactly when the call was
    sent and answered. Discovery returns [NULL] exactly when the instance
    or the current state is missing. *)
Theorem mutter_call_made_iff :
  (∀ mutter mon_config values replies,
     let out := Mutter.vdagent_mutter_set_monitor_config mutter mon_config values
                  replies in
     (is_Some (Mutter.call out)
      ↔ (∃ mu, mutter = Some mu ∧ is_Some (Mutter.dbus_proxy mu))
        ∧ is_Some mon_config ∧ is_Some values)
     ∧ (Mutter.ret out = 0 ∨ Mutter.ret out = -1)
     ∧ (Mutter.ret out = 0 ↔ ∃ c, Mutter.call out = Some c ∧ replies c = true))
  ∧ (∀ mutter values curr0 w0 h0,
       Mutter.vdagent_mutter_get_resolutions mutter values curr0 w0 h0 = None
       ↔ mutter = None ∨ values = None).
Proof.
  split.
  - intros mutter mon_config values replies out. subst out.
    unfold Mutter.vdagent_mutter_set_monitor_config.
    destruct mutter as [mu|].
    2:{ cbn. split; [|split; [by right|]].
        - split; [by intros [? ?]|]. by intros ((? & ? & _) & _).
        - split; [done|]. by intros (? & ? & _). }
    destruct mon_config as [entries|].
    2:{ cbn. split; [|split; [by right|]].
        - split; [by intros [? ?]|]. by intros (_ & [? ?] & _).
        - split; [done|]. by intros (? & ? & _). }
    destruct (Mutter.dbus_proxy mu) as [p|] eqn:Hp.
    2:{ cbn. split; [|split; [by right|]].
        - split; [by intros [? ?]|]. intros ((mu' & [= <-] & [? Hp']) & _). congruence.
        - split; [done|]. by intros (? & ? & _). }
    destruct values as [v|].
    2:{ cbn. split; [|split; [by right|]].
        - split; [by intros [? ?]|]. by intros (_ & _ & [? ?]).
        - split; [done|]. by intros (? & ? & _). }
    cbn [Mutter.call Mutter.ret]. split; [|split].
    + split; [intros _|by eexists]. split; [|done]. exists mu. split; [done|].
      rewrite Hp. by eexists.
    + destruct (replies _); [by left|by right].
    + destruct (replies _) eqn:Hr.
      * split; [intros _|done]. by eexists.
      * split; [done|]. intros (c & [= <-] & Hc). congruence.
  - intros mutter values curr0 w0 h0. unfold Mutter.vdagent_mutter_get_resolutions.
    destruct mutter, values; split; try done; try (by left); try (by right).
    by intros [?|?].
Qed.

(** Without a current state the call is not sent. *)
Lemma mutter_call_made_iff_witness :
  Mutter.call (Mutter.vdagent_mutter_set_monitor_config
                 (Some (sample_mutter sample_mapping)) (Some sample_layout) None
                 (λ _, true)) = None.
Proof.
  destruct (Mutter.call _) eqn:Hcall; [|reflexivity].
  assert (Hsome : is_Some (Mutter.call (Mutter.vdagent_mutter_set_monitor_config
                    (Some (sample_mutter sample_mapping)) (Some sample_layout) None
                    (λ _, true)))) by (rewrite Hcall; by eexists).
  apply (proj1 (proj1 mutter_call_made_iff _ _ _ _)) in Hsome as (_ & _ & [? Hv]).
  discriminate.
Defined.

(** ** Logical monitors in Mutter *)

Lemma has_connector_elem specs c :
  Mutter.has_connector specs c = true ↔ c ∈ Mutter.ms_connector <$> specs.
Proof.
  induction specs as [|s specs IH]; cbn.
  - split; [done|]. intros H. by apply elem_of_nil in H.
  - rewrite elem_of_cons. destruct (bool_decide (c = Mutter.ms_connector s)) eqn:Hd.
    + apply bool_decide_eq_true in Hd. split; [by left|done].
    + apply bool_decide_eq_false in Hd. rewrite IH. split; [by right|].
      by intros [?|?].
Qed.

Lemma has_connector_not_elem specs c :
  Mutter.has_connector specs c = false ↔ c ∉ Mutter.ms_connector <$> specs.
Proof.
  rewrite <- has_connector_elem. by destruct (Mutter.has_connector specs c).
Qed.

Lemma mutter_position_agrees lms c x0 y0 :
  lms ≠ [] →
  Mutter.vdagent_mutter_get_monitor_position lms c x0 y0
  = (Mutter.find_logical_monitor_info lms c).1.1.1.
Proof.
  assert (Hzero : ∀ ls,
            Mutter.vdagent_mutter_get_monitor_position ls c 0 0
            = (Mutter.find_logical_monitor_info ls c).1.1.1).
  { induction ls as [|l ls IH]; [done|]. cbn.
    by destruct (Mutter.has_connector (Mutter.lm_monitors l) c). }
  destruct lms as [|l lms]; [done|]. intros _. cbn.
  destruct (Mutter.has_connector (Mutter.lm_monitors l) c); [done|]. apply Hzero.
Qed.

(** X9. Both lookups of a connector among the logical monitors stop at the
    first logical monitor showing it and agree on its position; the
    lookup of the apply path takes scale, transform and primary flag from
    the same logical monitor. A connector shown by no logical monitor is
    placed at (0, 0) with scale 1.0, transform 0 and not primary; but with
    no logical monitor at all, the lookup of the discovery path leaves
    [*x] and [*y] as they were on entry. *)
Theorem mutter_position_lookup lms c x0 y0 :
  (∀ j lm,
     first_logical_monitor lms c j lm →
     Mutter.vdagent_mutter_get_monitor_position lms c x0 y0
     = (Mutter.lm_x lm, Mutter.lm_y lm)
     ∧ Mutter.find_logical_monitor_info lms c
       = (Mutter.lm_x lm, Mutter.lm_y lm, Mutter.lm_scale lm,
          Mutter.lm_transform lm, Mutter.lm_primary lm))
  ∧ ((∀ lm, lm ∈ lms → c ∉ lm_connectors lm) →
     Mutter.find_logical_monitor_info lms c = (0, 0, C.double_1, 0, false)
     ∧ Mutter.vdagent_mutter_get_monitor_position lms c x0 y0
       = match lms with [] => (x0, y0) | _ :: _ => (0, 0) end)
  ∧ (lms ≠ [] →
     Mutter.vdagent_mutter_get_monitor_position lms c x0 y0
     = (Mutter.find_logical_monitor_info lms c).1.1.1).
Proof.
  split; [|split].
  - revert x0 y0. induction lms as [|l lms IH]; intros x0 y0 j lm (Hj & Hc & Hfirst).
    + done.
    + cbn. destruct j as [|j].
      * cbn in Hj. simplify_eq. apply has_connector_elem in Hc. by rewrite Hc.
      * assert (Hl : Mutter.has_connector (Mutter.lm_monitors l) c = false).
        { apply has_connector_not_elem. apply (Hfirst 0%nat l); [lia|done]. }
        rewrite Hl. apply (IH 0 0 j lm). split; [done|]. split; [done|].
        intros j' lm' Hlt Hlook. apply (Hfirst (S j') lm'); [lia|done].
  - intros Hnone. split.
    + induction lms as [|l lms IH]; [done|]. cbn.
      assert (Hl : Mutter.has_connector (Mutter.lm_monitors l) c = false).
      { apply has_connector_not_elem. apply Hnone. apply list_elem_of_here. }
      rewrite Hl. apply IH. intros lm Hlm. apply Hnone. by apply list_elem_of_further.
    + destruct lms as [|l0 lms]; [done|].
      assert (Hzero : ∀ ls, (∀ lm, lm ∈ ls → c ∉ lm_connectors lm) →
                Mutter.vdagent_mutter_get_monitor_position ls c 0 0 = (0, 0)).
      { induction ls as [|l ls IH]; intros Hls; [done|]. cbn.
        assert (Hl : Mutter.has_connector (Mutter.lm_monitors l) c = false).
        { apply has_connector_not_elem. apply Hls. apply list_elem_of_here. }
        rewrite Hl. apply IH. intros lm Hlm. apply Hls. by apply list_elem_of_further. }
      cbn.
      assert (Hl : Mutter.has_connector (Mutter.lm_monitors l0) c = false).
      { apply has_connector_not_elem. apply Hnone. apply list_elem_of_here. }
      rewrite Hl. apply Hzero. intros lm Hlm. apply Hnone. by apply list_elem_of_further.
  - assert (Hzero : ∀ ls,
              Mutter.vdagent_mutter_get_monitor_position ls c 0 0
              = (Mutter.find_logical_monitor_info ls c).1.1.1).
    { induction ls as [|l ls IH]; [done|]. cbn.
      by destruct (Mutter.has_connector (Mutter.lm_monitors l) c). }
    destruct lms as [|l lms]; [done|]. intros _. cbn.
    destruct (Mutter.has_connector (Mutter.lm_monitors l) c); [done|]. apply Hzero.
Qed.

(** "Virtual-2" is shown by the second logical monitor of the sample
    state, at (1920, 0). *)
Lemma mutter_position_lookup_witness :
  first_logical_monitor (Mutter.cs_logical_monitors sample_state) "Virtual-2" 1
    (sample_logical 1920 0 C.double_1 true "Virtual-2")
  ∧ Mutter.vdagent_mutter_get_monitor_position (Mutter.cs_logical_monitors sample_state)
      "Virtual-2" 5 5 = (1920, 0).
Proof.
  assert (Hfirst : first_logical_monitor (Mutter.cs_logical_monitors sample_state)
                     "Virtual-2" 1 (sample_logical 1920 0 C.double_1 true "Virtual-2")).
  { split; [reflexivity|]. split; [apply list_elem_of_here|].
    intros [|j'] lm' Hlt Hlook; [|lia]. cbn in Hlook. simplify_eq.
    intros Hin. apply list_elem_of_singleton in Hin. discriminate. }
  split; [exact Hfirst|].
  exact (proj1 (proj1 (mutter_position_lookup _ _ 5 5) _ _ Hfirst)).
Defined.

Lemma current_mode_parsed (ms : list Mutter.dbus_mode) :
  Mutter.find_current_mode_id (Mutter.parse_monitor_modes ms)
  = Mutter.dm_id <$> Mutter.current_mode ms.
Proof.
  unfold Mutter.parse_monitor_modes. induction ms as [|m ms IH]; [done|]. cbn.
  by destruct (Mutter.lookup_flag (Mutter.dm_is_current m)).
Qed.

Lemma parse_monitor_is_enabled m lms mon :
  Mutter.is_enabled (Mutter.parse_monitor m lms mon)
  = bool_decide (is_Some (Mutter.current_mode (Mutter.mon_modes mon))).
Proof.
  unfold Mutter.parse_monitor.
  destruct (Mutter.find_logical_monitor_info lms _) as [[[[x y] sc] tr] prim].
  cbn. rewrite current_mode_parsed.
  by destruct (Mutter.current_mode (Mutter.mon_modes mon)).
Qed.

Lemma parse_monitor_position m lms mon :
  (Mutter.current_x (Mutter.parse_monitor m lms mon),
   Mutter.current_y (Mutter.parse_monitor m lms mon))
  = (Mutter.find_logical_monitor_info lms
       (Mutter.ms_connector (Mutter.mon_spec mon))).1.1.1.
Proof.
  unfold Mutter.parse_monitor.
  by destruct (Mutter.find_logical_monitor_info lms _) as [[[[x y] sc] tr] prim].
Qed.

(** X10. The discovery path and the apply path of Mutter read a state alike:
    the monitors discovery reports are, in the same order, the monitors
    the apply path parses as enabled; for each the current mode is the
    first mode flagged is-current, whose size discovery reports and whose
    id the apply path keeps; and when the state has a logical monitor,
    the position discovery reports is the parsed current position. *)
Theorem mutter_discovery_matches_parse mu v curr0 :
  let lms := Mutter.cs_logical_monitors v in
  let en := mutter_enabled lms curr0 (Mutter.cs_monitors v) in
  let infos := List.filter Mutter.is_enabled (Mutter.parse_monitors_from_state mu v) in
  fst <$> en = Mutter.connector <$> infos
  ∧ (lms ≠ [] →
     (λ cr, (res_x cr.2, res_y cr.2)) <$> en
     = (λ info, (Mutter.current_x info, Mutter.current_y info)) <$> infos)
  ∧ ∀ mon, mon ∈ Mutter.cs_monitors v →
      let info := Mutter.parse_monitor (Mutter.connector_mapping mu) lms mon in
      match Mutter.current_mode (Mutter.mon_modes mon) with
      | Some cm =>
          Mutter.is_enabled info = true
          ∧ Mutter.current_mode_id info = Some (Mutter.dm_id cm)
          ∧ ∀ c0 c, geometry (Mutter.monitor_resolution lms c0 c cm)
                    = (Mutter.dm_width cm, Mutter.dm_height cm,
                       (Mutter.vdagent_mutter_get_monitor_position lms c
                          (res_x c0) (res_y c0)).1,
                       (Mutter.vdagent_mutter_get_monitor_position lms c
                          (res_x c0) (res_y c0)).2)
      | None => Mutter.is_enabled info = false ∧ Mutter.current_mode_id info = None
      end.
Proof.
  intros lms en infos. subst en infos. unfold Mutter.parse_monitors_from_state.
  fold lms. split; [|split].
  - generalize curr0. induction (Mutter.cs_monitors v) as [|mon mons IH]; intros c0; [done|].
    cbn [mutter_enabled fmap list_fmap List.filter map].
    rewrite parse_monitor_is_enabled.
    destruct (Mutter.current_mode (Mutter.mon_modes mon)) as [cm|]; cbn.
    + rewrite parse_monitor_connector. f_equal. apply IH.
    + apply IH.
  - intros Hne. generalize curr0.
    induction (Mutter.cs_monitors v) as [|mon mons IH]; intros c0; [done|].
    cbn [mutter_enabled fmap list_fmap List.filter map].
    rewrite parse_monitor_is_enabled.
    destruct (Mutter.current_mode (Mutter.mon_modes mon)) as [cm|]; cbn.
    + f_equal; [|apply IH]. rewrite parse_monitor_position.
      rewrite <- (mutter_position_agrees lms _ (res_x (c0 0%nat))
                    (res_y (c0 0%nat)) Hne).
      unfold Mutter.monitor_resolution.
      by destruct (Mutter.vdagent_mutter_get_monitor_position _ _ _ _).
    + apply IH.
  - intros mon _. cbv zeta.
    rewrite parse_monitor_is_enabled, parse_monitor_current_mode_id, current_mode_parsed.
    destruct (Mutter.current_mode (Mutter.mon_modes mon)) as [cm|]; [|done].
    split; [done|]. split; [done|]. intros c0 c. unfold Mutter.monitor_resolution.
    by destruct (Mutter.vdagent_mutter_get_monitor_position _ _ _ _).
Qed.

(** In the sample state both monitors are enabled, at (0,0) and
    (1920,0). *)
Lemma mutter_discovery_matches_parse_witness :
  Mutter.cs_logical_monitors sample_state ≠ []
  ∧ (λ info, (Mutter.current_x info, Mutter.current_y info))
    <$> List.filter Mutter.is_enabled
          (Mutter.parse_monitors_from_state (sample_mutter sample_mapping) sample_state)
    = [(0, 0); (1920, 0)].
Proof.
  split; [discriminate|].
  rewrite <- (proj1 (proj2 (mutter_discovery_matches_parse (sample_mutter sample_mapping)
                              sample_state sample_curr0)) ltac:(discriminate)).
  vm_compute. reflexivity.
Defined.

(** ** From a discovery result back to the outputs *)

Lemma filter_all_true {A : Type} (f : A → bool) (l : list A) :
  (∀ x, x ∈ l → f x = true) → List.filter f l = l.
Proof.
  induction l as [|x l IH]; intros Hall; [done|]. cbn.
  rewrite (Hall x (list_elem_of_here _ _)). f_equal. apply IH.
  intros y Hy. apply Hall. by apply list_elem_of_further.
Qed.

Lemma filter_elem_of {A : Type} (f : A → bool) (l : list A) x :
  x ∈ List.filter f l → x ∈ l.
Proof.
  induction l as [|y l IH]; [done|]. cbn. destruct (f y).
  - intros Hx. apply elem_of_cons in Hx as [->|Hx]; [apply list_elem_of_here|].
    by apply list_elem_of_further, IH.
  - intros Hx. by apply list_elem_of_further, IH.
Qed.

Lemma lookup_indexed (l : list vdagentd_guest_xorg_resolution) i r :
  indexed l !! i = Some r →
  ∃ r0, l !! i = Some r0 ∧ r = set_display_id r0 (C.to_int (Z.of_nat i)).
Proof.
  unfold indexed. rewrite list_lookup_imap.
  destruct (l !! i) as [r0|]; [|done]. intros [= <-]. by exists r0.
Qed.

(** X11. The identifiers of a discovery result of KWin lead an apply call
    back to the outputs they were reported for, under conditions the code
    does not check itself. In the fallback branch: when every output of
    the snapshot is enabled and ready, the record with identifier [i] is
    that of the output an apply call targets for entry [i]. In the mapped
    branch: when the mapping gives no two outputs the same identifier and
    its identifiers are below 2^31, the apply call targets, for the
    identifier of each record, the output the record was built from. *)
Theorem kwin_discovery_then_apply k res w h n :
  KWin.vdagent_kwin_get_resolutions (Some k) = Some (res, w, h, n) →
  ((∀ o, o ∈ KWin.outputs k → kwin_ready o = true) →
   (∀ o, o ∈ KWin.outputs k →
         KWin.lookup_connector (KWin.connector_mapping k) o = None) →
   Z.of_nat (length (KWin.outputs k)) < 2 ^ 31 →
   ∀ i r, res !! i = Some r →
     res_display_id r = Z.of_nat i
     ∧ ∃ o, KWin.find_output k i = Some o
            ∧ KWin.outputs k !! i = Some o
            ∧ geometry r = geometry (KWin.output_resolution o))
  ∧
  ((∀ j1 j2 o1 o2 id,
      KWin.outputs k !! j1 = Some o1 → KWin.outputs k !! j2 = Some o2 →
      kwin_mapped_id (KWin.connector_mapping k) o1 = Some id →
      kwin_mapped_id (KWin.connector_mapping k) o2 = Some id → j1 = j2) →
   (∀ o v, o ∈ KWin.outputs k →
           KWin.lookup_connector (KWin.connector_mapping k) o = Some v →
           0 ≤ v < 2 ^ 31) →
   (∃ o, o ∈ kwin_ready_outputs k
         ∧ is_Some (KWin.lookup_connector (KWin.connector_mapping k) o)) →
   ∀ r, r ∈ res →
     0 ≤ res_display_id r
     ∧ ∃ o, KWin.find_output k (Z.to_nat (res_display_id r)) = Some o
            ∧ o ∈ kwin_ready_outputs k
            ∧ kwin_mapped_resolution (KWin.connector_mapping k) o = Some r).
Proof.
  intros Hcall.
  assert (Hm : ∃ hd, KWin.output_management k = Some hd).
  { unfold KWin.vdagent_kwin_get_resolutions in Hcall.
    destruct (KWin.output_management k); [by eexists|done]. }
  destruct Hm as [hd Hm].
  rewrite (kwin_get_resolutions_spec k hd Hm) in Hcall. cbv zeta in Hcall.
  split.
  - intros Hready Hnone Hlen i r Hr.
    assert (Hall : kwin_ready_outputs k = KWin.outputs k)
      by by apply filter_all_true.
    rewrite Hall in Hcall.
    assert (Hnil : omap (kwin_mapped_resolution (KWin.connector_mapping k))
                     (KWin.outputs k) = []).
    { apply omap_nil_iff. intros o Ho. unfold kwin_mapped_resolution.
      by rewrite (Hnone o Ho). }
    rewrite Hnil in Hcall. simplify_eq.
    apply lookup_indexed in Hr as (r0 & Hr0 & ->).
    change (map KWin.output_resolution (KWin.outputs k))
      with (KWin.output_resolution <$> KWin.outputs k) in Hr0.
    rewrite list_lookup_fmap in Hr0.
    destruct (KWin.outputs k !! i) as [o|] eqn:Ho; [|done]. cbn in Hr0. simplify_eq.
    pose proof (lookup_lt_Some _ _ _ Ho) as Hi.
    split; [cbn; apply to_int_id; lia|].
    exists o. split; [|split; [done|reflexivity]]. unfold KWin.find_output.
    pose proof (kwin_find_mapped_output_spec (KWin.connector_mapping k)
                  (KWin.outputs k) (Z.of_nat i)) as Hspec.
    destruct (KWin.find_mapped_output _ _ _) as [o0|]; [|done].
    destruct Hspec as (j & Hj & Hid & _). apply list_elem_of_lookup_2 in Hj.
    unfold kwin_mapped_id in Hid. by rewrite (Hnone o0 Hj) in Hid.
  - intros Hinj Hsmall Hex r Hr.
    assert (Hne : omap (kwin_mapped_resolution (KWin.connector_mapping k))
                    (kwin_ready_outputs k) ≠ []).
    { apply omap_cons_of_some. destruct Hex as (o & Ho & [x Hx]).
      exists o. split; [done|]. unfold kwin_mapped_resolution. rewrite Hx. by eexists. }
    destruct (omap _ (kwin_ready_outputs k)) as [|r1 rs] eqn:Hmapped; [done|].
    simplify_eq. rewrite <- Hmapped in Hr.
    apply list_elem_of_omap in Hr as (o & Ho & Hres).
    pose proof (filter_elem_of _ _ _ Ho) as Hin.
    pose proof Hres as Hres'. unfold kwin_mapped_resolution in Hres'.
    destruct (KWin.lookup_connector (KWin.connector_mapping k) o) as [v|] eqn:Hv;
      [|done].
    cbn in Hres'. simplify_eq. cbn [res_display_id set_display_id].
    pose proof (Hsmall o v Hin Hv) as Hrange.
    unfold GLib.GPOINTER_TO_UINT. rewrite (to_int_to_uint_small v Hrange).
    split; [lia|]. exists o. split; [|split; [exact Ho|]].
    2:{ unfold kwin_mapped_resolution. rewrite Hv. cbn. unfold GLib.GPOINTER_TO_UINT.
        by rewrite (to_int_to_uint_small v Hrange). }
    unfold KWin.find_output. rewrite Z2Nat.id by lia.
    assert (Hido : kwin_mapped_id (KWin.connector_mapping k) o = Some v).
    { unfold kwin_mapped_id. rewrite Hv. cbn. unfold GLib.GPOINTER_TO_UINT, C.to_uint.
      f_equal. apply Z.mod_small. lia. }
    pose proof (kwin_find_mapped_output_spec (KWin.connector_mapping k)
                  (KWin.outputs k) v) as Hspec.
    destruct (KWin.find_mapped_output _ _ _) as [o0|].
    + destruct Hspec as (j & Hj & Hid & _).
      apply list_elem_of_lookup in Hin as (j2 & Hj2).
      assert (j = j2) as -> by (by eapply Hinj). congruence.
    + by destruct (Hspec o Hin).
Qed.

(** With "Virtual-2" mapped to display 0, the one record has identifier
    0, and entry 0 of an apply call targets the second output. *)
Lemma kwin_discovery_then_apply_witness :
  KWin.vdagent_kwin_get_resolutions (Some (sample_kwin swapped_mapping sample_outputs))
  = Some ([resolution 1280 1024 1920 0 0], 3200, 1080, 2)
  ∧ ∃ o, KWin.find_output (sample_kwin swapped_mapping sample_outputs) 0 = Some o
         ∧ KWin.ko_device o = 2.
Proof.
  assert (Hcall : KWin.vdagent_kwin_get_resolutions
                    (Some (sample_kwin swapped_mapping sample_outputs))
                  = Some ([resolution 1280 1024 1920 0 0], 3200, 1080, 2))
    by (vm_compute; reflexivity).
  split; [exact Hcall|].
  destruct (proj2 (kwin_discovery_then_apply _ _ _ _ _ Hcall)) with
    (r := resolution 1280 1024 1920 0 0) as (_ & o & Hfind & _ & Hres).
  - intros j1 j2 o1 o2 id H1 H2 Hid1 Hid2.
    destruct j1 as [|[|j1]], j2 as [|[|j2]]; cbn in H1, H2; simplify_eq;
      try reflexivity; vm_compute in Hid1; vm_compute in Hid2; congruence.
  - intros o v Hin Hv.
    repeat (apply elem_of_cons in Hin as [->|Hin];
            [vm_compute in Hv; simplify_eq; lia|]).
    by apply elem_of_nil in Hin.
  - eexists. split; [apply list_elem_of_further, list_elem_of_here|].
    vm_compute. by eexists.
  - apply list_elem_of_here.
  - exists o. split; [exact Hfind|].
    revert Hfind. vm_compute. intros [= <-]. reflexivity.
Defined.

Lemma mutter_enabled_elem lms mons :
  ∀ c0 cr, cr ∈ mutter_enabled lms c0 mons →
    ∃ mon, mon ∈ mons ∧ cr.1 = Mutter.ms_connector (Mutter.mon_spec mon)
           ∧ is_Some (Mutter.current_mode (Mutter.mon_modes mon)).
Proof.
  induction mons as [|mon mons IH]; intros c0 cr Hcr; cbn in Hcr.
  - by apply elem_of_nil in Hcr.
  - destruct (Mutter.current_mode (Mutter.mon_modes mon)) as [cm|] eqn:Hcm.
    + apply elem_of_cons in Hcr as [->|Hcr].
      * exists mon. split; [apply list_elem_of_here|]. split; [done|]. rewrite Hcm.
        by eexists.
      * destruct (IH _ _ Hcr) as (mon' & Hin & Hrest). exists mon'.
        split; [by apply list_elem_of_further|done].
    + destruct (IH _ _ Hcr) as (mon' & Hin & Hrest). exists mon'.
      split; [by apply list_elem_of_further|done].
Qed.

Lemma mutter_enabled_all_lookup lms mons :
  (∀ mon, mon ∈ mons → is_Some (Mutter.current_mode (Mutter.mon_modes mon))) →
  ∀ c0 i cr, mutter_enabled lms c0 mons !! i = Some cr →
    ∃ mon, mons !! i = Some mon ∧ cr.1 = Mutter.ms_connector (Mutter.mon_spec mon).
Proof.
  induction mons as [|mon mons IH]; intros Hall c0 i cr Hcr; cbn in Hcr; [done|].
  destruct (Hall mon (list_elem_of_here _ _)) as [cm Hcm]. rewrite Hcm in Hcr.
  destruct i as [|i]; cbn in Hcr.
  - simplify_eq. by exists mon.
  - apply (IH (λ mon' Hin, Hall mon' (list_elem_of_further _ _ _ Hin))) in Hcr.
    exact Hcr.
Qed.

(** An enabled monitor of the list comes from a monitor of the state
    with a current mode, and its record is the one built from that mode;
    [j] is the monitor's index in the state. *)
Lemma mutter_enabled_elem_record lms mons :
  ∀ c0 cr, cr ∈ mutter_enabled lms c0 mons →
    ∃ j mon cm,
      mons !! j = Some mon
      ∧ Mutter.current_mode (Mutter.mon_modes mon) = Some cm
      ∧ cr = (Mutter.ms_connector (Mutter.mon_spec mon),
              Mutter.monitor_resolution lms (c0 j)
                (Mutter.ms_connector (Mutter.mon_spec mon)) cm).
Proof.
  induction mons as [|mon mons IH]; intros c0 cr Hcr; cbn in Hcr.
  - by apply elem_of_nil in Hcr.
  - assert (Hrest : cr ∈ mutter_enabled lms (c0 ∘ S) mons →
              ∃ j mon0 cm,
                (mon :: mons) !! j = Some mon0
                ∧ Mutter.current_mode (Mutter.mon_modes mon0) = Some cm
                ∧ cr = (Mutter.ms_connector (Mutter.mon_spec mon0),
                        Mutter.monitor_resolution lms (c0 j)
                          (Mutter.ms_connector (Mutter.mon_spec mon0)) cm)).
    { intros Hin. destruct (IH _ _ Hin) as (j & mon0 & cm & Hj & Hcm & Heq).
      by exists (S j), mon0, cm. }
    destruct (Mutter.current_mode (Mutter.mon_modes mon)) as [cm|] eqn:Hcm; [|auto].
    apply elem_of_cons in Hcr as [->|Hcr]; [|auto].
    by exists 0%nat, mon, cm.
Qed.

Lemma mutter_enabled_all_lookup_record lms mons :
  (∀ mon, mon ∈ mons → is_Some (Mutter.current_mode (Mutter.mon_modes mon))) →
  ∀ c0 i cr, mutter_enabled lms c0 mons !! i = Some cr →
    ∃ mon cm,
      mons !! i = Some mon
      ∧ Mutter.current_mode (Mutter.mon_modes mon) = Some cm
      ∧ cr = (Mutter.ms_connector (Mutter.mon_spec mon),
              Mutter.monitor_resolution lms (c0 i)
                (Mutter.ms_connector (Mutter.mon_spec mon)) cm).
Proof.
  induction mons as [|mon mons IH]; intros Hall c0 i cr Hcr; cbn in Hcr; [done|].
  destruct (Hall mon (list_elem_of_here _ _)) as [cm Hcm]. rewrite Hcm in Hcr.
  destruct i as [|i]; cbn in Hcr.
  - simplify_eq. by exists mon, cm.
  - apply (IH (λ mon' Hin, Hall mon' (list_elem_of_further _ _ _ Hin))) in Hcr.
    exact Hcr.
Qed.

Lemma monitor_resolution_size lms c0 c cm :
  res_width (Mutter.monitor_resolution lms c0 c cm) = Mutter.dm_width cm
  ∧ res_height (Mutter.monitor_resolution lms c0 c cm) = Mutter.dm_height cm
  ∧ (res_x (Mutter.monitor_resolution lms c0 c cm),
     res_y (Mutter.monitor_resolution lms c0 c cm))
    = Mutter.vdagent_mutter_get_monitor_position lms c (res_x c0) (res_y c0).
Proof.
  unfold Mutter.monitor_resolution.
  by destruct (Mutter.vdagent_mutter_get_monitor_position lms c _ _) as [x y].
Qed.

(** X12. The same for Mutter. In the fallback branch: when every monitor of
    the state has a current mode, the record with identifier [i] is that
    of the monitor an apply call on the same state targets for entry [i]:
    its size is that of the monitor's current mode and its position the
    one the logical monitors give to the monitor's connector. In the
    mapped branch: when the mapping gives no two monitors the same
    identifier and its identifiers are below 2^31, the apply call
    targets, for the identifier of each record, the enabled monitor whose
    connector the mapping sends to that identifier, and the record has
    the size of that monitor's current mode and the position of its
    connector. *)
Theorem mutter_discovery_then_apply mu v curr0 w0 h0 res w h n :
  Mutter.vdagent_mutter_get_resolutions (Some mu) (Some v) curr0 w0 h0
  = Some (res, w, h, n) →
  let m := Mutter.connector_mapping mu in
  let lms := Mutter.cs_logical_monitors v in
  let mons := Mutter.cs_monitors v in
  let infos := Mutter.parse_monitors_from_state mu v in
  ((∀ mon, mon ∈ mons → is_Some (Mutter.current_mode (Mutter.mon_modes mon))) →
   (∀ mon, mon ∈ mons → m !! Mutter.ms_connector (Mutter.mon_spec mon) = None) →
   Z.of_nat (length mons) < 2 ^ 31 →
   ∀ i r, res !! i = Some r →
     res_display_id r = Z.of_nat i
     ∧ ∃ mon cm,
         mons !! i = Some mon
         ∧ Mutter.find_target infos i = Some (Mutter.parse_monitor m lms mon)
         ∧ Mutter.current_mode (Mutter.mon_modes mon) = Some cm
         ∧ geometry r
           = geometry (Mutter.monitor_resolution lms (curr0 i)
                         (Mutter.ms_connector (Mutter.mon_spec mon)) cm)
         ∧ res_width r = Mutter.dm_width cm
         ∧ res_height r = Mutter.dm_height cm
         ∧ (res_x r, res_y r)
           = Mutter.vdagent_mutter_get_monitor_position lms
               (Mutter.ms_connector (Mutter.mon_spec mon))
               (res_x (curr0 i)) (res_y (curr0 i)))
  ∧
  ((∀ j1 j2 mon1 mon2 id,
      mons !! j1 = Some mon1 → mons !! j2 = Some mon2 →
      m !! Mutter.ms_connector (Mutter.mon_spec mon1) = Some id →
      m !! Mutter.ms_connector (Mutter.mon_spec mon2) = Some id → j1 = j2) →
   (∀ mon id, mon ∈ mons →
              m !! Mutter.ms_connector (Mutter.mon_spec mon) = Some id →
              0 ≤ id < 2 ^ 31) →
   (∃ cr, cr ∈ mutter_enabled lms curr0 mons ∧ is_Some (m !! cr.1)) →
   ∀ r, r ∈ res →
     0 ≤ res_display_id r
     ∧ ∃ mon, mon ∈ mons
              ∧ is_Some (Mutter.current_mode (Mutter.mon_modes mon))
              ∧ m !! Mutter.ms_connector (Mutter.mon_spec mon) = Some (res_display_id r)
              ∧ Mutter.find_target infos (Z.to_nat (res_display_id r))
                = Some (Mutter.parse_monitor m lms mon)
              ∧ ∃ j cm,
                  mons !! j = Some mon
                  ∧ Mutter.current_mode (Mutter.mon_modes mon) = Some cm
                  ∧ geometry r
                    = geometry (Mutter.monitor_resolution lms (curr0 j)
                                  (Mutter.ms_connector (Mutter.mon_spec mon)) cm)
                  ∧ res_width r = Mutter.dm_width cm
                  ∧ res_height r = Mutter.dm_height cm
                  ∧ (res_x r, res_y r)
                    = Mutter.vdagent_mutter_get_monitor_position lms
                        (Mutter.ms_connector (Mutter.mon_spec mon))
                        (res_x (curr0 j)) (res_y (curr0 j))).
Proof.
  intros Hcall m lms mons infos.
  rewrite mutter_get_resolutions_spec in Hcall. cbv zeta in Hcall.
  fold m lms mons in Hcall.
  assert (Hinfos : ∀ j, infos !! j = Mutter.parse_monitor m lms <$> mons !! j).
  { intros j. subst infos. unfold Mutter.parse_monitors_from_state.
    change (map ?f ?l) with (f <$> l). apply list_lookup_fmap. }
  split.
  - intros Hall Hnone Hlen i r Hr.
    assert (Hnil : omap (mutter_mapped_resolution m) (mutter_enabled lms curr0 mons) = []).
    { apply omap_nil_iff. intros cr Hcr. unfold mutter_mapped_resolution.
      apply mutter_enabled_elem in Hcr as (mon & Hin & Hc & _).
      unfold GLib.g_hash_table_lookup_extended. by rewrite Hc, (Hnone mon Hin). }
    rewrite Hnil in Hcall. simplify_eq.
    apply lookup_indexed in Hr as (r0 & Hr0 & ->).
    change (map snd ?l) with (snd <$> l) in Hr0. rewrite list_lookup_fmap in Hr0.
    destruct (mutter_enabled lms curr0 mons !! i) as [cr|] eqn:Hcr; [|done].
    cbn in Hr0. injection Hr0 as <-.
    apply (mutter_enabled_all_lookup_record lms mons Hall) in Hcr
      as (mon & cm & Hmon & Hcm & ->).
    pose proof (lookup_lt_Some _ _ _ Hmon) as Hi.
    split; [cbn; apply to_int_id; lia|].
    exists mon, cm. split; [done|].
    destruct (monitor_resolution_size lms (curr0 i)
                (Mutter.ms_connector (Mutter.mon_spec mon)) cm) as (Hw & Hh & Hxy).
    split; [|split; [done|split; [reflexivity|split; [exact Hw|split; [exact Hh|exact Hxy]]]]].
    unfold Mutter.find_target.
    pose proof (mutter_find_mapped_monitor_spec infos (C.to_int (Z.of_nat i))) as Hspec.
    destruct (Mutter.find_mapped_monitor _ _) as [info0|].
    + destruct Hspec as (j & Hj & Hid & _). rewrite Hinfos in Hj.
      destruct (mons !! j) as [monj|] eqn:Hmonj; [|done]. cbn in Hj.
      injection Hj as <-.
      rewrite parse_monitor_display_id in Hid.
      unfold GLib.g_hash_table_lookup_extended in Hid.
      rewrite (Hnone monj (list_elem_of_lookup_2 _ _ _ Hmonj)) in Hid.
      symmetry in Hid. apply to_int_not_minus_one in Hid; [done|lia].
    + by rewrite Hinfos, Hmon.
  - intros Hinj Hsmall Hex r Hr.
    assert (Hne : omap (mutter_mapped_resolution m) (mutter_enabled lms curr0 mons) ≠ []).
    { apply omap_cons_of_some. destruct Hex as (cr & Hcr & [x Hx]).
      exists cr. split; [done|]. unfold mutter_mapped_resolution.
      unfold GLib.g_hash_table_lookup_extended. rewrite Hx. by eexists. }
    destruct (omap _ (mutter_enabled lms curr0 mons)) as [|r1 rs] eqn:Hmapped; [done|].
    simplify_eq. rewrite <- Hmapped in Hr.
    apply list_elem_of_omap in Hr as (cr & Hcr & Hres).
    apply mutter_enabled_elem_record in Hcr as (j0 & mon & cm & Hj0 & Hcm & ->).
    pose proof (list_elem_of_lookup_2 _ _ _ Hj0) as Hin.
    unfold mutter_mapped_resolution, GLib.g_hash_table_lookup_extended in Hres.
    cbn [fst snd] in Hres.
    destruct (m !! Mutter.ms_connector (Mutter.mon_spec mon)) as [id|] eqn:Hid; [|done].
    cbn in Hres. simplify_eq. cbn [res_display_id set_display_id].
    pose proof (Hsmall mon id Hin Hid) as Hrange.
    unfold GLib.GPOINTER_TO_UINT. rewrite (to_int_to_uint_small id Hrange).
    split; [lia|]. exists mon. split; [done|]. split; [by eexists|]. split; [done|].
    destruct (monitor_resolution_size lms (curr0 j0)
                (Mutter.ms_connector (Mutter.mon_spec mon)) cm) as (Hw & Hh & Hxy).
    split; [|exists j0, cm; split; [done|split; [done|split; [reflexivity|
               split; [exact Hw|split; [exact Hh|exact Hxy]]]]]].
    unfold Mutter.find_target. rewrite Z2Nat.id by lia.
    rewrite (to_int_id id) by lia.
    pose proof (mutter_find_mapped_monitor_spec infos id) as Hspec.
    destruct (Mutter.find_mapped_monitor _ _) as [info0|].
    + destruct Hspec as (j & Hj & Hdid & _). rewrite Hinfos in Hj.
      destruct (mons !! j) as [monj|] eqn:Hmonj; [|done]. cbn in Hj.
      injection Hj as <-.
      rewrite parse_monitor_display_id in Hdid.
      unfold GLib.g_hash_table_lookup_extended in Hdid. fold m in Hdid.
      destruct (m !! Mutter.ms_connector (Mutter.mon_spec monj)) as [idj|] eqn:Hidj.
      * pose proof (Hsmall monj idj (list_elem_of_lookup_2 _ _ _ Hmonj) Hidj) as Hrj.
        unfold GLib.GPOINTER_TO_INT in Hdid. rewrite (to_int_id idj) in Hdid by lia.
        subst idj. assert (j = j0) as -> by (by eapply Hinj). congruence.
      * lia.
    + exfalso. apply (Hspec (Mutter.parse_monitor m lms mon)).
      * apply list_elem_of_lookup. exists j0. by rewrite Hinfos, Hj0.
      * rewrite parse_monitor_display_id. unfold GLib.g_hash_table_lookup_extended.
        fold m. rewrite Hid. unfold GLib.GPOINTER_TO_INT. apply to_int_id. lia.
Qed.

(** With no connector mapped, record 1 of the sample state has identifier
    1, entry 1 of an apply call targets "Virtual-2", and the record has
    the size 1280x1024 of the current mode of "Virtual-2" and its
    position (1920, 0). *)
Lemma mutter_discovery_then_apply_witness :
  Mutter.vdagent_mutter_get_resolutions (Some (sample_mutter ∅)) (Some sample_state)
    sample_curr0 0 0
  = Some ([resolution 1920 1080 0 0 0; resolution 1280 1024 1920 0 1], 3200, 1080, 2)
  ∧ ∃ mon cm,
      Mutter.cs_monitors sample_state !! 1%nat = Some mon
      ∧ Mutter.ms_connector (Mutter.mon_spec mon) = "Virtual-2"%string
      ∧ Mutter.find_target
          (Mutter.parse_monitors_from_state (sample_mutter ∅) sample_state) 1
        = Some (Mutter.parse_monitor ∅ (Mutter.cs_logical_monitors sample_state) mon)
      ∧ Mutter.current_mode (Mutter.mon_modes mon) = Some cm
      ∧ Mutter.dm_width cm = 1280 ∧ Mutter.dm_height cm = 1024
      ∧ Mutter.vdagent_mutter_get_monitor_position
          (Mutter.cs_logical_monitors sample_state)
          (Mutter.ms_connector (Mutter.mon_spec mon)) 0 0 = (1920, 0).
Proof.
  assert (Hcall : Mutter.vdagent_mutter_get_resolutions (Some (sample_mutter ∅))
                    (Some sample_state) sample_curr0 0 0
                  = Some ([resolution 1920 1080 0 0 0; resolution 1280 1024 1920 0 1],
                          3200, 1080, 2))
    by (vm_compute; reflexivity).
  split; [exact Hcall|].
  destruct (proj1 (mutter_discovery_then_apply _ _ _ _ _ _ _ _ _ Hcall)) with
    (i := 1%nat) (r := resolution 1280 1024 1920 0 1)
    as (_ & mon & cm & Hmon & Hfind & Hcm & _ & Hw & Hh & Hxy).
  - intros mon Hin.
    repeat (apply elem_of_cons in Hin as [->|Hin]; [by eexists|]).
    by apply elem_of_nil in Hin.
  - intros mon Hin. apply lookup_empty.
  - vm_compute. reflexivity.
  - reflexivity.
  - exists mon, cm. split; [exact Hmon|].
    split; [by injection Hmon as <-|].
    split; [exact Hfind|]. split; [exact Hcm|].
    split; [exact (eq_sym Hw)|]. split; [exact (eq_sym Hh)|]. exact (eq_sym Hxy).
Defined.

(** ** The registry of KWin *)

Lemma new_output_not_ready device : kwin_ready (new_output device) = false.
Proof. reflexivity. Qed.

Lemma kwin_get_resolutions_snoc_unready k o :
  kwin_ready o = false →
  KWin.vdagent_kwin_get_resolutions
    (Some {| KWin.output_management := KWin.output_management k;
             KWin.connector_mapping := KWin.connector_mapping k;
             KWin.outputs := KWin.outputs k ++ [o];
             KWin.output_management_version := KWin.output_management_version k |})
  = KWin.vdagent_kwin_get_resolutions (Some k).
Proof.
  intros Ho. unfold KWin.vdagent_kwin_get_resolutions. cbn [KWin.output_management
    KWin.connector_mapping KWin.outputs].
  destruct (KWin.output_management k); [|done].
  unfold KWin.scan_outputs. rewrite fold_left_app. cbn [fold_left].
  by rewrite kwin_scan_output_skip.
Qed.

Lemma registry_handle_global_mapping dev mgmt bind k name interface version :
  KWin.connector_mapping (registry_handle_global dev mgmt bind k name interface version)
  = KWin.connector_mapping k.
Proof.
  unfold registry_handle_global. repeat case_bool_decide; repeat case_match; done.
Qed.

(** X13. A global announced by the registry changes the instance in one of
    three ways. An interface other than the two the code knows, or a
    version below 2, changes nothing. An output device of version 2 or
    more appends one output, not yet ready, bound at the smaller of the
    announced and the supported version; the outputs already there are
    untouched and discovery returns what it returned before. The output
    management of version 2 or more sets the management proxy and its
    version and leaves the outputs alone. The connector mapping is never
    touched. *)
Theorem registry_global_effect dev mgmt bind k name interface version :
  let k' := registry_handle_global dev mgmt bind k name interface version in
  KWin.connector_mapping k' = KWin.connector_mapping k
  ∧ (interface ≠ if_name dev → interface ≠ if_name mgmt → k' = k)
  ∧ (version < 2 → k' = k)
  ∧ (interface = if_name dev → 2 ≤ version →
     KWin.outputs k'
     = KWin.outputs k
       ++ [new_output (bind name dev (Z.min version (C.to_uint (if_version dev))))]
     ∧ KWin.output_management k' = KWin.output_management k
     ∧ KWin.vdagent_kwin_get_resolutions (Some k')
       = KWin.vdagent_kwin_get_resolutions (Some k))
  ∧ (interface ≠ if_name dev → interface = if_name mgmt → 2 ≤ version →
     KWin.outputs k' = KWin.outputs k
     ∧ KWin.output_management_version k'
       = Z.min version (C.to_uint (if_version mgmt))
     ∧ KWin.output_management k'
       = non_null (bind name mgmt (Z.min version (C.to_uint (if_version mgmt))))).
Proof.
  intros k'. subst k'. unfold registry_handle_global,
    MIN_OUTPUT_DEVICE_VERSION, MIN_OUTPUT_MANAGEMENT_VERSION.
  split; [|split; [|split; [|split]]].
  - repeat case_bool_decide; repeat case_match; done.
  - intros Hd Hm. by rewrite !bool_decide_eq_false_2.
  - intros Hv. apply Z.ltb_lt in Hv. rewrite Hv. by repeat case_bool_decide.
  - intros Hd Hv. rewrite (bool_decide_eq_true_2 _ Hd).
    apply Z.ltb_ge in Hv. rewrite Hv. cbn [KWin.outputs KWin.output_management].
    split; [done|]. split; [done|].
    apply kwin_get_resolutions_snoc_unready, new_output_not_ready.
  - intros Hd Hm Hv. rewrite (bool_decide_eq_false_2 _ Hd), (bool_decide_eq_true_2 _ Hm).
    apply Z.ltb_ge in Hv. by rewrite Hv.
Qed.

(** A device of version 3 announced to the sample instance. *)
Lemma registry_global_effect_witness :
  "kde_output_device_v2"%string = if_name sample_device_interface
  ∧ 2 ≤ 3
  ∧ length (KWin.outputs
              (registry_handle_global sample_device_interface sample_management_interface
                 sample_bind (sample_kwin sample_mapping sample_outputs) 40
                 "kde_output_device_v2" 3)) = 3%nat.
Proof.
  split; [reflexivity|]. split; [lia|].
  destruct (proj1 (proj2 (proj2 (proj2 (registry_global_effect sample_device_interface
              sample_management_interface sample_bind
              (sample_kwin sample_mapping sample_outputs) 40 "kde_output_device_v2" 3))))
              eq_refl ltac:(lia)) as (Hout & _).
  rewrite Hout. reflexivity.
Defined.

Lemma dispatch_mapping dev mgmt bind k e :
  KWin.connector_mapping (dispatch dev mgmt bind k e) = KWin.connector_mapping k.
Proof.
  destruct e; cbn; [|done|done].
  apply registry_handle_global_mapping.
Qed.

Lemma dispatch_outputs_length dev mgmt bind k e :
  length (KWin.outputs (dispatch dev mgmt bind k e))
  = (length (KWin.outputs k) + (if is_device_global dev e then 1 else 0))%nat.
Proof.
  destruct e as [name interface version| |j f]; cbn [dispatch is_device_global].
  - unfold registry_handle_global.
    destruct (bool_decide (interface = if_name dev)); cbn [andb].
    + destruct (version <? MIN_OUTPUT_DEVICE_VERSION); cbn [negb KWin.outputs];
        [lia|]. rewrite length_app. cbn. lia.
    + destruct (bool_decide (interface = if_name mgmt));
        [destruct (version <? MIN_OUTPUT_MANAGEMENT_VERSION)|]; cbn; lia.
  - lia.
  - cbn [KWin.outputs]. rewrite length_alter. lia.
Qed.

Lemma dispatch_management dev mgmt bind k e :
  is_management_global dev mgmt e = false →
  KWin.output_management (dispatch dev mgmt bind k e) = KWin.output_management k.
Proof.
  destruct e as [name interface version| |j f]; cbn [dispatch is_management_global];
    [|done|done].
  unfold registry_handle_global.
  destruct (bool_decide (interface = if_name dev)); cbn [negb andb].
  - intros _. by destruct (version <? MIN_OUTPUT_DEVICE_VERSION).
  - destruct (bool_decide (interface = if_name mgmt)); cbn [andb]; [|done].
    destruct (version <? MIN_OUTPUT_MANAGEMENT_VERSION); cbn [negb]; done.
Qed.

Lemma roundtrip_spec dev mgmt bind events :
  ∀ k,
    let k' := roundtrip dev mgmt bind events k in
    KWin.connector_mapping k' = KWin.connector_mapping k
    ∧ length (KWin.outputs k')
      = (length (KWin.outputs k) + length (List.filter (is_device_global dev) events))%nat
    ∧ (List.filter (is_management_global dev mgmt) events = [] →
       KWin.output_management k' = KWin.output_management k).
Proof.
  unfold roundtrip. induction events as [|e events IH]; intros k; cbn [fold_left].
  - cbn. split; [done|]. split; [lia|done].
  - destruct (IH (dispatch dev mgmt bind k e)) as (Hmap & Hlen & Hmg).
    cbv zeta. rewrite Hmap, Hlen, dispatch_mapping, dispatch_outputs_length.
    split; [done|]. split.
    + cbn [List.filter]. destruct (is_device_global dev e); cbn [length]; lia.
    + cbn [List.filter]. destruct (is_management_global dev mgmt e) eqn:He; [done|].
      intros Hnil. rewrite (Hmg Hnil). by apply dispatch_management.
Qed.

(** X14. [vdagent_kwin_create] returns [NULL] when the display cannot be
    reached, and when neither round trip announces the output management
    with a version of 2 or more. An instance it returns is available,
    holds the connector mapping it was given, and has one output per
    output device of version 2 or more that the two round trips
    announced. *)
Theorem kwin_create_result dev mgmt bind mapping display round1 round2 :
  (display = None → vdagent_kwin_create dev mgmt bind mapping display round1 round2 = None)
  ∧ (List.filter (is_management_global dev mgmt) (round1 ++ round2) = [] →
     vdagent_kwin_create dev mgmt bind mapping display round1 round2 = None)
  ∧ (∀ k, vdagent_kwin_create dev mgmt bind mapping display round1 round2 = Some k →
          vdagent_kwin_is_available (Some k) = true
          ∧ is_Some (KWin.vdagent_kwin_get_resolutions (Some k))
          ∧ KWin.connector_mapping k = mapping
          ∧ length (KWin.outputs k)
            = length (List.filter (is_device_global dev) (round1 ++ round2))).
Proof.
  unfold vdagent_kwin_create.
  set (k0 := {| KWin.output_management := None; KWin.connector_mapping := mapping;
                KWin.outputs := []; KWin.output_management_version := 0 |}).
  destruct (roundtrip_spec dev mgmt bind round1 k0) as (Hmap1 & Hlen1 & Hmg1).
  destruct (roundtrip_spec dev mgmt bind round2 (roundtrip dev mgmt bind round1 k0))
    as (Hmap2 & Hlen2 & Hmg2).
  cbv zeta in *.
  split; [by intros ->|]. split.
  - intros Hnil. destruct display; [|done].
    rewrite List.filter_app in Hnil. apply app_eq_nil in Hnil as [Hn1 Hn2].
    by rewrite (Hmg2 Hn2), (Hmg1 Hn1).
  - intros k Hk. destruct display; [|done].
    destruct (KWin.output_management (roundtrip dev mgmt bind round2 _)) as [p|] eqn:Hp;
      [|done].
    injection Hk as <-. split; [|split; [|split]].
    + cbn. rewrite Hp. apply bool_decide_eq_true_2. by eexists.
    + unfold KWin.vdagent_kwin_get_resolutions. rewrite Hp. by eexists.
    + by rewrite Hmap2, Hmap1.
    + rewrite Hlen2, Hlen1, List.filter_app, length_app. cbn. lia.
Qed.

(** A compositor that announces one device and the management protocol:
    the instance has one output. *)
Lemma kwin_create_result_witness :
  ∃ k, vdagent_kwin_create sample_device_interface sample_management_interface
         sample_bind sample_mapping (Some 1)
         [ev_global 40 "kde_output_device_v2" 2; ev_global 41 "kde_output_management_v2" 4]
         [ev_output 0 (λ o, o)] = Some k
       ∧ length (KWin.outputs k) = 1%nat.
Proof.
  eexists.
  assert (Hk : vdagent_kwin_create sample_device_interface sample_management_interface
                 sample_bind sample_mapping (Some 1)
                 [ev_global 40 "kde_output_device_v2" 2;
                  ev_global 41 "kde_output_management_v2" 4]
                 [ev_output 0 (λ o, o)] = Some _) by (vm_compute; reflexivity).
  split; [exact Hk|].
  rewrite (proj2 (proj2 (proj2 (proj2 (proj2 (kwin_create_result _ _ _ _ _ _ _)) _ Hk)))).
  vm_compute. reflexivity.
Defined.

(** ** Asking for the size an output already has *)

Lemma current_mode_elem (ms : list Mutter.dbus_mode) cm :
  Mutter.current_mode ms = Some cm → cm ∈ ms.
Proof.
  induction ms as [|m ms IH]; [done|]. cbn.
  destruct (Mutter.lookup_flag (Mutter.dm_is_current m)).
  - intros [= <-]. apply list_elem_of_here.
  - intros H. by apply list_elem_of_further, IH.
Qed.

(** X15. When the layout asks for the size of a mode the output lists,
    current or not, neither backend falls back: the mode sent has that
    size, is one of the listed modes, and its refresh rate is not lower
    than that of the listed mode asked about. In particular, applying
    the size discovery reported, which is that of the current mode, keeps
    the size and never lowers the refresh rate. *)
Theorem listed_size_is_honoured :
  (∀ wl o mc cur,
     cur ∈ KWin.ko_modes o →
     KWin.km_width cur = C.to_int (mc_width mc) →
     KWin.km_height cur = C.to_int (mc_height mc) →
     ∃ m, m ∈ KWin.ko_modes o
          ∧ KWin.km_width m = KWin.km_width cur
          ∧ KWin.km_height m = KWin.km_height cur
          ∧ KWin.km_refresh cur ≤ KWin.km_refresh m
          ∧ KWin.req_mode (KWin.ko_device o) (KWin.km_mode m)
              ∈ KWin.configure_output wl o mc)
  ∧
  (∀ mapping lms mon cur mc,
     cur ∈ Mutter.mon_modes mon →
     Mutter.dm_width cur = C.to_int (mc_width mc) →
     Mutter.dm_height cur = C.to_int (mc_height mc) →
     ∃ r, r ∈ Mutter.mon_modes mon
          ∧ Mutter.target_mode_id (Mutter.parse_monitor mapping lms mon) mc
            = Some (Mutter.dm_id r)
          ∧ Mutter.dm_width r = Mutter.dm_width cur
          ∧ Mutter.dm_height r = Mutter.dm_height cur
          ∧ C.double_gt (Mutter.dm_refresh_rate cur) (Mutter.dm_refresh_rate r) = false)
  ∧
  (∀ mapping lms mon cm mc,
     Mutter.current_mode (Mutter.mon_modes mon) = Some cm →
     Mutter.dm_width cm = C.to_int (mc_width mc) →
     Mutter.dm_height cm = C.to_int (mc_height mc) →
     ∃ r, r ∈ Mutter.mon_modes mon
          ∧ Mutter.target_mode_id (Mutter.parse_monitor mapping lms mon) mc
            = Some (Mutter.dm_id r)
          ∧ Mutter.dm_width r = Mutter.dm_width cm
          ∧ Mutter.dm_height r = Mutter.dm_height cm
          ∧ C.double_gt (Mutter.dm_refresh_rate cm) (Mutter.dm_refresh_rate r) = false).
Proof.
  assert (Hlisted : ∀ mapping lms mon cur mc,
     cur ∈ Mutter.mon_modes mon →
     Mutter.dm_width cur = C.to_int (mc_width mc) →
     Mutter.dm_height cur = C.to_int (mc_height mc) →
     ∃ r, r ∈ Mutter.mon_modes mon
          ∧ Mutter.target_mode_id (Mutter.parse_monitor mapping lms mon) mc
            = Some (Mutter.dm_id r)
          ∧ Mutter.dm_width r = Mutter.dm_width cur
          ∧ Mutter.dm_height r = Mutter.dm_height cur
          ∧ C.double_gt (Mutter.dm_refresh_rate cur) (Mutter.dm_refresh_rate r) = false).
  { intros mapping lms mon cur mc Hcur Hw Hh.
    set (info := Mutter.parse_monitor mapping lms mon).
    pose proof (mutter_best_mode_selected info (C.to_int (mc_width mc))
                  (C.to_int (mc_height mc))) as Hsel.
    subst info. rewrite parse_monitor_modes_of in Hsel.
    assert (Hparsed : Mutter.parse_monitor_mode cur
                        ∈ Mutter.parse_monitor_modes (Mutter.mon_modes mon)).
    { by apply list_elem_of_fmap_2. }
    unfold Mutter.target_mode_id, Mutter.find_mode_for_resolution.
    destruct (Mutter.best_mode _ _ _) as [best|]; simpl in Hsel.
    + destruct Hsel as (i & Hi & [Hbw Hbh] & Hmax & _).
      apply list_elem_of_lookup_2 in Hi.
      apply list_elem_of_fmap in Hi as (r & -> & Hr).
      exists r. split; [done|]. split; [done|]. cbn in Hbw, Hbh.
      split; [congruence|]. split; [congruence|].
      apply (Hmax (Mutter.parse_monitor_mode cur) Hparsed). by split.
    + destruct (Hsel (Mutter.parse_monitor_mode cur) Hparsed). by split. }
  split; [|split].
  - intros wl o mc cur Hcur Hw Hh.
    pose proof (kwin_find_mode_selected o (C.to_int (mc_width mc))
                  (C.to_int (mc_height mc))) as Hsel.
    unfold KWin.configure_output.
    destruct (KWin.kwin_find_mode o _ _) as [m|]; simpl in Hsel.
    + destruct Hsel as (i & Hi & [Hmw Hmh] & Hmax & _).
      exists m. split; [by eapply list_elem_of_lookup_2|].
      split; [congruence|]. split; [congruence|]. split; [by apply Hmax|].
      apply list_elem_of_further, list_elem_of_here.
    + by destruct (Hsel cur Hcur).
  - exact Hlisted.
  - intros mapping lms mon cm mc Hcm. apply Hlisted. by apply current_mode_elem.
Qed.

(** Asking the first sample monitor for 1280x720, the size of a listed
    mode that is not the current one, selects that mode. Asking for
    1920x1080, the size of its current 60 Hz mode, selects the 75 Hz mode
    of that size. Asking the first sample output of KWin for 1280x720
    sends a request for its mode of that size. *)
Lemma listed_size_is_honoured_witness :
  (∃ r, r ∈ [sample_dbus_mode "1920x1080@60" 1920 1080 double_60 (Some true);
             sample_dbus_mode "1920x1080@75" 1920 1080 double_75 None;
             sample_dbus_mode "1280x720@60" 1280 720 double_60 None]
        ∧ Mutter.target_mode_id sample_info (entry 1280 720 0 0) = Some (Mutter.dm_id r)
        ∧ Mutter.dm_width r = 1280 ∧ Mutter.dm_height r = 720)
  ∧ (∃ r, r ∈ [sample_dbus_mode "1920x1080@60" 1920 1080 double_60 (Some true);
               sample_dbus_mode "1920x1080@75" 1920 1080 double_75 None;
               sample_dbus_mode "1280x720@60" 1280 720 double_60 None]
          ∧ Mutter.target_mode_id sample_info (entry 1920 1080 0 0) = Some (Mutter.dm_id r)
          ∧ Mutter.dm_width r = 1920)
  ∧ (∃ m, m ∈ sample_modes
          ∧ KWin.km_width m = 1280 ∧ KWin.km_height m = 720
          ∧ KWin.req_mode 1 (KWin.km_mode m)
              ∈ KWin.configure_output sample_fixed
                  (sample_output 1 (Some "Virtual-1"%string) 0 0 1920 1080 sample_modes
                     (Some (sample_mode 11 1920 1080 60000 true)) true)
                  (entry 1280 720 0 0)).
Proof.
  split; [|split].
  - destruct (proj1 (proj2 listed_size_is_honoured) sample_mapping
                (Mutter.cs_logical_monitors sample_state)
                (sample_dbus_monitor "Virtual-1"
                   [sample_dbus_mode "1920x1080@60" 1920 1080 double_60 (Some true);
                    sample_dbus_mode "1920x1080@75" 1920 1080 double_75 None;
                    sample_dbus_mode "1280x720@60" 1280 720 double_60 None])
                (sample_dbus_mode "1280x720@60" 1280 720 double_60 None)
                (entry 1280 720 0 0))
      as (r & Hr & Hid & Hw & Hh & _).
    + apply list_elem_of_further, list_elem_of_further, list_elem_of_here.
    + reflexivity.
    + reflexivity.
    + exists r. split; [exact Hr|]. split; [exact Hid|]. split; [exact Hw|exact Hh].
  - destruct (proj2 (proj2 listed_size_is_honoured) sample_mapping
                (Mutter.cs_logical_monitors sample_state)
                (sample_dbus_monitor "Virtual-1"
                   [sample_dbus_mode "1920x1080@60" 1920 1080 double_60 (Some true);
                    sample_dbus_mode "1920x1080@75" 1920 1080 double_75 None;
                    sample_dbus_mode "1280x720@60" 1280 720 double_60 None])
                (sample_dbus_mode "1920x1080@60" 1920 1080 double_60 (Some true))
                (entry 1920 1080 0 0) eq_refl eq_refl eq_refl)
      as (r & Hr & Hid & Hw & _).
    exists r. split; [exact Hr|]. split; [exact Hid|exact Hw].
  - destruct (proj1 listed_size_is_honoured sample_fixed
                (sample_output 1 (Some "Virtual-1"%string) 0 0 1920 1080 sample_modes
                   (Some (sample_mode 11 1920 1080 60000 true)) true)
                (entry 1280 720 0 0) (sample_mode 13 1280 720 60000 false))
      as (m & Hm & Hw & Hh & _ & Hreq).
    + apply list_elem_of_further, list_elem_of_further, list_elem_of_here.
    + reflexivity.
    + reflexivity.
    + exists m. split; [exact Hm|]. split; [exact Hw|]. split; [exact Hh|exact Hreq].
Defined.
